(** * The task-planner state graph (src/graph.py)

    A shallow embedding of the planner's graph module: the state dictionary
    and its merge idiom, the helper nodes and routers defined in graph.py,
    the three graphs it builds, and the executor that drives a state through
    a graph.  Python dictionaries are finite maps from field names to
    dynamically typed values.  Of the programs that call the module, the
    embedding covers the trace printers of main.py and
    examples/interactive_demo.py, the manual run of examples/simple_demo.py
    and the custom optimization node of examples/advanced_demo.py. *)

From Stdlib Require Import ZArith String List Floats Bool Lia Sorted.
From stdpp Require Import base option list gmap strings fin_maps pretty.

Set Warnings "-register-all,-clear-no-such-hyp,-level-tolerance".
Open Scope string_scope.
Open Scope list_scope.
Open Scope Z_scope.

(** ** Schemas *)

(** Modelled from the spec: schemas.py is not among the sources.  The spec
    (section 6) names the configuration's tunables; the defaults and the
    other models' fields are the ones tests/test_schemas.py and
    tests/conftest.py construct and graph.py reads. *)
Record PlannerConfig := {
  max_iterations : Z;
  auto_approve_simple_plans : bool;
  complexity_threshold : float;
  include_detailed_timeline : bool
}.

(** [PlannerConfig()]: the defaults asserted by test_config_creation_default. *)
Definition PlannerConfig_default : PlannerConfig :=
  {| max_iterations := 3;
     auto_approve_simple_plans := true;
     complexity_threshold := 7.0%float;
     include_detailed_timeline := true |}.

(** Modelled from the spec: the TaskAnalysis model of schemas.py, with the
    fields tests/conftest.py sets and graph.py reads. *)
Record TaskAnalysis := {
  total_tasks : Z;
  complexity_score : float;
  feasibility_score : float
}.

(** Modelled from the spec: the ExecutionPlan model of schemas.py, likewise. *)
Record ExecutionPlan := {
  plan_id : string;
  estimated_total_hours : float
}.

(** Modelled from the spec: the PlanFeedback model of schemas.py, likewise. *)
Record PlanFeedback := {
  rating : Z;
  comments : string;
  approval_status : bool
}.

(** ** Python values held by the state *)

Inductive value :=
| VNone
| VBool (b : bool)
| VInt (n : Z)
| VStr (s : string)
| VList (l : list value)
| VConfig (c : PlannerConfig)
| VAnalysis (a : TaskAnalysis)
| VPlan (p : ExecutionPlan)
| VFeedback (f : PlanFeedback)
| VObj (cls : string).

(** [bool(v)]: the truth value Python gives [v] in [if v:] and [v or d]. *)
Definition truthy (v : value) : bool :=
  match v with
  | VNone => false
  | VBool b => b
  | VInt n => negb (n =? 0)
  | VStr s => negb (String.eqb s "")
  | VList l => match l with [] => false | _ => true end
  | VConfig _ | VAnalysis _ | VPlan _ | VFeedback _ | VObj _ => true
  end.

(** The dynamic checks behind [len], [+], comparisons and attribute access.
    [None] stands for the exception Python raises on an operand of another
    type, or for an operand outside the typed fragment of PlannerState that
    this development covers. *)
Definition as_list (v : value) : option (list value) :=
  match v with VList l => Some l | _ => None end.

Definition as_int (v : value) : option Z :=
  match v with
  | VInt n => Some n
  | VBool b => Some (if b then 1 else 0)
  | _ => None
  end.

Definition as_config (v : value) : option PlannerConfig :=
  match v with VConfig c => Some c | _ => None end.

Definition as_analysis (v : value) : option TaskAnalysis :=
  match v with VAnalysis a => Some a | _ => None end.

Definition as_plan (v : value) : option ExecutionPlan :=
  match v with VPlan p => Some p | _ => None end.

Definition as_feedback (v : value) : option PlanFeedback :=
  match v with VFeedback f => Some f | _ => None end.

(** [len(v)] *)
Definition py_len (v : value) : option Z :=
  l ← as_list v; Some (Z.of_nat (length l)).

(** [str(v)], as an f-string field formats it. *)
Definition py_str (v : value) : option string :=
  match v with
  | VNone => Some "None"
  | VBool b => Some (if b then "True" else "False")
  | VInt n => Some (pretty n)
  | VStr s => Some s
  | _ => None
  end.

(** [needle in haystack] on strings. *)
Definition py_in (needle haystack : string) : bool :=
  match String.index 0 needle haystack with Some _ => true | None => false end.

(** ** The state dictionary *)

Abbreviation State := (gmap string value).

(** [state.get(key, default)] and [state.get(key)]. *)
Definition state_get (s : State) (key : string) (dflt : value) : value :=
  default dflt (s !! key).

Definition state_get_none (s : State) (key : string) : value :=
  state_get s key VNone.

(** [{**state, **partial}]: the keys of [partial] overwrite, the others stay. *)
Definition merge (state partial : State) : State := partial ∪ state.

(** [state.get("config") or PlannerConfig()] *)
Definition config_value (s : State) : value :=
  let c := state_get_none s "config" in
  if truthy c then c else VConfig PlannerConfig_default.

(** [Send(node, arg)] of langgraph.types: a branch target and its payload. *)
Record Send := { send_node : string; send_arg : State }.

(** ** Graphs: nodes, edges, routers

    The graph builder and the executor come from the langgraph package,
    which is not part of this repository; graph.py only calls them. *)

Inductive target :=
| Node (name : string)
| END.

#[global] Instance target_eq_dec : EqDecision target.
Proof. solve_decision. Defined.

(** The outgoing definition of a source node: [add_edge(source, target)],
    [add_conditional_edges(source, router, {label: target})], or
    [add_conditional_edges(source, router, [targets])] whose router returns
    a list of [Send]. *)
Inductive edge :=
| Edge (t : target)
| ConditionalEdges (router : State → option string) (path_map : list (string * target))
| FanOutEdges (router : State → list Send) (targets : list string).

(** The builder, in registration order.  [error_route] is the designated
    error path of the spec's executor (section 4.5); [compile(name, debug)]
    as graph.py calls it declares none. *)
Record StateGraph := {
  graph_nodes : list (string * (State → option State));
  graph_entry : target;
  graph_edges : list (string * edge);
  error_route : option string
}.

Fixpoint assoc {A : Type} (key : string) (l : list (string * A)) : option A :=
  match l with
  | [] => None
  | (k, a) :: l' => if String.eqb key k then Some a else assoc key l'
  end.

Definition registered (g : StateGraph) (name : string) : bool :=
  bool_decide (name ∈ (graph_nodes g).*1).

(** ** Compilation *)

(** Modelled from the spec: the structural errors of section 7, langgraph's
    [compile] being outside the repository. *)
Inductive problem :=
| DuplicateNode (name : string)
| UnknownEntry (name : string)
| UnknownTarget (source name : string)
| AmbiguousRouting (source : string).

#[global] Instance problem_eq_dec : EqDecision problem.
Proof. solve_decision. Defined.

(** Modelled from the spec: the error [compile] fails with (section 4.4). *)
Inductive GraphValidationError := GraphValidation (problems : list problem).

(** The node names an edge definition can lead to. *)
Definition edge_targets (e : edge) : list target :=
  match e with
  | Edge t => [t]
  | ConditionalEdges _ path_map => path_map.*2
  | FanOutEdges _ targets => Node <$> targets
  end.

Definition target_problem (g : StateGraph) (source : string) (t : target) : list problem :=
  match t with
  | Node name => if registered g name then [] else [UnknownTarget source name]
  | END => []
  end.

(** The names that occur again later in the list, each reported where it
    is repeated. *)
Fixpoint repeated (seen : list string) (names : list string) : list string :=
  match names with
  | [] => []
  | n :: names' =>
      (if bool_decide (n ∈ seen) then [n] else []) ++ repeated (n :: seen) names'
  end.

(** Modelled from the spec: the compiler's validation (sections 4.2 to 4.4),
    langgraph's own [compile] being outside the repository.  Every
    structural problem is collected: a node name registered twice, an
    unregistered entry, an edge or label target that is neither registered
    nor the terminal marker, and a source with more than one outgoing
    definition. *)
Definition validate (g : StateGraph) : list problem :=
  (DuplicateNode <$> repeated [] (graph_nodes g).*1)
  ++ match graph_entry g with
     | Node name => if registered g name then [] else [UnknownEntry name]
     | END => []
     end
  ++ (graph_edges g ≫= λ '(source, e), edge_targets e ≫= target_problem g source)
  ++ (AmbiguousRouting <$> repeated [] (graph_edges g).*1).

(** Modelled from the spec: [compile] of section 4.4, which fails with every
    problem found and otherwise hands the graph to the executor. *)
Definition compile (g : StateGraph) : GraphValidationError + StateGraph :=
  match validate g with
  | [] => inr g
  | problems => inl (GraphValidation problems)
  end.

(** ** The executor *)

(** Modelled from the spec: the fatal run-time errors of section 7,
    langgraph's executor being outside the repository. *)
Inductive run_error :=
| IterationLimitExceeded
| RoutingError (source : string).

(** Modelled from the spec: the terminal states of section 4.5. *)
Inductive terminal := Terminated_success | Terminated_error.

(** Modelled from the spec: a run either returns a state tagged with the
    terminal state reached, or fails as a call (sections 4.5 and 7). *)
Inductive outcome :=
| Returned (tag : terminal) (s : State)
| Failed (e : run_error).

(** One entry per node invocation: the node and the state after its update
    was merged. *)
Definition event : Type := string * State.

Definition errors_of (s : State) : list value :=
  default [] (as_list (state_get s "errors" (VList []))).

(** Modelled from the spec: the partial update [{"errors": [...]}] that
    records a failure (section 4.5, steps b and d); the record is appended
    to the errors already there.  The spec does not fix the record's text. *)
Definition error_update (s : State) (what : string) : State :=
  {[ "errors" := VList (errors_of s ++ [VStr what]) ]}.

(** Modelled from the spec: invoking a node function (section 4.5, step b);
    a fault becomes an [errors] update instead of propagating. *)
Definition call_node (f : State → option State) (name : string) (s : State) : State :=
  match f s with
  | Some partial => partial
  | None => error_update s ("node fault: " +:+ name)
  end.

(** Modelled from the spec: one fan-out branch (section 4.5, step d), run on
    the state with the payload laid over it. *)
Definition run_branch (g : StateGraph) (s : State) (b : Send) : option State :=
  f ← assoc (send_node b) (graph_nodes g);
  Some (call_node f (send_node b) (merge s (send_arg b))).

(** Modelled from the spec: the fan-out dispatcher (sections 4.5 and 4.6).
    Every branch runs against the state at the fan-out; the outputs are
    merged in router-list order, so a later branch wins on a key conflict. *)
Fixpoint fan_out (g : StateGraph) (s acc : State) (sends : list Send)
  : option (list event * State) :=
  match sends with
  | [] => Some ([], acc)
  | b :: sends' =>
      partial ← run_branch g s b;
      let acc' := merge acc partial in
      '(evs, final) ← fan_out g s acc' sends';
      Some ((send_node b, acc') :: evs, final)
  end.

Definition leads_to (g : StateGraph) (t : target) (b : Send) : bool :=
  match assoc (send_node b) (graph_edges g) with
  | Some (Edge t') => bool_decide (t' = t)
  | _ => false
  end.

(** Modelled from the spec: the join node of a fan-out (section 4.5), the
    node every dispatched branch has its unconditional edge to. *)
Definition join_of (g : StateGraph) (sends : list Send) : option target :=
  match sends with
  | [] => None
  | b :: sends' =>
      match assoc (send_node b) (graph_edges g) with
      | Some (Edge t) => if forallb (leads_to g t) sends' then Some t else None
      | _ => None
      end
  end.

(** Modelled from the spec: resolving the outgoing definition of [name] on
    the merged state (section 4.5, step d).  A label outside the path map,
    a faulting router, or a [Send] to a node outside the declared targets
    leaves the node unroutable. *)
Definition route (g : StateGraph) (name : string) (s : State)
  : option (list event * target * State) :=
  e ← assoc name (graph_edges g);
  match e with
  | Edge t => Some ([], t, s)
  | ConditionalEdges router path_map =>
      label ← router s;
      t ← assoc label path_map;
      Some ([], t, s)
  | FanOutEdges router targets =>
      let sends := router s in
      if forallb (λ b, bool_decide (send_node b ∈ targets)) sends
      then '(evs, s') ← fan_out g s s sends;
           t ← join_of g sends;
           Some (evs, t, s')
      else None
  end.

Inductive step_result :=
| Next (evs : list event) (t : target) (s : State)
| Stop (evs : list event) (o : outcome).

(** Modelled from the spec: a routing failure is recorded and sent to the
    declared error route; without one the run fails (sections 4.5 and 7). *)
Definition unroutable (g : StateGraph) (name : string) (evs : list event) (s : State)
  : step_result :=
  match error_route g with
  | Some handler =>
      Next evs (Node handler) (merge s (error_update s ("RoutingError: " +:+ name)))
  | None => Stop evs (Failed (RoutingError name))
  end.

(** Modelled from the spec: one pass of the loop of section 4.5, steps b
    to d. *)
Definition step (g : StateGraph) (name : string) (s : State) : step_result :=
  match assoc name (graph_nodes g) with
  | None => unroutable g name [] s
  | Some f =>
      let s1 := merge s (call_node f name s) in
      match route g name s1 with
      | Some (evs, t, s2) => Next ((name, s1) :: evs) t s2
      | None => unroutable g name [(name, s1)] s1
      end
  end.

(** Modelled from the spec: the iteration ceiling is used up (section 4.5,
    step a).  The run fails, or, when an error route is declared, records
    the failure, invokes the error node once and returns its state. *)
Definition limit_exceeded (g : StateGraph) (s : State) : list event * outcome :=
  match error_route g with
  | None => ([], Failed IterationLimitExceeded)
  | Some handler =>
      let s1 := merge s (error_update s "IterationLimitExceeded") in
      match assoc handler (graph_nodes g) with
      | Some f =>
          let s2 := merge s1 (call_node f handler s1) in
          ([(handler, s2)], Returned Terminated_error s2)
      | None => ([], Returned Terminated_error s1)
      end
  end.

(** Modelled from the spec: the executor loop of section 4.5, langgraph's
    own executor being outside the repository.  From [current] the loop
    invokes the node, turns a fault into an [errors] update, merges the
    update, and resolves the outgoing edge; a routing failure goes to the
    declared error route, and fails the run when there is none.  [limit]
    is the iteration ceiling: the number of loop passes a run may take.
    When it is used up the run fails, or, with an error route declared,
    invokes the error node once and returns its state. *)
Fixpoint run (g : StateGraph) (limit : nat) (current : target) (s : State)
  : list event * outcome :=
  match current with
  | END => ([], Returned Terminated_success s)
  | Node name =>
      match limit with
      | O => limit_exceeded g s
      | S limit' =>
          match step g name s with
          | Next evs t s' =>
              let '(evs', o) := run g limit' t s' in (evs ++ evs', o)
          | Stop evs o => (evs, o)
          end
      end
  end.

(** [graph.invoke(initial_state)], with the executor's iteration ceiling made
    explicit. *)
Definition invoke (g : StateGraph) (limit : nat) (initial_state : State)
  : list event * outcome :=
  run g limit (graph_entry g) initial_state.

(** The nodes a run invoked, in order, and the states it went through. *)
Definition visited (r : list event * outcome) : list string := r.1.*1.
Definition history (r : list event * outcome) : list State := r.1.*2.

(** [get_execution_trace(result)]: the trace, paired with the dictionary as
    the call leaves it. *)
Definition get_execution_trace (result : State) : option (list string * State) :=
  notes ← as_list (state_get result "processing_notes" (VList []));
  let phases := [] in
  current_phase ← py_str (state_get result "current_phase" (VStr "unknown"));
  let phases := phases ++ [ "最終階段: " +:+ current_phase ] in
  phases ← foldl (λ acc note, phases ← acc; n ← py_str note; Some (phases ++ [ "- " +:+ n ]))
             (Some phases) notes;
  Some (phases, result).

(** ** What graph.py imports

    state.py and nodes.py are not among the sources.  The functions graph.py
    takes from them are the fields of this class: the two state helpers,
    each returning a partial update, [create_initial_state], the six domain
    nodes and the two routers of the standard graph.  [format_1f] is
    Python's [format(x, ".1f")]. *)
Class Imports := {
  format_1f : float → string;
  update_state_metadata : State → string → State;
  add_processing_note : State → string → State;
  create_initial_state : string → option PlannerConfig → State;
  analyze_goal : State → option State;
  breakdown_tasks : State → option State;
  evaluate_tasks : State → option State;
  create_plan : State → option State;
  get_feedback : State → option State;
  refine_plan : State → option State;
  should_get_feedback : State → option string;
  should_refine_plan : State → option string
}.

Section Planner.
Context `{Imports}.

(** ** Helper nodes of graph.py

    A node maps the state to a partial update; [None] is a fault. *)

Definition _finalize_plan (state : State) : option State :=
  let execution_plan := state_get_none state "execution_plan" in
  let iteration_count := state_get state "iteration_count" (VInt 0) in
  ic ← py_str iteration_count;
  n ← py_len (state_get state "subtasks" (VList []));
  let final_notes :=
    [ "計劃最終化完成";
      "總共進行了 " +:+ ic +:+ " 次迭代";
      "最終計劃包含 " +:+ pretty n +:+ " 個任務" ] in
  final_notes ←
    (if truthy execution_plan
     then p ← as_plan execution_plan;
          Some (final_notes ++
                [ "預估總時間：" +:+ format_1f (estimated_total_hours p) +:+ " 小時" ])
     else Some final_notes);
  notes ← as_list (state_get state "processing_notes" (VList []));
  Some (<["is_plan_approved" := VBool true]>
        (<["processing_notes" := VList (notes ++ (VStr <$> final_notes))]>
         (update_state_metadata state "completed"))).

Definition _handle_errors (state : State) : option State :=
  let errors := state_get state "errors" (VList []) in
  n ← py_len errors;
  let error_summary := "處理了 " +:+ pretty n +:+ " 個錯誤" in
  notes ← as_list (state_get state "processing_notes" (VList []));
  Some (<["processing_notes" :=
            VList (notes ++ [VStr error_summary; VStr "錯誤處理完成，流程終止"])]>
        (update_state_metadata state "error_handled")).

Definition _monitor_state (state : State) : option State :=
  let iteration_count := state_get state "iteration_count" (VInt 0) in
  let config := config_value state in
  ic ← py_str iteration_count;
  c ← as_config config;
  let monitoring_notes :=
    [ "狀態監控：第 " +:+ ic +:+ " 次迭代";
      "最大允許迭代：" +:+ pretty (max_iterations c) ] in
  i ← as_int iteration_count;
  let monitoring_notes :=
    if max_iterations c <=? i
    then monitoring_notes ++ [ "達到最大迭代次數，準備強制結束" ]
    else monitoring_notes in
  notes ← as_list (state_get state "processing_notes" (VList []));
  Some (<["processing_notes" := VList (notes ++ (VStr <$> monitoring_notes))]>
        (update_state_metadata state "monitored")).

Definition _parallel_analysis (state : State) : option State :=
  let subtasks := state_get state "subtasks" (VList []) in
  n ← py_len subtasks;
  let parallel_note := "準備對 " +:+ pretty n +:+ " 個任務進行並行分析" in
  Some (<["current_phase" := VStr "parallel_analysis"]>
        (add_processing_note state parallel_note)).

Definition _assess_risks (state : State) : option State :=
  let risks := [ "時間風險"; "技能風險"; "資源風險" ] in
  Some (<["identified_risks" := VList (VStr <$> risks)]>
        (add_processing_note state
           ("完成風險評估，識別 " +:+ pretty (length risks) +:+ " 類風險"))).

Definition _check_resources (state : State) : option State :=
  let resources := [ "時間資源"; "學習資源"; "工具資源" ] in
  Some (<["available_resources" := VList (VStr <$> resources)]>
        (add_processing_note state
           ("完成資源檢查，評估 " +:+ pretty (length resources) +:+ " 類資源"))).

(** ** Routers of graph.py

    A router maps the state to a label; [None] is a fault. *)

Definition _should_do_parallel_analysis (state : State) : option string :=
  let subtasks := state_get state "subtasks" (VList []) in
  n ← py_len subtasks;
  if 5 <? n then Some "parallel" else Some "sequential".

Definition _distribute_parallel_tasks (state : State) : list Send :=
  [ {| send_node := "risk_assessment";
       send_arg := {[ "task_type" := VStr "risk" ]} |};
    {| send_node := "resource_check";
       send_arg := {[ "task_type" := VStr "resource" ]} |} ].

Definition _advanced_feedback_logic (state : State) : option string :=
  config ← as_config (config_value state);
  let task_analysis := state_get_none state "task_analysis" in
  simple ←
    (if auto_approve_simple_plans config && truthy task_analysis
     then a ← as_analysis task_analysis;
          Some (PrimFloat.ltb (complexity_score a) 5.0%float)
     else Some false);
  if simple : bool then Some "auto_approve"
  else
    hard ←
      (if truthy task_analysis
       then a ← as_analysis task_analysis;
            Some (PrimFloat.ltb 8.0%float (complexity_score a))
       else Some false);
    if hard : bool then Some "need_revision" else Some "get_feedback".

Definition _advanced_refinement_logic (state : State) : option string :=
  let feedback := state_get_none state "feedback" in
  if negb (truthy feedback) then Some "finalize"
  else
    f ← as_feedback feedback;
    if py_in "重新設計" (comments f) || (rating f <? 2) then Some "restart"
    else if approval_status f then Some "finalize"
    else Some "refine".

Definition _check_iteration_limit (state : State) : option string :=
  let iteration_count := state_get state "iteration_count" (VInt 0) in
  let config := config_value state in
  let errors := state_get state "errors" (VList []) in
  if truthy errors then Some "error"
  else
    i ← as_int iteration_count;
    c ← as_config config;
    if max_iterations c <=? i then Some "force_finalize" else Some "continue".

Definition _error_recovery_logic (state : State) : option string :=
  let errors := state_get state "errors" (VList []) in
  let iteration_count := state_get state "iteration_count" (VInt 0) in
  n ← py_len errors;
  retry ← (if n <? 3 then i ← as_int iteration_count; Some (i <? 2) else Some false);
  if retry : bool then Some "retry"
  else
    let execution_plan := state_get_none state "execution_plan" in
    if truthy execution_plan then Some "partial_recovery" else Some "terminate".

(** ** The graphs graph.py builds *)

(** The builder of [create_planner_graph] when it reaches [compile]. *)
Definition planner_builder : StateGraph :=
  {| graph_nodes :=
       [ ("analyze_goal", analyze_goal);
         ("breakdown_tasks", breakdown_tasks);
         ("evaluate_tasks", evaluate_tasks);
         ("create_plan", create_plan);
         ("get_feedback", get_feedback);
         ("refine_plan", refine_plan);
         ("finalize", _finalize_plan);
         ("error_handler", _handle_errors) ];
     graph_entry := Node "analyze_goal";
     graph_edges :=
       [ ("analyze_goal", Edge (Node "breakdown_tasks"));
         ("breakdown_tasks", Edge (Node "evaluate_tasks"));
         ("evaluate_tasks", Edge (Node "create_plan"));
         ("create_plan",
          ConditionalEdges should_get_feedback
            [ ("get_feedback", Node "get_feedback");
              ("finalize", Node "finalize") ]);
         ("get_feedback",
          ConditionalEdges should_refine_plan
            [ ("refine_plan", Node "refine_plan");
              ("finalize", Node "finalize") ]);
         ("refine_plan",
          ConditionalEdges should_refine_plan
            [ ("refine_plan", Node "get_feedback");
              ("finalize", Node "finalize") ]);
         ("finalize", Edge END);
         ("error_handler", Edge END) ];
     error_route := None |}.

Definition create_planner_graph : GraphValidationError + StateGraph :=
  compile planner_builder.

Definition simple_planner_builder : StateGraph :=
  {| graph_nodes :=
       [ ("analyze_goal", analyze_goal);
         ("breakdown_tasks", breakdown_tasks);
         ("evaluate_tasks", evaluate_tasks);
         ("create_plan", create_plan);
         ("finalize", _finalize_plan) ];
     graph_entry := Node "analyze_goal";
     graph_edges :=
       [ ("analyze_goal", Edge (Node "breakdown_tasks"));
         ("breakdown_tasks", Edge (Node "evaluate_tasks"));
         ("evaluate_tasks", Edge (Node "create_plan"));
         ("create_plan", Edge (Node "finalize"));
         ("finalize", Edge END) ];
     error_route := None |}.

Definition create_simple_planner_graph : GraphValidationError + StateGraph :=
  compile simple_planner_builder.

Definition advanced_planner_builder : StateGraph :=
  {| graph_nodes :=
       [ ("analyze_goal", analyze_goal);
         ("breakdown_tasks", breakdown_tasks);
         ("evaluate_tasks", evaluate_tasks);
         ("create_plan", create_plan);
         ("get_feedback", get_feedback);
         ("refine_plan", refine_plan);
         ("finalize", _finalize_plan);
         ("error_handler", _handle_errors);
         ("state_monitor", _monitor_state);
         ("parallel_analysis", _parallel_analysis);
         ("risk_assessment", _assess_risks);
         ("resource_check", _check_resources) ];
     graph_entry := Node "analyze_goal";
     graph_edges :=
       [ ("analyze_goal", Edge (Node "breakdown_tasks"));
         ("breakdown_tasks",
          ConditionalEdges _should_do_parallel_analysis
            [ ("parallel", Node "parallel_analysis");
              ("sequential", Node "evaluate_tasks") ]);
         ("parallel_analysis",
          FanOutEdges _distribute_parallel_tasks
            [ "risk_assessment"; "resource_check" ]);
         ("risk_assessment", Edge (Node "evaluate_tasks"));
         ("resource_check", Edge (Node "evaluate_tasks"));
         ("evaluate_tasks", Edge (Node "create_plan"));
         ("create_plan",
          ConditionalEdges _advanced_feedback_logic
            [ ("auto_approve", Node "finalize");
              ("get_feedback", Node "get_feedback");
              ("need_revision", Node "refine_plan") ]);
         ("get_feedback",
          ConditionalEdges _advanced_refinement_logic
            [ ("refine", Node "refine_plan");
              ("finalize", Node "finalize");
              ("restart", Node "breakdown_tasks") ]);
         ("refine_plan", Edge (Node "state_monitor"));
         ("state_monitor",
          ConditionalEdges _check_iteration_limit
            [ ("continue", Node "get_feedback");
              ("force_finalize", Node "finalize");
              ("error", Node "error_handler") ]);
         ("error_handler",
          ConditionalEdges _error_recovery_logic
            [ ("retry", Node "analyze_goal");
              ("partial_recovery", Node "create_plan");
              ("terminate", END) ]);
         ("finalize", Edge END) ];
     error_route := None |}.

Definition create_advanced_planner_graph : GraphValidationError + StateGraph :=
  compile advanced_planner_builder.

(** ** Running and tracing *)

Definition run_planner (limit : nat) (user_goal : string) (config : option PlannerConfig)
  : option (list event * outcome) :=
  match create_planner_graph with
  | inr graph => Some (invoke graph limit (create_initial_state user_goal config))
  | inl _ => None
  end.

Definition run_simple_planner (limit : nat) (user_goal : string)
  : option (list event * outcome) :=
  match create_simple_planner_graph with
  | inr graph => Some (invoke graph limit (create_initial_state user_goal None))
  | inl _ => None
  end.

Definition run_advanced_planner (limit : nat) (user_goal : string) (config : PlannerConfig)
  : option (list event * outcome) :=
  match create_advanced_planner_graph with
  | inr graph => Some (invoke graph limit (create_initial_state user_goal (Some config)))
  | inl _ => None
  end.

End Planner.


(** ** The typing of PlannerState *)

Definition is_int (v : value) : bool :=
  match v with VInt _ => true | _ => false end.
Definition is_str (v : value) : bool :=
  match v with VStr _ => true | _ => false end.
Definition is_list (v : value) : bool :=
  match v with VList _ => true | _ => false end.
Definition is_str_list (v : value) : bool :=
  match v with VList l => forallb is_str l | _ => false end.
Definition is_opt_config (v : value) : bool :=
  match v with VNone | VConfig _ => true | _ => false end.
Definition is_opt_analysis (v : value) : bool :=
  match v with VNone | VAnalysis _ => true | _ => false end.
Definition is_opt_plan (v : value) : bool :=
  match v with VNone | VPlan _ => true | _ => false end.
Definition is_opt_feedback (v : value) : bool :=
  match v with VNone | VFeedback _ => true | _ => false end.

Definition field_has (ok : value → bool) (s : State) (key : string) : bool :=
  match s !! key with Some v => ok v | None => true end.

(** Modelled from the spec: the PlannerState typed dictionary of state.py,
    which is not among the sources.  The spec (section 3) leaves every field
    optional; the types of the fields graph.py reads are the ones
    tests/conftest.py asserts of a valid state and constructs. *)
Definition well_typed (s : State) : bool :=
  field_has is_int s "iteration_count"
  && field_has is_str s "current_phase"
  && field_has is_str_list s "processing_notes"
  && field_has is_list s "errors"
  && field_has is_list s "subtasks"
  && field_has is_opt_config s "config"
  && field_has is_opt_analysis s "task_analysis"
  && field_has is_opt_plan s "execution_plan"
  && field_has is_opt_feedback s "feedback".

(** [state.get("iteration_count", 0)] as a number. *)
Definition iteration_count_of (s : State) : Z :=
  default 0 (as_int (state_get s "iteration_count" (VInt 0))).

(** [(state.get("config") or PlannerConfig()).max_iterations] *)
Definition max_iterations_of (s : State) : Z :=
  max_iterations (default PlannerConfig_default (as_config (config_value s))).

(** The router registered at [source] answers [s] with one of [labels], and
    the path map it was registered with sends that label somewhere. *)
Definition routes_within (g : StateGraph) (source : string)
    (router : State → option string) (labels : list string) (s : State) : Prop :=
  ∃ path_map label t,
    assoc source (graph_edges g) = Some (ConditionalEdges router path_map)
    ∧ router s = Some label
    ∧ label ∈ labels
    ∧ assoc label path_map = Some t.

(** What counts as a structural defect of a builder, stated without
    reference to how [validate] looks for it. *)
Definition occurs_twice (names : list string) (n : string) : Prop :=
  ∃ i j, (i < j)%nat ∧ names !! i = Some n ∧ names !! j = Some n.

Inductive defect (g : StateGraph) : problem → Prop :=
| defect_duplicate name :
    occurs_twice (graph_nodes g).*1 name → defect g (DuplicateNode name)
| defect_entry name :
    graph_entry g = Node name → name ∉ (graph_nodes g).*1 →
    defect g (UnknownEntry name)
| defect_target source e name :
    (source, e) ∈ graph_edges g → Node name ∈ edge_targets e →
    name ∉ (graph_nodes g).*1 →
    defect g (UnknownTarget source name)
| defect_ambiguous source :
    occurs_twice (graph_edges g).*1 source → defect g (AmbiguousRouting source).

(** Consecutive states of a run, from [s] on, are related by [R]. *)
Fixpoint chain (R : relation State) (s : State) (l : list State) : Prop :=
  match l with
  | [] => True
  | s' :: l' => R s s' ∧ chain R s' l'
  end.

(** The order of states by their iteration count. *)
Definition count_le (s s' : State) : Prop :=
  iteration_count_of s ≤ iteration_count_of s'.

(** A node whose merged update never lowers the iteration count. *)
Definition count_nondecreasing (f : State → option State) : Prop :=
  ∀ name s, count_le s (merge s (call_node f name s)).

(** The order of states by the errors they record. *)
Definition errors_le (s s' : State) : Prop := errors_of s ⊆ errors_of s'.

(** A node that reads the recorded errors and appends to them, if it
    touches them at all. *)
Definition extends_errors (f : State → option State) : Prop :=
  ∀ name s, errors_le s (merge s (call_node f name s)).

(** One hop of the graph when the conditional edge at [source] always
    resolves to [chosen]: the targets of any other node's outgoing
    definition, [chosen] from [source], and the declared error route from
    anywhere. *)
Inductive follows (g : StateGraph) (source : string) (chosen : target)
  : target → target → Prop :=
| follows_edge name e t :
    name ≠ source →
    assoc name (graph_edges g) = Some e →
    t ∈ edge_targets e →
    follows g source chosen (Node name) t
| follows_chosen :
    follows g source chosen (Node source) chosen
| follows_error name handler :
    error_route g = Some handler →
    follows g source chosen (Node name) (Node handler).

(** What bounds the feedback loop of the standard graph: a node that leaves
    the iteration count and the configured ceiling as they are, a node that
    counts one iteration, and a router that sends on to [finalize] once the
    count has reached the ceiling. *)
Definition keeps_count_and_ceiling (f : State → option State) : Prop :=
  ∀ name s,
    iteration_count_of (merge s (call_node f name s)) = iteration_count_of s
    ∧ max_iterations_of (merge s (call_node f name s)) = max_iterations_of s.

Definition counts_one_iteration (f : State → option State) : Prop :=
  ∀ name s,
    iteration_count_of (merge s (call_node f name s)) = iteration_count_of s + 1
    ∧ max_iterations_of (merge s (call_node f name s)) = max_iterations_of s.

Definition honours_ceiling (router : State → option string) : Prop :=
  (∀ s, router s = Some "refine_plan" ∨ router s = Some "finalize")
  ∧ (∀ s, max_iterations_of s ≤ iteration_count_of s → router s = Some "finalize").

(** ** An instance of the imports

    Stand-ins for the functions of state.py and nodes.py, small enough to
    run the graphs on concrete states: the metadata helper stamps the phase,
    the note helper appends to the notes, goal analysis faults on an empty
    goal, refine_plan counts one iteration, and the two routers of the
    standard graph are left open. *)

Definition stand_in_metadata (s : State) (phase : string) : State :=
  <[ "last_updated" := VStr "2024-01-01T09:00:00" ]> {[ "current_phase" := VStr phase ]}.

Definition stand_in_note (s : State) (note : string) : State :=
  {[ "processing_notes" :=
       VList (default [] (as_list (state_get s "processing_notes" (VList [])))
              ++ [VStr note]) ]}.

Definition stand_in_initial_state (user_goal : string) (config : option PlannerConfig)
  : State :=
  list_to_map
    [ ("user_goal", VStr user_goal);
      ("subtasks", VList []);
      ("task_analysis", VNone);
      ("execution_plan", VNone);
      ("feedback", VNone);
      ("iteration_count", VInt 0);
      ("is_plan_approved", VBool false);
      ("current_phase", VStr "initialized");
      ("processing_notes", VList []);
      ("errors", VList []);
      ("session_id", VStr "session");
      ("config", from_option VConfig VNone config) ].

Definition stand_in_analyze_goal (s : State) : option State :=
  if truthy (state_get s "user_goal" (VStr ""))
  then Some (stand_in_metadata s "goal_analysis_complete")
  else None.

Definition stand_in_node (phase : string) (s : State) : option State :=
  Some (stand_in_metadata s phase).

Definition stand_in_refine_plan (s : State) : option State :=
  Some (<[ "iteration_count" := VInt (iteration_count_of s + 1) ]>
          (stand_in_metadata s "plan_refined")).

Definition stand_in (feedback_router refine_router : State → option string) : Imports :=
  {| format_1f := λ _, "0.0";
     update_state_metadata := stand_in_metadata;
     add_processing_note := stand_in_note;
     create_initial_state := stand_in_initial_state;
     analyze_goal := stand_in_analyze_goal;
     breakdown_tasks := stand_in_node "task_breakdown_complete";
     evaluate_tasks := stand_in_node "task_evaluation_complete";
     create_plan := stand_in_node "plan_creation_complete";
     get_feedback := stand_in_node "feedback_collected";
     refine_plan := stand_in_refine_plan;
     should_get_feedback := feedback_router;
     should_refine_plan := refine_router |}.

(** Routers for the stand-in: one label whatever the state, and a refinement
    router that goes on refining until the count reaches [n]. *)
Definition always (label : string) (s : State) : option string := Some label.

Definition refine_until (n : State → Z) (s : State) : option string :=
  if n s <=? iteration_count_of s then Some "finalize" else Some "refine_plan".

(** A builder with two defects: the name "a" is registered twice, and the
    edge from "a" leads to "ghost", which is not registered. *)
Definition two_defects_builder : StateGraph :=
  {| graph_nodes := [ ("a", stand_in_node "first"); ("a", stand_in_node "second") ];
     graph_entry := Node "a";
     graph_edges := [ ("a", Edge (Node "ghost")) ];
     error_route := None |}.

(** A final state with two notes. *)
Definition two_notes_result : State :=
  list_to_map
    [ ("current_phase", VStr "completed");
      ("processing_notes", VList [ VStr "成功分析目標"; VStr "計劃最終化完成" ]) ].

(** A graph whose nodes append to the recorded errors if they touch them,
    and whose fan-out branches never replace what an earlier branch
    recorded. *)
Definition nodes_extend_errors (g : StateGraph) : Prop :=
  (∀ name f, assoc name (graph_nodes g) = Some f → extends_errors f)
  ∧ (∀ source router targets name f s acc,
       assoc source (graph_edges g) = Some (FanOutEdges router targets) →
       name ∈ targets →
       assoc name (graph_nodes g) = Some f →
       errors_le acc (merge acc (call_node f name s))).

(** ** Hops, and the restart cycle of the advanced graph *)

(** One hop of a graph: from a node to a target of its outgoing definition,
    or to the declared error route. *)
Inductive edge_hop (g : StateGraph) : target → target → Prop :=
| edge_hop_edge name e t :
    assoc name (graph_edges g) = Some e →
    t ∈ edge_targets e →
    edge_hop g (Node name) t
| edge_hop_error name handler :
    error_route g = Some handler →
    edge_hop g (Node name) (Node handler).

(** A state that the routers of the advanced graph send around the cycle
    get_feedback, breakdown_tasks, evaluate_tasks, create_plan: the feedback
    asks for a restart, the task list needs no parallel analysis, and the
    plan goes out for feedback. *)
Definition restarting (s : State) : Prop :=
  _advanced_refinement_logic s = Some "restart"
  ∧ _should_do_parallel_analysis s = Some "sequential"
  ∧ _advanced_feedback_logic s = Some "get_feedback".

Definition keeps_restarting (f : State → option State) : Prop :=
  ∀ name s, restarting s → restarting (merge s (call_node f name s)).

(** ** Text output

    A text of several lines, and standard output as the list of the strings
    printed, one per call of [print]. *)

(** The line feed, character 10. *)
Definition newline : string :=
  String (Ascii.Ascii false true false true false false false false) "".

Definition py_lines (lines : list string) : string := String.concat newline lines.

(** [s * n] on strings. *)
Definition py_repeat (s : string) (n : nat) : string := String.concat "" (replicate n s).

(** [l[-n:]] on lists. *)
Definition py_last_n {A : Type} (n : nat) (l : list A) : list A := drop (length l - n) l.

Section Visualize.
Context `{Imports}.
(** [len(graph.nodes)] and [len(graph.edges)] read two attributes of
    langgraph's compiled graph, which is outside the repository; [None] is
    the [AttributeError] of a compiled graph without the attribute. *)
Context (len_nodes len_edges : StateGraph → option Z).

(** The graph [visualize_graph] describes. *)
Definition graph_of_type (graph_type : string) : GraphValidationError + StateGraph :=
  if String.eqb graph_type "simple" then create_simple_planner_graph
  else if String.eqb graph_type "advanced" then create_advanced_planner_graph
  else create_planner_graph.

(** The lines of the text [visualize_graph] returns, given the two
    lengths. *)
Definition visualize_lines (graph_type : string) (nodes edges : Z) : list string :=
  [ "";
    "LangGraph 結構 (" +:+ graph_type +:+ "):";
    "- 節點數量: " +:+ pretty nodes;
    "- 邊數量: " +:+ pretty edges;
    "- 入口點: START";
    "- 出口點: END";
    "- 支持並行: " +:+ (if String.eqb graph_type "advanced" then "是" else "否");
    "- 錯誤處理: " +:+ (if bool_decide (graph_type ∈ [ "standard"; "advanced" ])
                         then "完整" else "基本");
    "" ].

(** [visualize_graph(graph_type)]; [None] when the builder raises, or
    [graph.nodes] or [graph.edges], which the f-string reads in this
    order. *)
Definition visualize_graph (graph_type : string) : option string :=
  match graph_of_type graph_type with
  | inr graph =>
      nodes ← len_nodes graph;
      edges ← len_edges graph;
      Some (py_lines (visualize_lines graph_type nodes edges))
  | inl _ => None
  end.

End Visualize.

(** ** Printing the trace (main.py, examples/interactive_demo.py) *)

Definition print_section_header (title : string) : list string :=
  [ newline +:+ "📋 " +:+ title; py_repeat "-" 50 ].

(** [print_execution_trace(result)] of main.py; [None] when
    [get_execution_trace] faults. *)
Definition print_execution_trace (result : State) : option (list string) :=
  '(trace, result) ← get_execution_trace result;
  Some (print_section_header "LangGraph執行軌跡"
        ++ ((λ step, "   " +:+ step) <$> trace)
        ++ [ newline +:+ "🔄 這個軌跡展示了LangGraph節點的執行順序和狀態變化" ]).

(** [InteractiveDemo._show_execution_trace(result)] of
    examples/interactive_demo.py. *)
Definition _show_execution_trace (result : State) : option (list string) :=
  '(trace, result) ← get_execution_trace result;
  current_phase ← py_str (state_get result "current_phase" (VStr "unknown"));
  let notes := state_get result "processing_notes" (VList []) in
  shown ←
    (if truthy notes
     then l ← as_list notes;
          strs ← mapM py_str (py_last_n 5 l);
          Some ((newline +:+ "📝 處理筆記:") :: ((λ note, "   • " +:+ note) <$> strs))
     else Some []);
  Some ([ newline +:+ "🔍 LangGraph執行軌跡:" ]
        ++ ((λ step, "   " +:+ step) <$> trace)
        ++ [ newline +:+ "📍 最終階段: " +:+ current_phase ]
        ++ shown).

(** ** The manual run of examples/simple_demo.py *)

Section SimpleDemo.
Context `{Imports}.

(** [step_by_step_example()]: the state it builds by invoking the four
    domain nodes by hand, each update merged with [{**state, **update}];
    [None] when a node raises.  What it prints along the way is left
    out. *)
Definition step_by_step_example : option State :=
  let user_goal := "建立個人健身計劃" in
  let state := create_initial_state user_goal None in
  update ← analyze_goal state;
  let state := merge state update in
  update ← breakdown_tasks state;
  let state := merge state update in
  update ← evaluate_tasks state;
  let state := merge state update in
  update ← create_plan state;
  let state := merge state update in
  Some state.

End SimpleDemo.

(** ** The custom optimization node of examples/advanced_demo.py *)

(** Modelled from the spec: the difficulty levels of schemas.py, which is
    not among the sources; the four members are the ones
    tests/test_schemas.py enumerates. *)
Inductive TaskDifficulty := EASY | MEDIUM | HARD | EXPERT.

#[global] Instance TaskDifficulty_eq_dec : EqDecision TaskDifficulty.
Proof. solve_decision. Defined.

(** What the node uses of a task: its [id], [difficulty] and
    [prerequisites] attributes, and [==], by which [list.remove] finds it. *)
Class TaskModel (Task : Type) := {
  task_eq_dec :: EqDecision Task;
  task_id : Task → string;
  task_difficulty : Task → TaskDifficulty;
  task_prerequisites : Task → list string
}.

(** [l.sort(key=key)] then reading the list: Python's sort is stable, so
    among equal keys the earlier element stays first. *)
Fixpoint insert_by_key {A : Type} (key : A → Z) (x : A) (l : list A) : list A :=
  match l with
  | [] => [x]
  | y :: l' => if key y <? key x then y :: insert_by_key key x l' else x :: l
  end.

Definition sort_by_key {A : Type} (key : A → Z) (l : list A) : list A :=
  foldr (insert_by_key key) [] l.

(** [l.remove(x)]: the list without its first element equal to [x]; [None]
    is the [ValueError] raised when there is none. *)
Fixpoint py_remove {A : Type} `{EqDecision A} (x : A) (l : list A) : option (list A) :=
  match l with
  | [] => None
  | y :: l' => if decide (y = x) then Some l' else (y ::.) <$> py_remove x l'
  end.

Section CustomNodes.
Context {Task : Type} `{!TaskModel Task}.

(** The sort key of the node; the dictionary's default, 5, is for a
    difficulty outside the four members. *)
Definition difficulty_key (t : Task) : Z :=
  match task_difficulty t with
  | EASY => 1
  | MEDIUM => 2
  | HARD => 3
  | EXPERT => 4
  end.

Definition dependencies_met (optimized_tasks : list Task) (task : Task) : bool :=
  forallb (λ dep_id, bool_decide (dep_id ∈ task_id <$> optimized_tasks))
    (task_prerequisites task).

(** The [while remaining_tasks:] loop; [fuel] bounds the number of passes,
    and [None] stands for running out of it, for the [IndexError] of
    [ready_tasks[0]] and for the [ValueError] of [remove]. *)
Fixpoint optimize_loop (fuel : nat) (optimized_tasks remaining_tasks : list Task)
  : option (list Task) :=
  match remaining_tasks with
  | [] => Some optimized_tasks
  | first :: _ =>
      match fuel with
      | O => None
      | S fuel' =>
          let ready_tasks :=
            List.filter (dependencies_met optimized_tasks) remaining_tasks in
          let ready_tasks :=
            match ready_tasks with [] => [first] | _ => ready_tasks end in
          match sort_by_key difficulty_key ready_tasks with
          | [] => None
          | next_task :: _ =>
              remaining_tasks ← py_remove next_task remaining_tasks;
              optimize_loop fuel' (optimized_tasks ++ [next_task]) remaining_tasks
          end
      end
  end.

(** [custom_optimization_node(state)], as a function of the two fields it
    reads, [subtasks] and [processing_notes], to the two it writes. *)
Definition custom_optimization_node (subtasks : list Task) (processing_notes : list string)
  : option (list Task * list string) :=
  optimized_tasks ← optimize_loop (length subtasks) [] subtasks;
  Some (optimized_tasks, processing_notes ++ [ "完成任務順序優化" ]).

(** A list in which every task comes after the tasks it depends on, given
    the ids already [placed]. *)
Fixpoint dependency_ordered (placed : list string) (l : list Task) : Prop :=
  match l with
  | [] => True
  | t :: l' =>
      (∀ dep_id, dep_id ∈ task_prerequisites t → dep_id ∈ placed)
      ∧ dependency_ordered (placed ++ [task_id t]) l'
  end.

End CustomNodes.

(** Tasks as triples of id, difficulty and prerequisites, and three tasks
    listed against their dependencies. *)
Definition demo_task : Type := string * TaskDifficulty * list string.

#[global] Instance demo_task_model : TaskModel demo_task :=
  {| task_id := λ t, t.1.1;
     task_difficulty := λ t, t.1.2;
     task_prerequisites := λ t, t.2 |}.

Definition demo_tasks : list demo_task :=
  [ ("task_003", HARD, [ "task_002" ]);
    ("task_002", MEDIUM, [ "task_001" ]);
    ("task_001", EASY, []) ].

(** ** States for the routers and helper nodes *)

Definition six_subtasks_state : State :=
  <[ "subtasks" := VList (replicate 6 (VObj "Task")) ]>
    (stand_in_initial_state "學習Python編程" None).

(** An approving feedback that nevertheless rates the plan 1. *)
Definition low_rating_state : State :=
  <[ "feedback" := VFeedback {| rating := 1; comments := "可以"; approval_status := true |} ]>
    (stand_in_initial_state "學習Python編程" None).

Definition complex_plan_state : State :=
  <[ "task_analysis" := VAnalysis {| total_tasks := 3;
                                     complexity_score := 9.0%float;
                                     feasibility_score := 5.0%float |} ]>
    (stand_in_initial_state "學習Python編程" None).

(** A state at the ceiling: three iterations under the default
    max_iterations of 3. *)
Definition ceiling_state : State :=
  <[ "iteration_count" := VInt 3 ]> (stand_in_initial_state "學習Python編程" None).

(** A state that records two errors, and a state whose feedback asks for a
    restart after 99 iterations. *)
Definition error_state : State :=
  <[ "errors" := VList [ VStr "測試錯誤1"; VStr "測試錯誤2" ] ]>
    (stand_in_initial_state "學習Python編程" None).

Definition restart_state : State :=
  <[ "iteration_count" := VInt 99 ]> low_rating_state.

(** A configuration that differs from the default in everything but
    auto_approve_simple_plans. *)
Definition strict_config : PlannerConfig :=
  {| max_iterations := 9;
     auto_approve_simple_plans := true;
     complexity_threshold := 1.0%float;
     include_detailed_timeline := false |}.

(** Tasks without prerequisites, and tasks waiting for a task that is not
    there. *)
Definition demo_free_tasks : list demo_task :=
  [ ("task_b", HARD, []); ("task_a", EASY, []);
    ("task_c", HARD, []); ("task_d", MEDIUM, []) ].

Definition demo_blocked_tasks : list demo_task :=
  [ ("task_x", HARD, [ "task_0" ]); ("task_y", EASY, [ "task_0" ]) ].

(** ** The refinement loop of the advanced graph *)

(** A node that succeeds on every well-typed state and returns it well
    typed, with the iteration count raised by [bump] and the configured
    ceiling and the recorded errors as they were. *)
Definition keeps_typed_state (bump : Z) (f : State → option State) : Prop :=
  ∀ name s,
    well_typed s = true →
    well_typed (merge s (call_node f name s)) = true
    ∧ iteration_count_of (merge s (call_node f name s)) = iteration_count_of s + bump
    ∧ max_iterations_of (merge s (call_node f name s)) = max_iterations_of s
    ∧ errors_of (merge s (call_node f name s)) = errors_of s.

(** A stand-in for get_feedback that does write a feedback, one asking
    for a refinement: not approved, rated 3, and with no word of a
    redesign; and the imports with it in place. *)
Definition stand_in_get_feedback (s : State) : option State :=
  Some (<[ "feedback" := VFeedback {| rating := 3;
                                      comments := "需要調整";
                                      approval_status := false |} ]>
          (stand_in_metadata s "feedback_collected")).

Definition reviewing_stand_in : Imports :=
  {| format_1f := λ _, "0.0";
     update_state_metadata := stand_in_metadata;
     add_processing_note := stand_in_note;
     create_initial_state := stand_in_initial_state;
     analyze_goal := stand_in_analyze_goal;
     breakdown_tasks := stand_in_node "task_breakdown_complete";
     evaluate_tasks := stand_in_node "task_evaluation_complete";
     create_plan := stand_in_node "plan_creation_complete";
     get_feedback := stand_in_get_feedback;
     refine_plan := stand_in_refine_plan;
     should_get_feedback := always "get_feedback";
     should_refine_plan := refine_until max_iterations_of |}.

(** ** Fan-out branches that complete in any order *)

(** Modelled from the spec: the output of the branch at position [i] of the
    router's list, run against the state at the fan-out (section 4.5,
    step d), kept with its position. *)
Definition branch_output (g : StateGraph) (s : State) (sends : list Send) (i : nat)
  : option (nat * (string * State)) :=
  b ← sends !! i;
  partial ← run_branch g s b;
  Some (i, (send_node b, partial)).

(** Modelled from the spec: merging branch outputs one after the other
    (section 4.5, step d); a later output wins on a key conflict. *)
Fixpoint merge_outputs (acc : State) (outputs : list (string * State))
  : list event * State :=
  match outputs with
  | [] => ([], acc)
  | (name, partial) :: outputs' =>
      let acc' := merge acc partial in
      let '(evs, final) := merge_outputs acc' outputs' in
      ((name, acc') :: evs, final)
  end.

(** Modelled from the spec: the fan-out dispatcher when the branches run in
    parallel (sections 4.6 and 5).  [finished] lists the branches, by their
    position in the router's list, in the order in which they complete.
    The outputs are put back in router-list order before they are merged,
    so that the order of completion decides no key conflict. *)
Definition fan_out_parallel (g : StateGraph) (s : State) (sends : list Send)
    (finished : list nat) : option (list event * State) :=
  outputs ← mapM (branch_output g s sends) finished;
  Some (merge_outputs s (snd <$> sort_by_key (λ o, Z.of_nat o.1) outputs)).

(** Modelled from the spec: the merge that section 4.6 rules out, first to
    finish, with the outputs merged as the branches complete. *)
Definition fan_out_first_to_finish (g : StateGraph) (s : State) (sends : list Send)
    (finished : list nat) : option (list event * State) :=
  outputs ← mapM (branch_output g s sends) finished;
  Some (merge_outputs s (snd <$> outputs)).

(** ** Imports that write over the count or the errors

    Stand-ins that differ from the ones above in what they write: a
    refine_plan that starts the count again, state helpers that return an
    iteration_count key, a breakdown_tasks that starts the errors again,
    and a metadata helper that returns an errors key. *)

Definition resetting_refine_plan (s : State) : option State :=
  Some (<[ "iteration_count" := VInt 0 ]> (stand_in_metadata s "plan_refined")).

(** A refinement router that goes on refining while the count is not 0. *)
Definition refine_while_counting (s : State) : option string :=
  if iteration_count_of s =? 0 then Some "finalize" else Some "refine_plan".

Definition resetting_stand_in : Imports :=
  {| format_1f := λ _, "0.0";
     update_state_metadata := stand_in_metadata;
     add_processing_note := stand_in_note;
     create_initial_state := stand_in_initial_state;
     analyze_goal := stand_in_analyze_goal;
     breakdown_tasks := stand_in_node "task_breakdown_complete";
     evaluate_tasks := stand_in_node "task_evaluation_complete";
     create_plan := stand_in_node "plan_creation_complete";
     get_feedback := stand_in_node "feedback_collected";
     refine_plan := resetting_refine_plan;
     should_get_feedback := always "get_feedback";
     should_refine_plan := refine_while_counting |}.

Definition counting_metadata (s : State) (phase : string) : State :=
  <[ "iteration_count" := VInt 0 ]> (stand_in_metadata s phase).

Definition counting_note (s : State) (note : string) : State :=
  <[ "iteration_count" := VInt 0 ]> (stand_in_note s note).

Definition counting_stand_in : Imports :=
  {| format_1f := λ _, "0.0";
     update_state_metadata := counting_metadata;
     add_processing_note := counting_note;
     create_initial_state := stand_in_initial_state;
     analyze_goal := stand_in_analyze_goal;
     breakdown_tasks := stand_in_node "task_breakdown_complete";
     evaluate_tasks := stand_in_node "task_evaluation_complete";
     create_plan := stand_in_node "plan_creation_complete";
     get_feedback := stand_in_node "feedback_collected";
     refine_plan := stand_in_refine_plan;
     should_get_feedback := always "finalize";
     should_refine_plan := always "finalize" |}.

Definition forgetful_breakdown_tasks (s : State) : option State :=
  Some (<[ "errors" := VList [] ]> (stand_in_metadata s "task_breakdown_complete")).

Definition forgetful_stand_in : Imports :=
  {| format_1f := λ _, "0.0";
     update_state_metadata := stand_in_metadata;
     add_processing_note := stand_in_note;
     create_initial_state := stand_in_initial_state;
     analyze_goal := stand_in_analyze_goal;
     breakdown_tasks := forgetful_breakdown_tasks;
     evaluate_tasks := stand_in_node "task_evaluation_complete";
     create_plan := stand_in_node "plan_creation_complete";
     get_feedback := stand_in_node "feedback_collected";
     refine_plan := stand_in_refine_plan;
     should_get_feedback := always "finalize";
     should_refine_plan := always "finalize" |}.

Definition forgetful_metadata (s : State) (phase : string) : State :=
  <[ "errors" := VList [] ]> (stand_in_metadata s phase).

Definition forgetful_metadata_stand_in : Imports :=
  {| format_1f := λ _, "0.0";
     update_state_metadata := forgetful_metadata;
     add_processing_note := stand_in_note;
     create_initial_state := stand_in_initial_state;
     analyze_goal := stand_in_analyze_goal;
     breakdown_tasks := stand_in_node "task_breakdown_complete";
     evaluate_tasks := stand_in_node "task_evaluation_complete";
     create_plan := stand_in_node "plan_creation_complete";
     get_feedback := stand_in_node "feedback_collected";
     refine_plan := stand_in_refine_plan;
     should_get_feedback := always "finalize";
     should_refine_plan := always "finalize" |}.

(** A state that has been through two iterations. *)
Definition two_iterations_state : State :=
  <[ "iteration_count" := VInt 2 ]> (stand_in_initial_state "學習Python編程" None).

(** * Properties *)

(** ** The merge idiom *)

Lemma merge_lookup_partial (s p : State) k v :
  p !! k = Some v → merge s p !! k = Some v.
Proof. intros Hk. unfold merge. by apply lookup_union_Some_l. Qed.

Lemma merge_lookup_other (s p : State) k :
  p !! k = None → merge s p !! k = s !! k.
Proof. intros Hk. unfold merge. by rewrite lookup_union_r. Qed.

Lemma merge_empty (s : State) : merge s ∅ = s.
Proof. unfold merge. by rewrite (left_id_L ∅ (∪)). Qed.

Lemma merge_dom (s p : State) : dom s ⊆ dom (merge s p).
Proof. unfold merge. rewrite dom_union_L. set_solver. Qed.

Lemma state_get_merge_other (s p : State) k d :
  p !! k = None → state_get (merge s p) k d = state_get s k d.
Proof. intros Hk. unfold state_get. by rewrite merge_lookup_other. Qed.

(** C2: merging a partial update gives every key of the update the update's
    value, leaves every other key of the state as it was, removes no key,
    and merging the empty update changes nothing, so that
    merge(merge(s, p1), {}) = merge(s, p1). *)
Theorem merge_overwrites_and_preserves (s p : State) :
  (∀ k v, p !! k = Some v → merge s p !! k = Some v)
  ∧ (∀ k, p !! k = None → merge s p !! k = s !! k)
  ∧ dom s ⊆ dom (merge s p)
  ∧ merge s ∅ = s
  ∧ merge (merge s p) ∅ = merge s p.
Proof.
  split_and!.
  - intros k v. apply merge_lookup_partial.
  - intros k. apply merge_lookup_other.
  - apply merge_dom.
  - apply merge_empty.
  - apply merge_empty.
Qed.

(** ** Reading a well-typed state *)

Lemma field_has_get (ok : value → bool) (s : State) key d :
  field_has ok s key = true → ok d = true → ok (state_get s key d) = true.
Proof.
  unfold field_has, state_get. by destruct (s !! key).
Qed.

Lemma wt_iteration_count s :
  well_typed s = true → ∃ n, state_get s "iteration_count" (VInt 0) = VInt n.
Proof.
  intros Hwt. unfold well_typed in Hwt. repeat (apply andb_prop in Hwt as [Hwt ?]).
  pose proof (field_has_get is_int s "iteration_count" (VInt 0) Hwt eq_refl) as Hv.
  destruct (state_get s "iteration_count" (VInt 0)); try discriminate. eauto.
Qed.

Lemma wt_current_phase s :
  well_typed s = true → ∃ p, state_get s "current_phase" (VStr "unknown") = VStr p.
Proof.
  intros Hwt. unfold well_typed in Hwt. repeat (apply andb_prop in Hwt as [Hwt ?]).
  match goal with
  | Hf : field_has is_str s _ = true |- _ =>
      pose proof (field_has_get is_str s _ (VStr "unknown") Hf eq_refl) as Hv
  end.
  destruct (state_get s "current_phase" (VStr "unknown")); try discriminate. eauto.
Qed.

Lemma str_list_strings (l : list value) :
  forallb is_str l = true → ∃ strs, l = VStr <$> strs.
Proof.
  induction l as [|v l IH]; simpl; intros Hl.
  - by exists [].
  - apply andb_prop in Hl as [Hv Hl]. destruct (IH Hl) as [strs ->].
    destruct v; try discriminate. by eexists (_ :: strs).
Qed.

Lemma wt_processing_notes s :
  well_typed s = true →
  ∃ notes, state_get s "processing_notes" (VList []) = VList (VStr <$> notes).
Proof.
  intros Hwt. unfold well_typed in Hwt. repeat (apply andb_prop in Hwt as [Hwt ?]).
  match goal with
  | Hf : field_has is_str_list s _ = true |- _ =>
      pose proof (field_has_get is_str_list s _ (VList []) Hf eq_refl) as Hv
  end.
  destruct (state_get s "processing_notes" (VList [])); try discriminate.
  simpl in Hv. destruct (str_list_strings _ Hv) as [strs ->]. eauto.
Qed.

Lemma wt_list_field s key :
  field_has is_list s key = true → ∃ l, state_get s key (VList []) = VList l.
Proof.
  intros Hf. pose proof (field_has_get is_list s key (VList []) Hf eq_refl) as Hv.
  destruct (state_get s key (VList [])); try discriminate. eauto.
Qed.

Lemma wt_errors s :
  well_typed s = true → ∃ l, state_get s "errors" (VList []) = VList l.
Proof.
  intros Hwt. unfold well_typed in Hwt. repeat (apply andb_prop in Hwt as [Hwt ?]).
  by apply wt_list_field.
Qed.

Lemma wt_subtasks s :
  well_typed s = true → ∃ l, state_get s "subtasks" (VList []) = VList l.
Proof.
  intros Hwt. unfold well_typed in Hwt. repeat (apply andb_prop in Hwt as [Hwt ?]).
  by apply wt_list_field.
Qed.

Lemma wt_config s :
  well_typed s = true → ∃ c, config_value s = VConfig c.
Proof.
  intros Hwt. unfold well_typed in Hwt. repeat (apply andb_prop in Hwt as [Hwt ?]).
  match goal with
  | Hf : field_has is_opt_config s _ = true |- _ =>
      pose proof (field_has_get is_opt_config s _ VNone Hf eq_refl) as Hv
  end.
  unfold config_value, state_get_none.
  destruct (state_get s "config" VNone); try discriminate; simpl; eauto.
Qed.

Lemma wt_task_analysis s :
  well_typed s = true →
  state_get_none s "task_analysis" = VNone
  ∨ ∃ a, state_get_none s "task_analysis" = VAnalysis a.
Proof.
  intros Hwt. unfold well_typed in Hwt. repeat (apply andb_prop in Hwt as [Hwt ?]).
  match goal with
  | Hf : field_has is_opt_analysis s _ = true |- _ =>
      pose proof (field_has_get is_opt_analysis s _ VNone Hf eq_refl) as Hv
  end.
  unfold state_get_none.
  destruct (state_get s "task_analysis" VNone); try discriminate; eauto.
Qed.

Lemma wt_execution_plan s :
  well_typed s = true →
  state_get_none s "execution_plan" = VNone
  ∨ ∃ p, state_get_none s "execution_plan" = VPlan p.
Proof.
  intros Hwt. unfold well_typed in Hwt. repeat (apply andb_prop in Hwt as [Hwt ?]).
  match goal with
  | Hf : field_has is_opt_plan s _ = true |- _ =>
      pose proof (field_has_get is_opt_plan s _ VNone Hf eq_refl) as Hv
  end.
  unfold state_get_none.
  destruct (state_get s "execution_plan" VNone); try discriminate; eauto.
Qed.

(** ** The execution trace *)

Lemma trace_fold (notes : list value) (strs init : list string) :
  mapM py_str notes = Some strs →
  foldl (λ acc note, phases ← acc; n ← py_str note; Some (phases ++ [ "- " +:+ n ]))
    (Some init) notes
  = Some (init ++ ((λ n, "- " +:+ n) <$> strs)).
Proof.
  revert strs init. induction notes as [|note notes IH]; intros strs init Hm.
  - simpl in Hm. injection Hm as <-. simpl. by rewrite app_nil_r.
  - rewrite mapM_Some in Hm. destruct strs as [|n strs]; [by inversion Hm|].
    apply Forall2_cons_1 in Hm as [Hn Hm]. apply mapM_Some in Hm.
    simpl. rewrite Hn. simpl. rewrite (IH strs _ Hm).
    by rewrite <- app_assoc.
Qed.

Lemma get_execution_trace_value (result : State) (notes : list value)
    (strs : list string) (phase : string) :
  as_list (state_get result "processing_notes" (VList [])) = Some notes →
  mapM py_str notes = Some strs →
  py_str (state_get result "current_phase" (VStr "unknown")) = Some phase →
  get_execution_trace result
  = Some (("最終階段: " +:+ phase) :: ((λ n, "- " +:+ n) <$> strs), result).
Proof.
  intros Hnotes Hstrs Hphase.
  unfold get_execution_trace. rewrite Hnotes. simpl. rewrite Hphase. simpl.
  by rewrite (trace_fold _ _ _ Hstrs).
Qed.

(** C9: the trace of a state is one line naming its current phase, "unknown"
    when the field is absent, followed by one line per processing note in
    stored order, so it has 1 + len(processing_notes) entries; the state is
    left as it was. *)
Theorem get_execution_trace_spec (result : State) (notes : list value)
    (strs : list string) (phase : string) :
  as_list (state_get result "processing_notes" (VList [])) = Some notes →
  mapM py_str notes = Some strs →
  py_str (state_get result "current_phase" (VStr "unknown")) = Some phase →
  get_execution_trace result
  = Some (("最終階段: " +:+ phase) :: ((λ n, "- " +:+ n) <$> strs), result)
  ∧ length (("最終階段: " +:+ phase) :: ((λ n, "- " +:+ n) <$> strs))
    = S (length notes)
  ∧ (result !! "current_phase" = None → phase = "unknown").
Proof.
  intros Hnotes Hstrs Hphase. split_and!.
  - by apply (get_execution_trace_value result notes).
  - simpl. rewrite length_fmap. f_equal.
    apply mapM_Some in Hstrs. symmetry. by eapply Forall2_length.
  - intros Habs. unfold state_get in Hphase. rewrite Habs in Hphase.
    simpl in Hphase. by injection Hphase.
Qed.

(** On a well-typed state the trace is always produced. *)
Lemma get_execution_trace_total (result : State) :
  well_typed result = true → is_Some (get_execution_trace result).
Proof.
  intros Hwt.
  destruct (wt_processing_notes _ Hwt) as [notes Hnotes].
  destruct (wt_current_phase _ Hwt) as [phase Hphase].
  rewrite (get_execution_trace_value result (VStr <$> notes) notes phase);
    [done|by rewrite Hnotes| |by rewrite Hphase].
  apply mapM_Some. clear. induction notes; by constructor.
Qed.

(** ** The helper nodes and routers of graph.py *)

Section HelperNodes.
Context `{Imports}.

Lemma finalize_plan_inv (state partial : State) :
  _finalize_plan state = Some partial →
  ∃ notes final_notes,
    as_list (state_get state "processing_notes" (VList [])) = Some notes
    ∧ final_notes ≠ []
    ∧ partial = <["is_plan_approved" := VBool true]>
                  (<["processing_notes" := VList (notes ++ (VStr <$> final_notes))]>
                     (update_state_metadata state "completed")).
Proof.
  unfold _finalize_plan. intros Hf.
  destruct (py_str _) as [ic|]; simpl in Hf; [|done].
  destruct (py_len _) as [n|]; simpl in Hf; [|done].
  destruct (truthy _); simpl in Hf.
  - destruct (as_plan _) as [p|]; simpl in Hf; [|done].
    destruct (as_list _) as [notes|]; simpl in Hf; [|done].
    injection Hf as <-. by eexists notes, [_; _; _; _].
  - destruct (as_list _) as [notes|]; simpl in Hf; [|done].
    injection Hf as <-. by eexists notes, [_; _; _].
Qed.

Lemma finalize_plan_total (state : State) :
  well_typed state = true → is_Some (_finalize_plan state).
Proof.
  intros Hwt. unfold _finalize_plan.
  destruct (wt_iteration_count _ Hwt) as [n ->].
  destruct (wt_subtasks _ Hwt) as [tasks ->].
  destruct (wt_processing_notes _ Hwt) as [notes ->]. simpl.
  destruct (wt_execution_plan _ Hwt) as [-> | [p ->]]; simpl; eauto.
Qed.

(** C10: whatever the state, and so however the run came to the finalize
    node, the update of _finalize_plan sets is_plan_approved to True, and its
    processing_notes are the state's notes followed by the final notes.  The
    final notes are the three the node always builds, announcing the
    finalization, the iteration count and the number of subtasks, and after
    them the estimated total hours when the state holds an execution plan.
    On a well-typed state the node does return an update. *)
Theorem finalize_plan_approves_and_appends (state : State) :
  (∀ partial, _finalize_plan state = Some partial →
     partial !! "is_plan_approved" = Some (VBool true)
     ∧ ∃ notes ic n final_notes,
         as_list (state_get state "processing_notes" (VList [])) = Some notes
         ∧ py_str (state_get state "iteration_count" (VInt 0)) = Some ic
         ∧ py_len (state_get state "subtasks" (VList [])) = Some n
         ∧ (if truthy (state_get_none state "execution_plan")
            then ∃ p, state_get_none state "execution_plan" = VPlan p
                      ∧ final_notes
                        = [ "計劃最終化完成";
                            "總共進行了 " +:+ ic +:+ " 次迭代";
                            "最終計劃包含 " +:+ pretty n +:+ " 個任務";
                            "預估總時間：" +:+ format_1f (estimated_total_hours p)
                            +:+ " 小時" ]
            else final_notes
                 = [ "計劃最終化完成";
                     "總共進行了 " +:+ ic +:+ " 次迭代";
                     "最終計劃包含 " +:+ pretty n +:+ " 個任務" ])
         ∧ partial !! "processing_notes"
           = Some (VList (notes ++ (VStr <$> final_notes))))
  ∧ (well_typed state = true → is_Some (_finalize_plan state)).
Proof.
  split; [|apply finalize_plan_total].
  intros partial. unfold _finalize_plan.
  destruct (py_str _) as [ic|]; simpl; [|done].
  destruct (py_len _) as [n|]; simpl; [|done].
  destruct (truthy _); simpl.
  - destruct (state_get_none state "execution_plan"); simpl; try done.
    destruct (as_list _) as [notes|]; simpl; [|done].
    intros [= <-]. split; [by rewrite lookup_insert_eq|].
    eexists notes, ic, n, _. split_and!; [done|done|done|by eexists|].
    rewrite lookup_insert_ne; [|done]. by rewrite lookup_insert_eq.
  - destruct (as_list _) as [notes|]; simpl; [|done].
    intros [= <-]. split; [by rewrite lookup_insert_eq|].
    eexists notes, ic, n, _. split_and!; [done|done|done|done|].
    rewrite lookup_insert_ne; [|done]. by rewrite lookup_insert_eq.
Qed.

End HelperNodes.

Section Routers.
Context `{Imports}.

Lemma check_iteration_limit_labels (s : State) :
  well_typed s = true →
  ∃ label, _check_iteration_limit s = Some label
           ∧ label ∈ [ "continue"; "force_finalize"; "error" ].
Proof.
  intros Hwt. unfold _check_iteration_limit.
  destruct (truthy _); [exists "error"; set_solver|].
  destruct (wt_iteration_count _ Hwt) as [n ->].
  destruct (wt_config _ Hwt) as [c ->]. simpl.
  destruct (_ <=? _); eexists; (split; [done|set_solver]).
Qed.

Lemma advanced_feedback_logic_labels (s : State) :
  well_typed s = true →
  ∃ label, _advanced_feedback_logic s = Some label
           ∧ label ∈ [ "auto_approve"; "get_feedback"; "need_revision" ].
Proof.
  intros Hwt. unfold _advanced_feedback_logic.
  destruct (wt_config _ Hwt) as [c ->]. simpl.
  destruct (wt_task_analysis _ Hwt) as [-> | [a ->]]; simpl.
  - rewrite andb_false_r. simpl. eexists; (split; [done|set_solver]).
  - rewrite andb_true_r.
    destruct (auto_approve_simple_plans c); simpl;
      repeat (destruct (PrimFloat.ltb _ _); simpl);
      eexists; (split; [done|set_solver]).
Qed.

Lemma error_recovery_logic_labels (s : State) :
  well_typed s = true →
  ∃ label, _error_recovery_logic s = Some label
           ∧ label ∈ [ "retry"; "partial_recovery"; "terminate" ].
Proof.
  intros Hwt. unfold _error_recovery_logic.
  destruct (wt_errors _ Hwt) as [errs ->].
  destruct (wt_iteration_count _ Hwt) as [n ->]. simpl.
  destruct (_ <? 3); simpl;
    repeat match goal with
           | |- context [if ?b then _ else _] => destruct b; simpl
           end;
    eexists; (split; [done|set_solver]).
Qed.

(** Once the count has reached the ceiling, _check_iteration_limit does not
    answer "continue". *)
Lemma check_iteration_limit_honours_ceiling (s : State) :
  well_typed s = true →
  max_iterations_of s ≤ iteration_count_of s →
  _check_iteration_limit s = Some "error"
  ∨ _check_iteration_limit s = Some "force_finalize".
Proof.
  intros Hwt. unfold _check_iteration_limit, max_iterations_of, iteration_count_of.
  destruct (truthy _); [by left|].
  destruct (wt_iteration_count _ Hwt) as [n ->].
  destruct (wt_config _ Hwt) as [c ->]. simpl. intros Hle.
  apply Z.leb_le in Hle. rewrite Hle. by right.
Qed.

Lemma routes_within_routable (g : StateGraph) source router labels (s : State) :
  routes_within g source router labels s → is_Some (route g source s).
Proof.
  intros (path_map & label & t & Hedge & Hlabel & _ & Ht).
  unfold route. rewrite Hedge. simpl. rewrite Hlabel. simpl. rewrite Ht. by eexists.
Qed.

(** C7: on every well-typed state the three routers of the advanced graph
    answer with a label of their declared set, and the path map each was
    registered with maps that label, so resolving the edge never meets an
    unmapped label. *)
Theorem advanced_routers_total (s : State) :
  well_typed s = true →
  routes_within advanced_planner_builder "state_monitor" _check_iteration_limit
    [ "continue"; "force_finalize"; "error" ] s
  ∧ routes_within advanced_planner_builder "create_plan" _advanced_feedback_logic
      [ "auto_approve"; "get_feedback"; "need_revision" ] s
  ∧ routes_within advanced_planner_builder "error_handler" _error_recovery_logic
      [ "retry"; "partial_recovery"; "terminate" ] s
  ∧ is_Some (route advanced_planner_builder "state_monitor" s)
  ∧ is_Some (route advanced_planner_builder "create_plan" s)
  ∧ is_Some (route advanced_planner_builder "error_handler" s).
Proof.
  intros Hwt.
  assert (routes_within advanced_planner_builder "state_monitor"
            _check_iteration_limit [ "continue"; "force_finalize"; "error" ] s) as H1.
  { destruct (check_iteration_limit_labels s Hwt) as (label & Hl & Hin).
    repeat (apply elem_of_cons in Hin as [-> | Hin]);
      [eexists _, _, _; split_and!; [reflexivity|done|set_solver|reflexivity]..|].
    by apply elem_of_nil in Hin. }
  assert (routes_within advanced_planner_builder "create_plan"
            _advanced_feedback_logic
            [ "auto_approve"; "get_feedback"; "need_revision" ] s) as H2.
  { destruct (advanced_feedback_logic_labels s Hwt) as (label & Hl & Hin).
    repeat (apply elem_of_cons in Hin as [-> | Hin]);
      [eexists _, _, _; split_and!; [reflexivity|done|set_solver|reflexivity]..|].
    by apply elem_of_nil in Hin. }
  assert (routes_within advanced_planner_builder "error_handler"
            _error_recovery_logic
            [ "retry"; "partial_recovery"; "terminate" ] s) as H3.
  { destruct (error_recovery_logic_labels s Hwt) as (label & Hl & Hin).
    repeat (apply elem_of_cons in Hin as [-> | Hin]);
      [eexists _, _, _; split_and!; [reflexivity|done|set_solver|reflexivity]..|].
    by apply elem_of_nil in Hin. }
  split_and!; [done..| | |]; by eapply routes_within_routable.
Qed.

End Routers.

(** ** Compilation collects every defect *)

Lemma repeated_spec (seen names : list string) (n : string) :
  n ∈ repeated seen names
  ↔ (∃ j, names !! j = Some n
          ∧ (n ∈ seen ∨ ∃ i, (i < j)%nat ∧ names !! i = Some n)).
Proof.
  revert seen. induction names as [|n0 names IH]; intros seen; simpl.
  - split; [by intros ?%elem_of_nil|]. by intros (j & ? & _).
  - rewrite elem_of_app, IH. split.
    + intros [Hhd | (j & Hj & Hor)].
      * case_bool_decide as Hseen; [|by apply elem_of_nil in Hhd].
        apply list_elem_of_singleton in Hhd as ->. exists 0%nat. eauto.
      * exists (S j). split; [done|].
        destruct Hor as [[-> | Hseen]%elem_of_cons | (i & Hlt & Hi)].
        -- right. exists 0%nat. split; [lia|done].
        -- by left.
        -- right. exists (S i). split; [lia|done].
    + intros ([|j] & Hj & Hor).
      * simpl in Hj. assert (n0 = n) as -> by congruence. left.
        destruct Hor as [Hseen | (i & Hlt & _)]; [|lia].
        rewrite bool_decide_eq_true_2; [|done]. set_solver.
      * simpl in Hj. right. exists j. split; [done|].
        destruct Hor as [Hseen | ([|i] & Hlt & Hi)].
        -- left. set_solver.
        -- simpl in Hi. assert (n0 = n) as -> by congruence. left. set_solver.
        -- simpl in Hi. right. exists i. split; [lia|done].
Qed.

Lemma repeated_occurs_twice (names : list string) (n : string) :
  n ∈ repeated [] names ↔ occurs_twice names n.
Proof.
  rewrite repeated_spec. unfold occurs_twice. split.
  - intros (j & Hj & [Hnil | (i & Hlt & Hi)]); [by apply elem_of_nil in Hnil|].
    by exists i, j.
  - intros (i & j & Hlt & Hi & Hj). exists j. split; [done|]. right. by exists i.
Qed.

Lemma registered_spec (g : StateGraph) (name : string) :
  registered g name = true ↔ name ∈ (graph_nodes g).*1.
Proof. unfold registered. apply bool_decide_eq_true. Qed.

Lemma target_problem_spec (g : StateGraph) source t p :
  p ∈ target_problem g source t
  ↔ (∃ name, t = Node name ∧ name ∉ (graph_nodes g).*1
             ∧ p = UnknownTarget source name).
Proof.
  unfold target_problem. destruct t as [name|].
  - destruct (registered g name) eqn:Hreg.
    + split; [by intros ?%elem_of_nil|].
      intros (name' & [= <-] & Hnot & _). by apply registered_spec in Hreg.
    + split.
      * intros ->%list_elem_of_singleton. exists name. split_and!; [done| |done].
        intros Hin%registered_spec. congruence.
      * intros (name' & [= <-] & _ & ->). set_solver.
  - split; [by intros ?%elem_of_nil|]. by intros (? & ? & _).
Qed.

Lemma validate_spec (g : StateGraph) (p : problem) :
  p ∈ validate g ↔ defect g p.
Proof.
  unfold validate. rewrite !elem_of_app, !list_elem_of_fmap. split.
  - intros [(n & -> & Hn) | [Hentry | [Htarget | (n & -> & Hn)]]].
    + constructor. by apply repeated_occurs_twice.
    + destruct (graph_entry g) as [name|] eqn:He; [|by apply elem_of_nil in Hentry].
      destruct (registered g name) eqn:Hreg; [by apply elem_of_nil in Hentry|].
      apply list_elem_of_singleton in Hentry as ->. constructor; [done|].
      intros Hin%registered_spec. congruence.
    + apply list_elem_of_bind in Htarget as ([source e] & Hp & Hedge).
      apply list_elem_of_bind in Hp as (t & Hp & Ht).
      apply target_problem_spec in Hp as (name & -> & Hnot & ->).
      by econstructor.
    + constructor. by apply repeated_occurs_twice.
  - intros [name Hn | name He Hnot | source e name Hedge Ht Hnot | source Hn].
    + left. exists name. split; [done|]. by apply repeated_occurs_twice.
    + right; left. rewrite He.
      destruct (registered g name) eqn:Hreg; [by apply registered_spec in Hreg|].
      set_solver.
    + right; right; left. apply list_elem_of_bind. exists (source, e). split; [|done].
      apply list_elem_of_bind. exists (Node name). split; [|done].
      apply target_problem_spec. by exists name.
    + right; right; right. exists source. split; [done|]. by apply repeated_occurs_twice.
Qed.

(** C4: a builder with two structural defects does not compile: compile
    returns one GraphValidationError whose list holds both of them, and
    holds exactly the defects of the builder. *)
Theorem compile_reports_every_defect (g : StateGraph) (p1 p2 : problem) :
  defect g p1 → defect g p2 →
  ∃ problems,
    compile g = inl (GraphValidation problems)
    ∧ p1 ∈ problems ∧ p2 ∈ problems
    ∧ ∀ p, p ∈ problems ↔ defect g p.
Proof.
  intros H1 H2. exists (validate g).
  apply validate_spec in H1 as Hin1. apply validate_spec in H2 as Hin2.
  split_and!; [|done|done|apply validate_spec].
  unfold compile. destruct (validate g); [by apply elem_of_nil in Hin1|done].
Qed.

(** A builder without defects compiles to itself. *)
Lemma compile_accepts (g : StateGraph) :
  validate g = [] → compile g = inr g.
Proof. intros Hv. unfold compile. by rewrite Hv. Qed.

(** ** Runs keep what every step keeps *)

Lemma last_cons {A : Type} (a : A) (l : list A) (d : A) :
  List.last (a :: l) d = List.last l a.
Proof.
  revert a d. induction l as [|b l IH]; intros a d; [done|].
  change (List.last (a :: b :: l) d) with (List.last (b :: l) d).
  by rewrite (IH b d), (IH b a).
Qed.

Lemma last_app_nonempty {A : Type} (l1 : list A) (a : A) (l2 : list A) (d : A) :
  List.last (l1 ++ a :: l2) d = List.last l2 a.
Proof.
  revert d. induction l1 as [|b l1 IH]; intros d; simpl app.
  - apply last_cons.
  - by rewrite last_cons, IH.
Qed.

Lemma chain_app (R : relation State) (s : State) (l1 l2 : list State) :
  chain R s (l1 ++ l2) ↔ chain R s l1 ∧ chain R (List.last l1 s) l2.
Proof.
  revert s. induction l1 as [|a l1 IH]; intros s.
  - simpl. tauto.
  - change ((a :: l1) ++ l2) with (a :: (l1 ++ l2)).
    cbn [chain]. rewrite IH, last_cons. tauto.
Qed.

Lemma chain_last (R : relation State) `{!PreOrder R} (s : State) (l : list State) :
  chain R s l → R s (List.last l s) ∧ Forall (R s) l.
Proof.
  revert s. induction l as [|a l IH]; intros s Hc.
  - split; [reflexivity|constructor].
  - destruct Hc as [Hsa Hc]. destruct (IH a Hc) as [Hlast Hall].
    rewrite last_cons. split; [by etrans|]. constructor; [done|].
    eapply Forall_impl; [exact Hall|]. intros x Hx. by etrans.
Qed.

Lemma chain_sorted (R : relation State) (s : State) (l : list State) :
  chain R s l → Sorted R (s :: l).
Proof.
  revert s. induction l as [|a l IH]; intros s Hc.
  - repeat constructor.
  - destruct Hc as [Hsa Hc]. constructor; [by apply IH|by constructor].
Qed.

Section RunKeeps.
Context (g : StateGraph) (R : relation State) `{!PreOrder R}.

Hypothesis node_step :
  ∀ name f s, assoc name (graph_nodes g) = Some f →
    R s (merge s (call_node f name s)).
Hypothesis branch_step :
  ∀ source router targets name f s acc,
    assoc source (graph_edges g) = Some (FanOutEdges router targets) →
    name ∈ targets →
    assoc name (graph_nodes g) = Some f →
    R acc (merge acc (call_node f name s)).
Hypothesis error_step :
  ∀ s what, R s (merge s (error_update s what)).

Lemma fan_out_keeps source router targets (s acc : State) sends evs final :
  assoc source (graph_edges g) = Some (FanOutEdges router targets) →
  forallb (λ b, bool_decide (send_node b ∈ targets)) sends = true →
  fan_out g s acc sends = Some (evs, final) →
  chain R acc evs.*2 ∧ final = List.last evs.*2 acc.
Proof.
  intros Hedge. revert acc evs final.
  induction sends as [|b sends IH]; intros acc evs final Hin Hfan.
  - simpl in Hfan. by injection Hfan as <- <-.
  - simpl in Hin. apply andb_prop in Hin as [Hb Hin].
    apply bool_decide_eq_true in Hb.
    simpl in Hfan. unfold run_branch in Hfan.
    destruct (assoc (send_node b) (graph_nodes g)) as [f|] eqn:Hf; simpl in Hfan; [|done].
    destruct (fan_out g s _ sends) as [[evs' final']|] eqn:Hrest; simpl in Hfan; [|done].
    injection Hfan as <- <-.
    destruct (IH _ _ _ Hin Hrest) as [Hc ->].
    rewrite fmap_cons, last_cons. split; [|done].
    split; [by eapply branch_step|done].
Qed.

Lemma route_keeps name s evs t s' :
  route g name s = Some (evs, t, s') →
  chain R s evs.*2 ∧ s' = List.last evs.*2 s.
Proof.
  unfold route. intros Hr.
  destruct (assoc name (graph_edges g)) as [e|] eqn:Hedge; simpl in Hr; [|done].
  destruct e as [t0 | router path_map | router targets].
  - by injection Hr as <- <- <-.
  - destruct (router s); simpl in Hr; [|done].
    destruct (assoc _ path_map); simpl in Hr; [|done].
    by injection Hr as <- <- <-.
  - destruct (forallb _ _) eqn:Hin; [|done].
    destruct (fan_out g s s _) as [[evs0 s0]|] eqn:Hfan; simpl in Hr; [|done].
    destruct (join_of g _); simpl in Hr; [|done].
    injection Hr as <- <- <-. by eapply fan_out_keeps.
Qed.

Lemma step_keeps name s :
  match step g name s with
  | Next evs t s' => chain R s evs.*2 ∧ R (List.last evs.*2 s) s'
  | Stop evs o => chain R s evs.*2 ∧ ∃ e, o = Failed e
  end.
Proof.
  unfold step, unroutable.
  destruct (assoc name (graph_nodes g)) as [f|] eqn:Hf.
  - pose proof (node_step _ _ s Hf) as Hnode.
    destruct (route g name _) as [[[evs t] s2]|] eqn:Hr.
    + destruct (route_keeps _ _ _ _ _ Hr) as [Hc ->].
      rewrite fmap_cons, last_cons. split; [by split|reflexivity].
    + destruct (error_route g); simpl; split_and!; eauto.
  - destruct (error_route g); simpl; split_and!; eauto.
Qed.

Lemma limit_exceeded_keeps s :
  chain R s (limit_exceeded g s).1.*2
  ∧ ∀ tag sf, (limit_exceeded g s).2 = Returned tag sf →
      R (List.last (limit_exceeded g s).1.*2 s) sf.
Proof.
  unfold limit_exceeded. destruct (error_route g) as [handler|]; [|done].
  destruct (assoc handler (graph_nodes g)) as [f|] eqn:Hf; simpl.
  - split.
    + split; [|done]. etrans; [apply error_step|]. by apply node_step.
    + intros tag sf [= _ <-]. reflexivity.
  - split; [done|]. intros tag sf [= _ <-]. apply error_step.
Qed.

(** Along a run every step is within [R], and so is the state returned. *)
Lemma run_keeps (limit : nat) (current : target) (s : State) :
  chain R s (history (run g limit current s))
  ∧ ∀ tag sf, (run g limit current s).2 = Returned tag sf →
      R (List.last (history (run g limit current s)) s) sf.
Proof.
  unfold history. revert current s.
  induction limit as [|limit IH]; intros current s.
  - destruct current as [name|]; simpl.
    + apply limit_exceeded_keeps.
    + split; [done|]. intros tag sf [= _ <-]. reflexivity.
  - destruct current as [name|]; simpl.
    + pose proof (step_keeps name s) as Hstep.
      destruct (step g name s) as [evs t s'|evs o].
      * destruct Hstep as [Hc Hlast].
        destruct (IH t s') as [Hc' Hret].
        destruct (run g limit t s') as [evs' o]. simpl in *.
        rewrite fmap_app.
        assert (chain R (List.last evs.*2 s) evs'.*2) as Hc2.
        { destruct (evs'.*2) as [|a l]; [done|].
          destruct Hc' as [Ha Hc']. split; [by etrans|done]. }
        split; [by apply chain_app|].
        intros tag sf Ho. specialize (Hret tag sf Ho).
        destruct (evs'.*2) as [|a l] eqn:Hevs'.
        -- rewrite app_nil_r. simpl in Hret. by etrans.
        -- rewrite last_app_nonempty. by rewrite last_cons in Hret.
      * destruct Hstep as [Hc [e ->]]. simpl. split; [done|]. by intros.
    + split; [done|]. intros tag sf [= _ <-]. reflexivity.
Qed.

Lemma run_returned_keeps (limit : nat) (current : target) (s : State) tag sf :
  (run g limit current s).2 = Returned tag sf → R s sf.
Proof.
  intros Ho. destruct (run_keeps limit current s) as [Hc Hret].
  etrans; [|by eapply Hret]. by apply chain_last.
Qed.

End RunKeeps.

(** ** What the helper nodes leave alone *)

#[global] Instance count_le_preorder : PreOrder count_le.
Proof.
  split; [intros s; unfold count_le; lia|].
  intros a b c; unfold count_le; lia.
Qed.

#[global] Instance errors_le_preorder : PreOrder errors_le.
Proof.
  split; [by intros s x|]. intros a b c Hab Hbc x Hx. by apply Hbc, Hab.
Qed.

Lemma iteration_count_of_merge (acc partial : State) :
  partial !! "iteration_count" = None →
  iteration_count_of (merge acc partial) = iteration_count_of acc.
Proof.
  intros Hk. unfold iteration_count_of. by rewrite state_get_merge_other.
Qed.

Lemma errors_of_merge (acc partial : State) :
  partial !! "errors" = None → errors_of (merge acc partial) = errors_of acc.
Proof.
  intros Hk. unfold errors_of. by rewrite state_get_merge_other.
Qed.

Lemma errors_of_error_update (acc s : State) (what : string) :
  errors_of (merge acc (error_update s what)) = errors_of s ++ [VStr what].
Proof.
  unfold errors_of at 1, state_get, error_update.
  by erewrite merge_lookup_partial; [|apply lookup_singleton_eq].
Qed.

Lemma error_update_other (s : State) (what key : string) :
  key ≠ "errors" → error_update s what !! key = None.
Proof. intros Hk. unfold error_update. by rewrite lookup_singleton_ne. Qed.

(** A faulting call writes [errors] only, so a key that the node's own
    updates leave alone is left alone by the call. *)
Lemma call_node_frame (f : State → option State) (name key : string) (s : State) :
  key ≠ "errors" →
  (∀ partial, f s = Some partial → partial !! key = None) →
  call_node f name s !! key = None.
Proof.
  intros Hk Hf. unfold call_node. destruct (f s) as [partial|]; [by apply Hf|].
  by apply error_update_other.
Qed.

Section Frames.
Context `{Imports}.
Context (key : string).
Hypothesis metadata_frame : ∀ s phase, update_state_metadata s phase !! key = None.
Hypothesis note_frame : ∀ s note, add_processing_note s note !! key = None.

Lemma finalize_plan_frame (s partial : State) :
  key ≠ "processing_notes" → key ≠ "is_plan_approved" →
  _finalize_plan s = Some partial → partial !! key = None.
Proof.
  intros Hk1 Hk2 Hf.
  destruct (finalize_plan_inv _ _ Hf) as (notes & final & _ & _ & ->).
  by rewrite !lookup_insert_ne.
Qed.

Lemma handle_errors_frame (s partial : State) :
  key ≠ "processing_notes" →
  _handle_errors s = Some partial → partial !! key = None.
Proof.
  intros Hk Hf. unfold _handle_errors in Hf. simplify_option_eq.
  by rewrite lookup_insert_ne.
Qed.

Lemma monitor_state_frame (s partial : State) :
  key ≠ "processing_notes" →
  _monitor_state s = Some partial → partial !! key = None.
Proof.
  intros Hk Hf. unfold _monitor_state in Hf. simplify_option_eq.
  by rewrite lookup_insert_ne.
Qed.

Lemma parallel_analysis_frame (s partial : State) :
  key ≠ "current_phase" →
  _parallel_analysis s = Some partial → partial !! key = None.
Proof.
  intros Hk Hf. unfold _parallel_analysis in Hf. simplify_option_eq.
  by rewrite lookup_insert_ne.
Qed.

Lemma assess_risks_frame (s partial : State) :
  key ≠ "identified_risks" →
  _assess_risks s = Some partial → partial !! key = None.
Proof.
  intros Hk [= <-]. by rewrite lookup_insert_ne.
Qed.

Lemma check_resources_frame (s partial : State) :
  key ≠ "available_resources" →
  _check_resources s = Some partial → partial !! key = None.
Proof.
  intros Hk [= <-]. by rewrite lookup_insert_ne.
Qed.

End Frames.

(** ** The iteration count along a run *)

(** Split a lookup in a literal association list into its cases. *)
Ltac assoc_cases H :=
  simpl in H;
  repeat match type of H with
         | context [String.eqb ?a ?b] =>
             let E := fresh "Heqb" in
             destruct (String.eqb a b) eqn:E; simpl in H
         end;
  try discriminate H.

Lemma frame_count_le (f : State → option State) :
  (∀ s partial, f s = Some partial → partial !! "iteration_count" = None) →
  ∀ name s acc, count_le acc (merge acc (call_node f name s)).
Proof.
  intros Hf name s acc. unfold count_le.
  rewrite iteration_count_of_merge; [lia|].
  apply call_node_frame; [done|]. apply Hf.
Qed.

Lemma error_update_count_le (s : State) (what : string) :
  count_le s (merge s (error_update s what)).
Proof.
  unfold count_le. rewrite iteration_count_of_merge; [lia|].
  by apply error_update_other.
Qed.

Section CountAlongRuns.
Context `{Imports}.
Hypothesis metadata_frame :
  ∀ s phase, update_state_metadata s phase !! "iteration_count" = None.
Hypothesis note_frame :
  ∀ s note, add_processing_note s note !! "iteration_count" = None.
Hypothesis domain_nodes :
  Forall count_nondecreasing
    [ analyze_goal; breakdown_tasks; evaluate_tasks; create_plan;
      get_feedback; refine_plan ].

Lemma helper_nodes_count_le (f : State → option State) :
  f ∈ [ _finalize_plan; _handle_errors; _monitor_state; _parallel_analysis;
        _assess_risks; _check_resources ] →
  ∀ name s acc, count_le acc (merge acc (call_node f name s)).
Proof.
  intros Hin. apply frame_count_le. intros s partial.
  repeat (apply elem_of_cons in Hin as [-> | Hin]);
    [ by apply finalize_plan_frame
    | by apply handle_errors_frame
    | by apply monitor_state_frame
    | by apply parallel_analysis_frame
    | by apply assess_risks_frame
    | by apply check_resources_frame
    | by apply elem_of_nil in Hin ].
Qed.

Lemma graph_nodes_count_le (g : StateGraph) name f s :
  g ∈ [ planner_builder; simple_planner_builder; advanced_planner_builder ] →
  assoc name (graph_nodes g) = Some f →
  count_le s (merge s (call_node f name s)).
Proof.
  intros Hg Hf.
  repeat (apply Forall_cons_1 in domain_nodes as [? domain_nodes]).
  repeat (apply elem_of_cons in Hg as [-> | Hg]); [..|by apply elem_of_nil in Hg];
    assoc_cases Hf; injection Hf as <-;
    first [ match goal with Hd : count_nondecreasing ?f |- context [call_node ?f] =>
              apply Hd end
          | apply helper_nodes_count_le; set_solver ].
Qed.

Lemma graph_branches_count_le (g : StateGraph) source router targets name f s acc :
  g ∈ [ planner_builder; simple_planner_builder; advanced_planner_builder ] →
  assoc source (graph_edges g) = Some (FanOutEdges router targets) →
  name ∈ targets →
  assoc name (graph_nodes g) = Some f →
  count_le acc (merge acc (call_node f name s)).
Proof.
  intros Hg Hedge Hin Hf.
  repeat (apply elem_of_cons in Hg as [-> | Hg]); [..|by apply elem_of_nil in Hg];
    assoc_cases Hedge.
  injection Hedge as <- <-.
  repeat (apply elem_of_cons in Hin as [-> | Hin]); [..|by apply elem_of_nil in Hin];
    simpl in Hf; injection Hf as <-; apply helper_nodes_count_le; set_solver.
Qed.

End CountAlongRuns.



(** ** Steps of the executor *)

Lemma run_node (g : StateGraph) (limit : nat) (name : string) (s : State) :
  run g (S limit) (Node name) s
  = match step g name s with
    | Next evs t s' => let '(evs', o) := run g limit t s' in (evs ++ evs', o)
    | Stop evs o => (evs, o)
    end.
Proof. done. Qed.

Lemma run_end (g : StateGraph) (limit : nat) (s : State) :
  run g limit END s = ([], Returned Terminated_success s).
Proof. by destruct limit. Qed.

Lemma run_next (g : StateGraph) (limit : nat) name (s : State) evs t s' :
  step g name s = Next evs t s' →
  (run g (S limit) (Node name) s).2 = (run g limit t s').2.
Proof.
  intros Hstep. rewrite run_node, Hstep. by destruct (run g limit t s').
Qed.

Lemma step_edge (g : StateGraph) name f t (s : State) :
  assoc name (graph_nodes g) = Some f →
  assoc name (graph_edges g) = Some (Edge t) →
  step g name s
  = Next [(name, merge s (call_node f name s))] t (merge s (call_node f name s)).
Proof.
  intros Hf He. unfold step, route. by rewrite Hf, He.
Qed.

Lemma step_conditional (g : StateGraph) name f router path_map label t (s : State) :
  assoc name (graph_nodes g) = Some f →
  assoc name (graph_edges g) = Some (ConditionalEdges router path_map) →
  router (merge s (call_node f name s)) = Some label →
  assoc label path_map = Some t →
  step g name s
  = Next [(name, merge s (call_node f name s))] t (merge s (call_node f name s)).
Proof.
  intros Hf He Hl Ht. unfold step, route. rewrite Hf, He. simpl.
  rewrite Hl. simpl. by rewrite Ht.
Qed.

(** A run fails as a call only in a graph that declares no error route. *)
Lemma run_failed_no_error_route (g : StateGraph) limit current (s : State) e :
  (run g limit current s).2 = Failed e → error_route g = None.
Proof.
  revert current s. induction limit as [|limit IH]; intros current s.
  - destruct current as [name|]; simpl; [|done].
    unfold limit_exceeded. destruct (error_route g); [|done].
    by destruct (assoc _ _).
  - destruct current as [name|]; [|done]. rewrite run_node.
    destruct (step g name s) as [evs t s'|evs o] eqn:Hstep.
    + specialize (IH t s'). by destruct (run g limit t s').
    + simpl. intros ->. unfold step, unroutable in Hstep.
      destruct (assoc name _); [destruct (route g name _) as [[[??]?]|]|];
        by destruct (error_route g).
Qed.

(** ** Faults are recorded, not raised *)

Lemma error_update_errors_le (s : State) (what : string) :
  errors_le s (merge s (error_update s what)).
Proof.
  unfold errors_le. rewrite errors_of_error_update. set_solver.
Qed.

Lemma frame_errors_le (f : State → option State) :
  (∀ s partial, f s = Some partial → partial !! "errors" = None) →
  extends_errors f.
Proof.
  intros Hf name s. unfold errors_le, call_node.
  destruct (f s) as [partial|] eqn:Hfs.
  - by rewrite errors_of_merge; [|eapply Hf].
  - apply error_update_errors_le.
Qed.

(** The state a faulting node leaves behind records the fault after the
    errors recorded before. *)
Lemma fault_recorded (f : State → option State) (name : string) (s : State) :
  f s = None →
  errors_of (merge s (call_node f name s))
  = errors_of s ++ [VStr ("node fault: " +:+ name)].
Proof.
  intros Hf. unfold call_node. rewrite Hf. apply errors_of_error_update.
Qed.

Lemma chain_before_last (R : relation State) `{!PreOrder R} (s : State)
    (l : list State) (x : State) :
  chain R s l → x ∈ l → R x (List.last l s).
Proof.
  revert s. induction l as [|a l IH]; intros s Hc Hx; [by apply elem_of_nil in Hx|].
  destruct Hc as [_ Hc]. rewrite last_cons.
  apply elem_of_cons in Hx as [-> | Hx]; [by apply chain_last|by apply IH].
Qed.

Lemma run_first_event (g : StateGraph) (limit : nat) name f (s : State) :
  assoc name (graph_nodes g) = Some f →
  ∃ evs, (run g (S limit) (Node name) s).1
         = (name, merge s (call_node f name s)) :: evs.
Proof.
  intros Hf. rewrite run_node. unfold step, unroutable. rewrite Hf.
  destruct (route g name _) as [[[evs t] s2]|].
  - destruct (run g limit t s2) as [evs' o]. by eexists.
  - destruct (error_route g) as [handler|]; [|by eexists].
    destruct (run g limit _ _) as [evs' o]. by eexists.
Qed.

(** In a graph whose nodes extend the recorded errors, what a node left in
    the errors field is still in the state the run returns; for a faulting
    node that includes the record of its fault. *)
Lemma fault_persists (g : StateGraph) (limit : nat) name f (s : State) tag sf :
  nodes_extend_errors g →
  assoc name (graph_nodes g) = Some f →
  (run g (S limit) (Node name) s).2 = Returned tag sf →
  errors_of (merge s (call_node f name s)) ⊆ errors_of sf
  ∧ (f s = None →
     VStr ("node fault: " +:+ name) ∈ errors_of sf ∧ errors_of sf ≠ []).
Proof.
  intros [Hnodes Hbranches] Hf Hret.
  assert (errors_le (merge s (call_node f name s)) sf) as Hle.
  { destruct (run_keeps g errors_le) with (limit := S limit) (current := Node name)
      (s := s) as [Hchain Hlast].
    - intros name' f' s' Hf'. exact (Hnodes name' f' Hf' name' s').
    - exact Hbranches.
    - apply error_update_errors_le.
    - destruct (run_first_event g limit name f s Hf) as [evs Hevs].
      etrans; [|by eapply Hlast].
      eapply chain_before_last; [apply _|done|].
      unfold history. rewrite Hevs. set_solver. }
  split; [exact Hle|]. intros Hfault.
  assert (VStr ("node fault: " +:+ name) ∈ errors_of (merge s (call_node f name s)))
    as Hin by (rewrite (fault_recorded _ _ _ Hfault); set_solver).
  split; [by apply Hle|]. intros Hnil. apply Hle in Hin. rewrite Hnil in Hin.
  by apply elem_of_nil in Hin.
Qed.

Section FaultsInTheSimpleGraph.
Context `{Imports}.
Hypothesis metadata_frame :
  ∀ s phase, update_state_metadata s phase !! "errors" = None.
Hypothesis domain_nodes :
  Forall extends_errors
    [ analyze_goal; breakdown_tasks; evaluate_tasks; create_plan ].

Lemma simple_graph_extends_errors : nodes_extend_errors simple_planner_builder.
Proof.
  repeat (apply Forall_cons_1 in domain_nodes as [? domain_nodes]).
  split.
  - intros name f Hf. assoc_cases Hf; injection Hf as <-; try done.
    apply frame_errors_le. intros s partial. by apply finalize_plan_frame.
  - intros source router targets name f s acc Hedge. assoc_cases Hedge.
Qed.

Lemma simple_graph_returns (limit : nat) (s0 : State) :
  (5 ≤ limit)%nat →
  ∃ sf, (invoke simple_planner_builder limit s0).2 = Returned Terminated_success sf.
Proof.
  intros Hlimit. do 5 (destruct limit as [|limit]; [lia|]).
  unfold invoke. simpl graph_entry.
  do 5 (erewrite run_next; [|by eapply step_edge]).
  rewrite run_end. eauto.
Qed.

End FaultsInTheSimpleGraph.



(** ** A router that always gives the same label *)

Lemma assoc_elem_of {A : Type} (key : string) (l : list (string * A)) (a : A) :
  assoc key l = Some a → a ∈ l.*2.
Proof.
  induction l as [|[k b] l IH]; simpl; [done|].
  destruct (String.eqb key k); [intros [= ->]|intros Ha]; set_solver.
Qed.

Lemma fan_out_names (g : StateGraph) (s acc : State) sends evs final :
  fan_out g s acc sends = Some (evs, final) → evs.*1 = send_node <$> sends.
Proof.
  revert acc evs final. induction sends as [|b sends IH]; intros acc evs final Hf.
  - simpl in Hf. by injection Hf as <- <-.
  - simpl in Hf. destruct (run_branch g s b); simpl in Hf; [|done].
    destruct (fan_out g s _ sends) as [[evs' final']|] eqn:Hrest; simpl in Hf; [|done].
    injection Hf as <- <-. simpl. f_equal. by eapply IH.
Qed.

Section ConstantRouter.
Context (g : StateGraph) (source : string) (router : State → option string)
        (path_map : list (string * target)) (label : string) (chosen : target).
Hypothesis source_edge :
  assoc source (graph_edges g) = Some (ConditionalEdges router path_map).
Hypothesis constant : ∀ s, router s = Some label.
Hypothesis label_target : assoc label path_map = Some chosen.

Local Abbreviation hop := (follows g source chosen).

Lemma step_at_source f (s : State) :
  assoc source (graph_nodes g) = Some f →
  step g source s
  = Next [(source, merge s (call_node f source s))] chosen
      (merge s (call_node f source s)).
Proof. intros Hf. by eapply step_conditional. Qed.

Lemma route_follows name (s : State) evs t s' :
  route g name s = Some (evs, t, s') →
  (∀ x, x ∈ evs.*1 → rtc hop (Node name) (Node x)) ∧ rtc hop (Node name) t.
Proof.
  unfold route. intros Hr.
  destruct (assoc name (graph_edges g)) as [e|] eqn:Hedge; simpl in Hr; [|done].
  destruct (decide (name = source)) as [-> | Hne].
  { rewrite source_edge in Hedge. injection Hedge as <-.
    rewrite constant in Hr. simpl in Hr. rewrite label_target in Hr.
    injection Hr as <- <- <-. split; [by intros x ?%elem_of_nil|].
    apply rtc_once. constructor. }
  destruct e as [t0 | router' path_map' | router' targets].
  - injection Hr as <- <- <-. split; [by intros x ?%elem_of_nil|].
    apply rtc_once. eapply follows_edge; [done..|]. set_solver.
  - destruct (router' s) as [label'|]; simpl in Hr; [|done].
    destruct (assoc label' path_map') as [t'|] eqn:Ht; simpl in Hr; [|done].
    injection Hr as <- <- <-. split; [by intros x ?%elem_of_nil|].
    apply rtc_once. eapply follows_edge; [done..|]. by eapply assoc_elem_of.
  - destruct (forallb _ _) eqn:Hin; [|done].
    destruct (fan_out g s s _) as [[evs0 s0]|] eqn:Hfan; simpl in Hr; [|done].
    destruct (join_of g _) as [t'|] eqn:Hjoin; simpl in Hr; [|done].
    injection Hr as <- <- <-.
    assert (∀ b, b ∈ router' s → hop (Node name) (Node (send_node b))) as Hbranch.
    { intros b Hb. eapply follows_edge; [done..|]. simpl.
      apply list_elem_of_fmap. exists (send_node b). split; [done|].
      rewrite forallb_forall in Hin. apply list_elem_of_In, Hin in Hb.
      by apply bool_decide_eq_true in Hb. }
    split.
    + intros x Hx. rewrite (fan_out_names _ _ _ _ _ _ Hfan) in Hx.
      apply list_elem_of_fmap in Hx as (b & -> & Hb). by apply rtc_once, Hbranch.
    + unfold join_of in Hjoin. destruct (router' s) as [|b sends]; [done|].
      destruct (assoc (send_node b) (graph_edges g)) as [[t0| |]|] eqn:Hb; try done.
      destruct (forallb _ sends); [|done]. injection Hjoin as ->.
      apply (rtc_l _ _ (Node (send_node b))); [apply Hbranch; constructor|].
      apply rtc_once.
      eapply follows_edge; [|done|set_solver].
      intros Heq. rewrite Heq, source_edge in Hb. done.
Qed.

Lemma step_follows name (s : State) :
  match step g name s with
  | Next evs t s' =>
      (∀ x, x ∈ evs.*1 → rtc hop (Node name) (Node x)) ∧ rtc hop (Node name) t
  | Stop evs o => ∀ x, x ∈ evs.*1 → rtc hop (Node name) (Node x)
  end.
Proof.
  unfold step, unroutable.
  destruct (assoc name (graph_nodes g)) as [f|].
  - destruct (route g name _) as [[[evs t] s2]|] eqn:Hr.
    + destruct (route_follows _ _ _ _ _ Hr) as [Hevs Ht]. split; [|done].
      intros x [-> | Hx]%elem_of_cons; [done|by apply Hevs].
    + destruct (error_route g) as [handler|] eqn:Herr.
      * split; [by intros x ->%list_elem_of_singleton|].
        by apply rtc_once, follows_error.
      * by intros x ->%list_elem_of_singleton.
  - destruct (error_route g) as [handler|] eqn:Herr.
    + split; [by intros x ?%elem_of_nil|]. by apply rtc_once, follows_error.
    + by intros x ?%elem_of_nil.
Qed.

Lemma visited_follows (limit : nat) (current : target) (s : State) (x : string) :
  x ∈ visited (run g limit current s) → rtc hop current (Node x).
Proof.
  unfold visited. revert current s.
  induction limit as [|limit IH]; intros current s.
  - destruct current as [name|]; simpl; [|by intros ?%elem_of_nil].
    unfold limit_exceeded. destruct (error_route g) as [handler|] eqn:Herr;
      [|by intros ?%elem_of_nil].
    destruct (assoc handler _); simpl; [|by intros ?%elem_of_nil].
    intros ->%list_elem_of_singleton. by apply rtc_once, follows_error.
  - destruct current as [name|]; [|by intros ?%elem_of_nil]. rewrite run_node.
    pose proof (step_follows name s) as Hstep.
    destruct (step g name s) as [evs t s'|evs o].
    + destruct Hstep as [Hevs Ht]. specialize (IH t s').
      destruct (run g limit t s') as [evs' o]. simpl in *.
      rewrite fmap_app. intros [Hx | Hx]%elem_of_app; [by apply Hevs|].
      etrans; [exact Ht|by apply IH].
    + simpl. apply Hstep.
Qed.


End ConstantRouter.

(** Nodes outside a set that the hops cannot leave are never reached. *)
Lemma follows_closed (g : StateGraph) source chosen (inside : list target)
    (current x : target) :
  current ∈ inside →
  (∀ a b, a ∈ inside → follows g source chosen a b → b ∈ inside) →
  rtc (follows g source chosen) current x → x ∈ inside.
Proof.
  intros Hin Hclosed Hrtc. induction Hrtc as [|a b c Hab _ IH]; [done|].
  apply IH. by eapply Hclosed.
Qed.

(** ** The standard graph *)

#[local] Arguments run : simpl never.

Section StandardGraph.
Context `{Imports}.

(** With should_get_feedback always answering "finalize", a run of the
    standard graph goes straight to finalize and never visits get_feedback
    or refine_plan. *)
Corollary always_finalize_skips_feedback (limit : nat) (s0 : State) :
  (∀ s, should_get_feedback s = Some "finalize") →
  "get_feedback" ∉ visited (invoke planner_builder limit s0)
  ∧ "refine_plan" ∉ visited (invoke planner_builder limit s0)
  ∧ ((5 ≤ limit)%nat →
     visited (invoke planner_builder limit s0)
     = [ "analyze_goal"; "breakdown_tasks"; "evaluate_tasks"; "create_plan";
         "finalize" ]).
Proof.
  intros Hconst.
  assert (∀ x, x ∈ visited (invoke planner_builder limit s0) →
            Node x ∈ [ Node "analyze_goal"; Node "breakdown_tasks";
                       Node "evaluate_tasks"; Node "create_plan";
                       Node "finalize"; END ]) as Hinside.
  { intros x Hx.
    eapply (follows_closed planner_builder "create_plan" (Node "finalize"));
      [| |eapply visited_follows; [reflexivity|exact Hconst|reflexivity|exact Hx]].
    - set_solver.
    - intros a b Ha Hab. destruct Hab as [name e t Hne He Ht| |name handler Herr];
        [|set_solver|done].
      repeat (apply elem_of_cons in Ha as [[= ->] | Ha]);
        [..|by apply elem_of_nil in Ha]; try done;
        simpl in He; injection He as <-; set_solver. }
  split_and!.
  - intros Hx%Hinside. set_solver.
  - intros Hx%Hinside. set_solver.
  - intros Hlimit. do 5 (destruct limit as [|limit]; [lia|]).
    unfold invoke. simpl graph_entry.
    do 3 (rewrite run_node; erewrite step_edge; [|reflexivity..]).
    rewrite run_node.
    erewrite step_conditional; [|reflexivity|reflexivity|apply Hconst|reflexivity].
    rewrite run_node; erewrite step_edge; [|reflexivity..].
    by rewrite run_end.
Qed.

Hypothesis metadata_count :
  ∀ s phase, update_state_metadata s phase !! "iteration_count" = None.
Hypothesis metadata_config :
  ∀ s phase, update_state_metadata s phase !! "config" = None.
Hypothesis steady_nodes :
  Forall keeps_count_and_ceiling
    [ analyze_goal; breakdown_tasks; evaluate_tasks; create_plan; get_feedback ].
Hypothesis refine_counts : counts_one_iteration refine_plan.
Hypothesis feedback_labels :
  ∀ s, should_get_feedback s = Some "get_feedback"
       ∨ should_get_feedback s = Some "finalize".
Hypothesis refine_router : honours_ceiling should_refine_plan.

Lemma max_iterations_of_merge (acc partial : State) :
  partial !! "config" = None →
  max_iterations_of (merge acc partial) = max_iterations_of acc.
Proof.
  intros Hk. unfold max_iterations_of, config_value, state_get_none.
  by rewrite state_get_merge_other.
Qed.

Lemma finalize_keeps : keeps_count_and_ceiling _finalize_plan.
Proof.
  intros name s. split.
  - apply iteration_count_of_merge, call_node_frame; [done|].
    intros partial. by apply finalize_plan_frame.
  - apply max_iterations_of_merge, call_node_frame; [done|].
    intros partial. by apply finalize_plan_frame.
Qed.

Lemma run_finalize (limit : nat) (s : State) :
  (1 ≤ limit)%nat →
  ∃ sf, (run planner_builder limit (Node "finalize") s).2
        = Returned Terminated_success sf
        ∧ iteration_count_of sf = iteration_count_of s.
Proof.
  intros Hlimit. destruct limit as [|limit]; [lia|].
  erewrite run_next; [|by eapply step_edge]. rewrite run_end.
  eexists. split; [done|]. apply finalize_keeps.
Qed.

Ltac take_label Hl :=
  erewrite run_next;
  [|eapply step_conditional; [reflexivity|reflexivity|exact Hl|reflexivity]].

Lemma run_feedback_loop (d : nat) :
  ∀ (limit : nat) (s : State),
    (Z.to_nat (max_iterations_of s - iteration_count_of s) ≤ d)%nat →
    (2 * d + 2 ≤ limit)%nat →
    ∃ sf, (run planner_builder limit (Node "get_feedback") s).2
          = Returned Terminated_success sf
          ∧ iteration_count_of sf
            ≤ Z.max (iteration_count_of s) (max_iterations_of s).
Proof.
  destruct refine_router as [Hlabels Hceiling].
  apply Forall_cons_1 in steady_nodes as [_ Hsteady].
  do 3 apply Forall_cons_1 in Hsteady as [_ Hsteady].
  apply Forall_cons_1 in Hsteady as [Hfeedback _].
  induction d as [|d IH]; intros limit s Hd Hlimit;
    destruct (Hfeedback "get_feedback" s) as [Hic Hmax].
  - do 2 (destruct limit as [|limit]; [lia|]).
    assert (should_refine_plan (merge s (call_node get_feedback "get_feedback" s))
            = Some "finalize") as Hl by (apply Hceiling; lia).
    take_label Hl.
    destruct (run_finalize (S limit) (merge s (call_node get_feedback "get_feedback" s)))
      as (sf & Hsf & Hicf); [lia|].
    exists sf. split; [done|]. lia.
  - do 4 (destruct limit as [|limit]; [lia|]).
    destruct (Hlabels (merge s (call_node get_feedback "get_feedback" s)))
      as [Hl | Hl]; take_label Hl.
    + set (s1 := merge s (call_node get_feedback "get_feedback" s)) in *.
      assert (iteration_count_of s1 < max_iterations_of s1) as Hbelow.
      { destruct (Z.lt_ge_cases (iteration_count_of s1) (max_iterations_of s1))
          as [?|Hge]; [done|].
        apply Hceiling in Hge. congruence. }
      destruct (refine_counts "refine_plan" s1) as [Hic2 Hmax2].
      destruct (Hlabels (merge s1 (call_node refine_plan "refine_plan" s1)))
        as [Hl2 | Hl2]; take_label Hl2.
      * destruct (IH (S (S limit)) (merge s1 (call_node refine_plan "refine_plan" s1)))
          as (sf & Hsf & Hicf); [lia|lia|].
        exists sf. split; [done|]. lia.
      * destruct (run_finalize (S (S limit))
                    (merge s1 (call_node refine_plan "refine_plan" s1)))
          as (sf & Hsf & Hicf); [lia|].
        exists sf. split; [done|]. lia.
    + destruct (run_finalize (S (S (S limit)))
                  (merge s (call_node get_feedback "get_feedback" s)))
        as (sf & Hsf & Hicf); [lia|].
      exists sf. split; [done|]. lia.
Qed.

(** C1, as amended: when should_refine_plan sends on to finalize once the
    iteration count has reached config.max_iterations, refine_plan counts
    one iteration per pass and no other node changes the count or the
    ceiling, a run of the standard graph reaches END within
    6 + 2 * (max_iterations - iteration_count) passes whatever else the
    routers answer, and the iteration count of the state it returns is at
    most the larger of the initial count and max_iterations.  The router
    _check_iteration_limit of the advanced graph is of that kind: once the
    count has reached the ceiling it no longer answers "continue". *)
Theorem planner_run_is_bounded (limit : nat) (s0 : State) :
  (6 + 2 * Z.to_nat (max_iterations_of s0 - iteration_count_of s0) ≤ limit)%nat →
  (∃ sf, (invoke planner_builder limit s0).2 = Returned Terminated_success sf
         ∧ iteration_count_of sf
           ≤ Z.max (iteration_count_of s0) (max_iterations_of s0))
  ∧ (∀ s, well_typed s = true →
       max_iterations_of s ≤ iteration_count_of s →
       _check_iteration_limit s = Some "error"
       ∨ _check_iteration_limit s = Some "force_finalize").
Proof.
  intros Hlimit. split; [|apply check_iteration_limit_honours_ceiling].
  pose proof steady_nodes as Hsteady.
  apply Forall_cons_1 in Hsteady as [H1 Hsteady].
  apply Forall_cons_1 in Hsteady as [H2 Hsteady].
  apply Forall_cons_1 in Hsteady as [H3 Hsteady].
  apply Forall_cons_1 in Hsteady as [H4 _].
  do 6 (destruct limit as [|limit]; [lia|]).
  unfold invoke. simpl graph_entry.
  erewrite run_next; [|by eapply step_edge].
  destruct (H1 "analyze_goal" s0) as [Hic1 Hmax1].
  set (s1 := merge s0 _) in *.
  erewrite run_next; [|by eapply step_edge].
  destruct (H2 "breakdown_tasks" s1) as [Hic2 Hmax2].
  set (s2 := merge s1 _) in *.
  erewrite run_next; [|by eapply step_edge].
  destruct (H3 "evaluate_tasks" s2) as [Hic3 Hmax3].
  set (s3 := merge s2 _) in *.
  destruct (H4 "create_plan" s3) as [Hic4 Hmax4].
  destruct (feedback_labels (merge s3 (call_node create_plan "create_plan" s3)))
    as [Hl | Hl]; take_label Hl.
  - destruct (run_feedback_loop
                (Z.to_nat (max_iterations_of s0 - iteration_count_of s0))
                (S (S limit)) (merge s3 (call_node create_plan "create_plan" s3)))
      as (sf & Hsf & Hicf); [lia|lia|].
    exists sf. split; [done|]. lia.
  - destruct (run_finalize (S (S limit))
                (merge s3 (call_node create_plan "create_plan" s3)))
      as (sf & Hsf & Hicf); [lia|].
    exists sf. split; [done|]. lia.
Qed.

End StandardGraph.

(** ** The stand-in instance satisfies what the theorems assume *)

(** One goal per element of a literal list. *)
Ltac each_element := repeat first [ apply Forall_nil_2 | apply Forall_cons_2 ].

Lemma stand_in_metadata_frame (key : string) (s : State) (phase : string) :
  key ≠ "current_phase" → key ≠ "last_updated" →
  stand_in_metadata s phase !! key = None.
Proof.
  intros H1 H2. unfold stand_in_metadata.
  rewrite lookup_insert_ne; [|done]. by rewrite lookup_singleton_ne.
Qed.

Lemma stand_in_note_frame (key : string) (s : State) (note : string) :
  key ≠ "processing_notes" → stand_in_note s note !! key = None.
Proof. intros Hk. unfold stand_in_note. by rewrite lookup_singleton_ne. Qed.

Lemma stand_in_analyze_goal_frame (key : string) (s partial : State) :
  key ≠ "current_phase" → key ≠ "last_updated" →
  stand_in_analyze_goal s = Some partial → partial !! key = None.
Proof.
  intros H1 H2. unfold stand_in_analyze_goal.
  destruct (truthy _); [|done]. intros [= <-]. by apply stand_in_metadata_frame.
Qed.

Lemma stand_in_node_frame (key phase : string) (s partial : State) :
  key ≠ "current_phase" → key ≠ "last_updated" →
  stand_in_node phase s = Some partial → partial !! key = None.
Proof. intros H1 H2 [= <-]. by apply stand_in_metadata_frame. Qed.

Lemma frame_keeps_count_and_ceiling (f : State → option State) :
  (∀ key s partial, key ≠ "current_phase" → key ≠ "last_updated" →
     f s = Some partial → partial !! key = None) →
  keeps_count_and_ceiling f.
Proof.
  intros Hf name s. split.
  - apply iteration_count_of_merge, call_node_frame; [done|].
    intros partial. by apply Hf.
  - unfold max_iterations_of, config_value, state_get_none.
    rewrite state_get_merge_other; [done|].
    apply call_node_frame; [done|]. intros partial. by apply Hf.
Qed.

Lemma stand_in_steady_nodes :
  Forall keeps_count_and_ceiling
    [ stand_in_analyze_goal; stand_in_node "task_breakdown_complete";
      stand_in_node "task_evaluation_complete";
      stand_in_node "plan_creation_complete";
      stand_in_node "feedback_collected" ].
Proof.
  each_element; apply frame_keeps_count_and_ceiling; intros key s partial ??.
  - by apply stand_in_analyze_goal_frame.
  - by apply stand_in_node_frame.
  - by apply stand_in_node_frame.
  - by apply stand_in_node_frame.
  - by apply stand_in_node_frame.
Qed.

Lemma stand_in_refine_counts : counts_one_iteration stand_in_refine_plan.
Proof.
  intros name s. unfold call_node, stand_in_refine_plan. split.
  - unfold iteration_count_of at 1, state_get.
    by erewrite merge_lookup_partial; [|apply lookup_insert_eq].
  - unfold max_iterations_of, config_value, state_get_none.
    rewrite state_get_merge_other; [done|].
    rewrite lookup_insert_ne; [|done]. by apply stand_in_metadata_frame.
Qed.

Lemma refine_until_ceiling_honours : honours_ceiling (refine_until max_iterations_of).
Proof.
  split; intros s; unfold refine_until.
  - destruct (_ <=? _); eauto.
  - intros Hle. apply Z.leb_le in Hle. by rewrite Hle.
Qed.

Lemma stand_in_count_nondecreasing :
  Forall count_nondecreasing
    [ stand_in_analyze_goal; stand_in_node "task_breakdown_complete";
      stand_in_node "task_evaluation_complete";
      stand_in_node "plan_creation_complete";
      stand_in_node "feedback_collected"; stand_in_refine_plan ].
Proof.
  pose proof stand_in_steady_nodes as Hsteady.
  repeat (apply Forall_cons_1 in Hsteady as [? Hsteady]).
  each_element; intros name s; unfold count_le;
    first [ match goal with Hk : keeps_count_and_ceiling ?f |- context [call_node ?f] =>
              destruct (Hk name s) as [-> _]; lia end
          | destruct (stand_in_refine_counts name s) as [-> _]; lia ].
Qed.

Lemma stand_in_extends_errors :
  Forall extends_errors
    [ stand_in_analyze_goal; stand_in_node "task_breakdown_complete";
      stand_in_node "task_evaluation_complete";
      stand_in_node "plan_creation_complete" ].
Proof.
  each_element; apply frame_errors_le; intros s partial.
  - by apply stand_in_analyze_goal_frame.
  - by apply stand_in_node_frame.
  - by apply stand_in_node_frame.
  - by apply stand_in_node_frame.
Qed.

(** ** The theorems at concrete inputs *)

Lemma get_execution_trace_spec_witness :
  as_list (state_get two_notes_result "processing_notes" (VList []))
  = Some [ VStr "成功分析目標"; VStr "計劃最終化完成" ]
  ∧ mapM py_str [ VStr "成功分析目標"; VStr "計劃最終化完成" ]
    = Some [ "成功分析目標"; "計劃最終化完成" ]
  ∧ py_str (state_get two_notes_result "current_phase" (VStr "unknown"))
    = Some "completed"
  ∧ get_execution_trace two_notes_result
    = Some ([ "最終階段: completed"; "- 成功分析目標"; "- 計劃最終化完成" ],
            two_notes_result).
Proof.
  split_and!; [reflexivity..|].
  apply (get_execution_trace_spec two_notes_result
           [ VStr "成功分析目標"; VStr "計劃最終化完成" ]
           [ "成功分析目標"; "計劃最終化完成" ] "completed");
    reflexivity.
Defined.

Lemma compile_reports_every_defect_witness :
  defect two_defects_builder (DuplicateNode "a")
  ∧ defect two_defects_builder (UnknownTarget "a" "ghost")
  ∧ ∃ problems,
      compile two_defects_builder = inl (GraphValidation problems)
      ∧ DuplicateNode "a" ∈ problems
      ∧ UnknownTarget "a" "ghost" ∈ problems
      ∧ ∀ p, p ∈ problems ↔ defect two_defects_builder p.
Proof.
  assert (defect two_defects_builder (DuplicateNode "a")) as H1.
  { constructor. exists 0%nat, 1%nat. split_and!; [lia|done|done]. }
  assert (defect two_defects_builder (UnknownTarget "a" "ghost")) as H2.
  { apply (defect_target _ "a" (Edge (Node "ghost"))); [|set_solver|].
    - simpl. set_solver.
    - simpl. set_solver. }
  split_and!; [done|done|].
  exact (compile_reports_every_defect two_defects_builder _ _ H1 H2).
Defined.

Lemma advanced_routers_total_witness :
  well_typed (stand_in_initial_state "學習Python編程" None) = true
  ∧ routes_within (@advanced_planner_builder (stand_in (always "finalize") (always "finalize")))
      "state_monitor" _check_iteration_limit
      [ "continue"; "force_finalize"; "error" ]
      (stand_in_initial_state "學習Python編程" None).
Proof.
  split; [reflexivity|].
  apply (@advanced_routers_total (stand_in (always "finalize") (always "finalize"))
           (stand_in_initial_state "學習Python編程" None)).
  reflexivity.
Defined.




Lemma planner_run_is_bounded_witness :
  Forall keeps_count_and_ceiling
    [ stand_in_analyze_goal; stand_in_node "task_breakdown_complete";
      stand_in_node "task_evaluation_complete";
      stand_in_node "plan_creation_complete";
      stand_in_node "feedback_collected" ]
  ∧ counts_one_iteration stand_in_refine_plan
  ∧ honours_ceiling (refine_until max_iterations_of)
  ∧ ∃ sf,
      (invoke (@planner_builder
                 (stand_in (always "get_feedback") (refine_until max_iterations_of)))
         12 (stand_in_initial_state "學習Python編程" None)).2
      = Returned Terminated_success sf
      ∧ iteration_count_of sf
        ≤ Z.max (iteration_count_of (stand_in_initial_state "學習Python編程" None))
            (max_iterations_of (stand_in_initial_state "學習Python編程" None)).
Proof.
  split_and!;
    [exact stand_in_steady_nodes|exact stand_in_refine_counts
    |exact refine_until_ceiling_honours|].
  eapply proj1.
  apply (@planner_run_is_bounded
           (stand_in (always "get_feedback") (refine_until max_iterations_of))).
  - intros s phase. by apply stand_in_metadata_frame.
  - intros s phase. by apply stand_in_metadata_frame.
  - exact stand_in_steady_nodes.
  - exact stand_in_refine_counts.
  - intros s. by left.
  - exact refine_until_ceiling_honours.
  - vm_compute. lia.
Defined.

(** ** Routers that do not look at the ceiling *)

Lemma always_refine_never_ends (limit : nat) (s : State) :
  (run (@planner_builder (stand_in (always "get_feedback") (always "refine_plan")))
     limit (Node "get_feedback") s).2 = Failed IterationLimitExceeded
  ∧ (run (@planner_builder (stand_in (always "get_feedback") (always "refine_plan")))
       limit (Node "refine_plan") s).2 = Failed IterationLimitExceeded.
Proof.
  revert s. induction limit as [|limit IH]; intros s; [done|].
  split.
  - erewrite run_next;
      [|eapply step_conditional; [reflexivity|reflexivity|reflexivity|reflexivity]].
    apply IH.
  - erewrite run_next;
      [|eapply step_conditional; [reflexivity|reflexivity|reflexivity|reflexivity]].
    apply IH.
Qed.

(** C1, as stated, fails: with routers that keep asking for refinement no
    iteration ceiling lets the run of the standard graph reach END; with a
    router that refines five times under the default max_iterations of 3
    the run returns a state whose iteration count is 5; and a run that
    starts from a count of 7 returns a count of 7. *)
Lemma routers_decide_the_bound :
  (∀ limit,
     (invoke (@planner_builder (stand_in (always "get_feedback") (always "refine_plan")))
        limit (stand_in_initial_state "學習Python編程" None)).2
     = Failed IterationLimitExceeded)
  ∧ (∃ sf,
       (invoke (@planner_builder
                  (stand_in (always "get_feedback") (refine_until (λ _, 5))))
          25 (stand_in_initial_state "學習Python編程" None)).2
       = Returned Terminated_success sf
       ∧ max_iterations_of sf = 3
       ∧ iteration_count_of sf = 5)
  ∧ (∃ sf,
       (invoke (@planner_builder (stand_in (always "finalize") (always "finalize")))
          25 (<[ "iteration_count" := VInt 7 ]>
                (stand_in_initial_state "學習Python編程" None))).2
       = Returned Terminated_success sf
       ∧ max_iterations_of sf = 3
       ∧ iteration_count_of sf = 7).
Proof.
  split_and!.
  - intros limit. unfold invoke. simpl graph_entry.
    do 4 (destruct limit as [|limit]; [done|];
          erewrite run_next;
          [|first [ by eapply step_edge
                  | eapply step_conditional; reflexivity ]]).
    apply always_refine_never_ends.
  - eexists. split_and!; [vm_compute; reflexivity|..]; vm_compute; reflexivity.
  - eexists. split_and!; [vm_compute; reflexivity|..]; vm_compute; reflexivity.
Qed.

(** ** The graphs of graph.py compile and run *)

Lemma graphs_compile `{Imports} :
  create_planner_graph = inr planner_builder
  ∧ create_simple_planner_graph = inr simple_planner_builder
  ∧ create_advanced_planner_graph = inr advanced_planner_builder.
Proof. split_and!; by apply compile_accepts. Qed.

Example simple_planner_visits :
  visited <$> @run_simple_planner (stand_in (always "finalize") (always "finalize"))
                25 "學習Python編程"
  = Some [ "analyze_goal"; "breakdown_tasks"; "evaluate_tasks"; "create_plan";
           "finalize" ].
Proof. vm_compute. reflexivity. Qed.

Example planner_loop_visits :
  visited <$> @run_planner
                (stand_in (always "get_feedback") (refine_until max_iterations_of))
                25 "學習Python編程"
                (Some {| max_iterations := 2;
                         auto_approve_simple_plans := false;
                         complexity_threshold := 7.0%float;
                         include_detailed_timeline := true |})
  = Some [ "analyze_goal"; "breakdown_tasks"; "evaluate_tasks"; "create_plan";
           "get_feedback"; "refine_plan"; "get_feedback"; "refine_plan";
           "finalize" ].
Proof. vm_compute. reflexivity. Qed.

Example two_defects_reported :
  compile two_defects_builder
  = inl (GraphValidation [ DuplicateNode "a"; UnknownTarget "a" "ghost" ]).
Proof. vm_compute. reflexivity. Qed.

(** * The remaining routers of the advanced graph *)

Lemma wt_feedback s :
  well_typed s = true →
  state_get_none s "feedback" = VNone
  ∨ ∃ f, state_get_none s "feedback" = VFeedback f.
Proof.
  intros Hwt. unfold well_typed in Hwt. repeat (apply andb_prop in Hwt as [Hwt ?]).
  match goal with
  | Hf : field_has is_opt_feedback s _ = true |- _ =>
      pose proof (field_has_get is_opt_feedback s _ VNone Hf eq_refl) as Hv
  end.
  unfold state_get_none.
  destruct (state_get s "feedback" VNone); try discriminate; eauto.
Qed.

Lemma should_do_parallel_analysis_reads (s s' : State) :
  s !! "subtasks" = s' !! "subtasks" →
  _should_do_parallel_analysis s = _should_do_parallel_analysis s'.
Proof.
  intros Hs. unfold _should_do_parallel_analysis, state_get. by rewrite Hs.
Qed.

Lemma advanced_feedback_logic_reads (s s' : State) :
  s !! "config" = s' !! "config" →
  s !! "task_analysis" = s' !! "task_analysis" →
  _advanced_feedback_logic s = _advanced_feedback_logic s'.
Proof.
  intros Hc Ha.
  unfold _advanced_feedback_logic, config_value, state_get_none, state_get.
  by rewrite Hc, Ha.
Qed.

Lemma advanced_refinement_logic_reads (s s' : State) :
  s !! "feedback" = s' !! "feedback" →
  _advanced_refinement_logic s = _advanced_refinement_logic s'.
Proof.
  intros Hf. unfold _advanced_refinement_logic, state_get_none, state_get.
  by rewrite Hf.
Qed.

Section MoreRouters.
Context `{Imports}.

(** X1: _should_do_parallel_analysis answers "parallel" exactly when the
    state holds more than five subtasks and "sequential" otherwise, and the
    path map registered at breakdown_tasks in the advanced graph maps
    whichever label it gives. *)
Theorem should_do_parallel_analysis_threshold (s : State) (tasks : list value) :
  state_get s "subtasks" (VList []) = VList tasks →
  (_should_do_parallel_analysis s = Some "parallel" ↔ (5 < length tasks)%nat)
  ∧ (_should_do_parallel_analysis s = Some "sequential" ↔ (length tasks ≤ 5)%nat)
  ∧ routes_within advanced_planner_builder "breakdown_tasks"
      _should_do_parallel_analysis [ "parallel"; "sequential" ] s.
Proof.
  intros Hs. unfold routes_within, _should_do_parallel_analysis. rewrite Hs. simpl.
  destruct (Z.ltb_spec 5 (Z.of_nat (length tasks))).
  - split_and!; [split; [lia|done] | split; [done|lia] |].
    eexists _, _, _. split_and!; [reflexivity|reflexivity|set_solver|reflexivity].
  - split_and!; [split; [done|lia] | split; [lia|done] |].
    eexists _, _, _. split_and!; [reflexivity|reflexivity|set_solver|reflexivity].
Qed.

(** X2: on a well-typed state _advanced_refinement_logic answers with a
    label that the path map registered at get_feedback maps.  Without
    feedback it answers "finalize"; with feedback, "restart" exactly when
    the comments ask for a redesign or the rating is below 2, whatever the
    approval status, and otherwise "finalize" or "refine" as the plan is
    approved or not. *)
Theorem advanced_refinement_logic_decision (s : State) :
  well_typed s = true →
  routes_within advanced_planner_builder "get_feedback"
    _advanced_refinement_logic [ "refine"; "finalize"; "restart" ] s
  ∧ (state_get_none s "feedback" = VNone →
     _advanced_refinement_logic s = Some "finalize")
  ∧ (∀ f, state_get_none s "feedback" = VFeedback f →
       let redesign := py_in "重新設計" (comments f) = true ∨ rating f < 2 in
       (_advanced_refinement_logic s = Some "restart" ↔ redesign)
       ∧ (_advanced_refinement_logic s = Some "finalize"
          ↔ ¬ redesign ∧ approval_status f = true)
       ∧ (_advanced_refinement_logic s = Some "refine"
          ↔ ¬ redesign ∧ approval_status f = false)).
Proof.
  intros Hwt. unfold routes_within, _advanced_refinement_logic.
  destruct (wt_feedback _ Hwt) as [-> | [f ->]]; simpl.
  - split_and!; [|done|done].
    eexists _, _, _. split_and!; [reflexivity|reflexivity|set_solver|reflexivity].
  - split_and!; [|done|].
    + destruct (py_in _ _ || _); [|destruct (approval_status f)];
        (eexists _, _, _; split_and!; [reflexivity|reflexivity|set_solver|reflexivity]).
    + intros f' [= <-]. simpl.
      destruct (py_in "重新設計" (comments f)) eqn:Hin; simpl;
        [split_and!; split; try done; try tauto; intros [[] _]; by left|].
      destruct (Z.ltb_spec (rating f) 2); simpl;
        [split_and!; split; try done; try tauto; intros [[] _]; by right|].
      destruct (approval_status f); split_and!; split; try done;
        try (intros [? | ?]; [done|lia]); try (intros [_ ?]; done);
        intros _; (split; [intros [? | ?]; [done|lia]|done]).
Qed.

(** X3: _advanced_refinement_logic reads iteration_count but its answer
    depends on the feedback alone: two states with the same feedback entry
    get the same answer, so writing the iteration count, the errors, the
    configuration or any key other than feedback never changes the route
    out of get_feedback. *)
Theorem advanced_refinement_logic_reads_feedback_only (s s' : State) :
  s !! "feedback" = s' !! "feedback" →
  _advanced_refinement_logic s = _advanced_refinement_logic s'
  ∧ ∀ key v, key ≠ "feedback" →
      _advanced_refinement_logic (<[ key := v ]> s) = _advanced_refinement_logic s'.
Proof.
  intros Hf. split; [by apply advanced_refinement_logic_reads|].
  intros key v Hkey. apply advanced_refinement_logic_reads.
  by rewrite lookup_insert_ne.
Qed.

(** X4: non-empty errors take precedence in _check_iteration_limit: the
    answer is "error" whatever the count and the configuration hold.  On a
    well-typed state the three answers are told apart by the recorded errors
    and by the count against the configured ceiling. *)
Theorem check_iteration_limit_decision (s : State) :
  (∀ e l, s !! "errors" = Some (VList (e :: l)) →
     _check_iteration_limit s = Some "error")
  ∧ (well_typed s = true →
     (_check_iteration_limit s = Some "error" ↔ errors_of s ≠ [])
     ∧ (_check_iteration_limit s = Some "force_finalize"
        ↔ errors_of s = [] ∧ max_iterations_of s ≤ iteration_count_of s)
     ∧ (_check_iteration_limit s = Some "continue"
        ↔ errors_of s = [] ∧ iteration_count_of s < max_iterations_of s)).
Proof.
  split.
  - intros e l Hl. unfold _check_iteration_limit, state_get. by rewrite Hl.
  - intros Hwt.
    unfold _check_iteration_limit, max_iterations_of, iteration_count_of, errors_of.
    destruct (wt_errors _ Hwt) as [errs ->].
    destruct (wt_iteration_count _ Hwt) as [n ->].
    destruct (wt_config _ Hwt) as [c ->]. simpl.
    destruct errs as [|e errs]; simpl.
    + destruct (Z.leb_spec (max_iterations c) n);
        split_and!; split; try done; try lia; try (intros [_ ?]; lia);
        intros _; (split; [done|lia]).
    + split_and!; split; try done; intros [? _]; done.
Qed.

(** X5: on a well-typed state _error_recovery_logic answers "retry" exactly
    when fewer than three errors are recorded and the iteration count is
    below 2, also when no error is recorded at all; failing that it answers
    "partial_recovery" when an execution plan is present and "terminate"
    when none is. *)
Theorem error_recovery_logic_decision (s : State) :
  well_typed s = true →
  let retry := (length (errors_of s) < 3)%nat ∧ iteration_count_of s < 2 in
  (_error_recovery_logic s = Some "retry" ↔ retry)
  ∧ (_error_recovery_logic s = Some "partial_recovery"
     ↔ ¬ retry ∧ ∃ p, state_get_none s "execution_plan" = VPlan p)
  ∧ (_error_recovery_logic s = Some "terminate"
     ↔ ¬ retry ∧ state_get_none s "execution_plan" = VNone).
Proof.
  intros Hwt.
  unfold _error_recovery_logic, iteration_count_of, errors_of.
  destruct (wt_errors _ Hwt) as [errs ->].
  destruct (wt_iteration_count _ Hwt) as [n ->]. simpl.
  destruct (Z.ltb_spec (Z.of_nat (length errs)) 3) as [Hl | Hl]; simpl;
    [destruct (Z.ltb_spec n 2) as [Hn | Hn]; simpl|].
  - split_and!; split; try done; try (intros _; split; lia);
      intros [Hno _]; destruct Hno; split; lia.
  - destruct (wt_execution_plan _ Hwt) as [-> | [p ->]]; simpl;
      split_and!; split; try done; try (intros [_ ?]; lia);
      try (intros [_ [? ?]]; done); try (intros [_ ?]; done);
      intros _; (split; [lia|eauto]).
  - destruct (wt_execution_plan _ Hwt) as [-> | [p ->]]; simpl;
      split_and!; split; try done; try (intros [? _]; lia);
      try (intros [_ [? ?]]; done); try (intros [_ ?]; done);
      intros _; (split; [lia|eauto]).
Qed.

(** X6: on a well-typed state with configuration [c], _advanced_feedback_logic
    answers "get_feedback" when there is no task analysis, whatever the
    configuration; with an analysis it answers "auto_approve" exactly when
    the configuration allows it and the complexity score is below 5.0,
    "need_revision" exactly when that fails and the score is above 8.0, and
    "get_feedback" otherwise. *)
Theorem advanced_feedback_logic_decision (s : State) (c : PlannerConfig) :
  well_typed s = true →
  config_value s = VConfig c →
  (state_get_none s "task_analysis" = VNone →
   _advanced_feedback_logic s = Some "get_feedback")
  ∧ (∀ a, state_get_none s "task_analysis" = VAnalysis a →
       let simple :=
         auto_approve_simple_plans c = true
         ∧ PrimFloat.ltb (complexity_score a) 5.0%float = true in
       (_advanced_feedback_logic s = Some "auto_approve" ↔ simple)
       ∧ (_advanced_feedback_logic s = Some "need_revision"
          ↔ ¬ simple ∧ PrimFloat.ltb 8.0%float (complexity_score a) = true)
       ∧ (_advanced_feedback_logic s = Some "get_feedback"
          ↔ ¬ simple ∧ PrimFloat.ltb 8.0%float (complexity_score a) = false)).
Proof.
  intros Hwt Hc. unfold _advanced_feedback_logic. rewrite Hc. simpl. split.
  - intros ->. simpl. by rewrite andb_false_r.
  - intros a ->. simpl. rewrite andb_true_r.
    destruct (auto_approve_simple_plans c); simpl;
      destruct (PrimFloat.ltb (complexity_score a) 5) eqn:H5; simpl;
      destruct (PrimFloat.ltb 8 (complexity_score a)) eqn:H8; simpl;
      split_and!; split; try done; try tauto;
      try (intros [[] _]; done); try (intros [? ?]; done);
      try (intros _; split; [intros [? ?]; done|done]).
Qed.

(** X7: the thresholds of _advanced_feedback_logic are the constants 5.0 and
    8.0: of the configuration only auto_approve_simple_plans is consulted,
    so changing complexity_threshold, max_iterations or
    include_detailed_timeline never changes the answer. *)
Theorem advanced_feedback_logic_ignores_threshold (s : State) (c c' : PlannerConfig) :
  auto_approve_simple_plans c = auto_approve_simple_plans c' →
  _advanced_feedback_logic (<[ "config" := VConfig c ]> s)
  = _advanced_feedback_logic (<[ "config" := VConfig c' ]> s).
Proof.
  intros Hc. unfold _advanced_feedback_logic, config_value, state_get_none, state_get.
  rewrite !lookup_insert_eq. simpl. rewrite !lookup_insert_ne; [|done..].
  by rewrite Hc.
Qed.

End MoreRouters.

(** * What the helper nodes leave to the routers *)

Lemma check_iteration_limit_reads (s s' : State) :
  s !! "errors" = s' !! "errors" →
  s !! "iteration_count" = s' !! "iteration_count" →
  s !! "config" = s' !! "config" →
  _check_iteration_limit s = _check_iteration_limit s'.
Proof.
  intros He Hi Hc.
  unfold _check_iteration_limit, config_value, state_get_none, state_get.
  by rewrite He, Hi, Hc.
Qed.

Lemma error_recovery_logic_reads (s s' : State) :
  s !! "errors" = s' !! "errors" →
  s !! "iteration_count" = s' !! "iteration_count" →
  s !! "execution_plan" = s' !! "execution_plan" →
  _error_recovery_logic s = _error_recovery_logic s'.
Proof.
  intros He Hi Hp. unfold _error_recovery_logic, state_get_none, state_get.
  by rewrite He, Hi, Hp.
Qed.

Section MoreHelperNodes.
Context `{Imports}.

(** X8: on a well-typed state _handle_errors returns an update whose notes
    are the state's notes followed by two more, the first naming the number
    of recorded errors.  It does not write the errors: when
    update_state_metadata leaves errors, iteration_count, execution_plan and
    config alone, the merged state records the same errors, and
    _check_iteration_limit and _error_recovery_logic answer it as they
    answered the state before. *)
Theorem handle_errors_keeps_the_errors (s : State) :
  well_typed s = true →
  (∀ phase key,
     key ∈ [ "errors"; "iteration_count"; "execution_plan"; "config" ] →
     update_state_metadata s phase !! key = None) →
  ∃ partial notes,
    _handle_errors s = Some partial
    ∧ state_get s "processing_notes" (VList []) = VList notes
    ∧ partial !! "processing_notes"
      = Some (VList (notes ++
                [ VStr ("處理了 " +:+ pretty (Z.of_nat (length (errors_of s)))
                        +:+ " 個錯誤");
                  VStr "錯誤處理完成，流程終止" ]))
    ∧ errors_of (merge s partial) = errors_of s
    ∧ _check_iteration_limit (merge s partial) = _check_iteration_limit s
    ∧ _error_recovery_logic (merge s partial) = _error_recovery_logic s.
Proof.
  intros Hwt Hframe. unfold _handle_errors, errors_of.
  destruct (wt_errors _ Hwt) as [errs Herrs]. rewrite Herrs.
  destruct (wt_processing_notes _ Hwt) as [notes ->]. simpl.
  eexists _, _. split_and!; [done|done|by rewrite lookup_insert_eq|..].
  - rewrite state_get_merge_other; [by rewrite Herrs|].
    rewrite lookup_insert_ne; [|done]. apply Hframe. set_solver.
  - apply check_iteration_limit_reads; (rewrite merge_lookup_other; [done|]);
      (rewrite lookup_insert_ne; [|done]); apply Hframe; set_solver.
  - apply error_recovery_logic_reads; (rewrite merge_lookup_other; [done|]);
      (rewrite lookup_insert_ne; [|done]); apply Hframe; set_solver.
Qed.


(** X10: _assess_risks and _check_resources return an update on every state,
    each under a key of its own, identified_risks and available_resources,
    with three entries.  When add_processing_note writes neither key, a
    state into which both updates were merged holds both results, in
    whichever order they were merged. *)
Theorem branch_results_both_survive (s1 s2 acc : State) :
  (∀ s note key,
     key ∈ [ "identified_risks"; "available_resources" ] →
     add_processing_note s note !! key = None) →
  ∃ risk resource,
    _assess_risks s1 = Some risk
    ∧ _check_resources s2 = Some resource
    ∧ ∀ merged,
        merged = merge (merge acc risk) resource
        ∨ merged = merge (merge acc resource) risk →
        merged !! "identified_risks"
        = Some (VList [ VStr "時間風險"; VStr "技能風險"; VStr "資源風險" ])
        ∧ merged !! "available_resources"
          = Some (VList [ VStr "時間資源"; VStr "學習資源"; VStr "工具資源" ]).
Proof.
  intros Hframe. unfold _assess_risks, _check_resources.
  eexists _, _. split_and!; [done|done|].
  intros merged [-> | ->]; split.
  - rewrite merge_lookup_other.
    + apply merge_lookup_partial. by rewrite lookup_insert_eq.
    + rewrite lookup_insert_ne; [|done]. apply Hframe. set_solver.
  - apply merge_lookup_partial. by rewrite lookup_insert_eq.
  - apply merge_lookup_partial. by rewrite lookup_insert_eq.
  - rewrite merge_lookup_other.
    + apply merge_lookup_partial. by rewrite lookup_insert_eq.
    + rewrite lookup_insert_ne; [|done]. apply Hframe. set_solver.
Qed.

End MoreHelperNodes.

(** * The shape of the graphs *)

Lemma route_hops (g : StateGraph) name (s : State) evs t s' :
  route g name s = Some (evs, t, s') →
  (∀ x, x ∈ evs.*1 → rtc (edge_hop g) (Node name) (Node x))
  ∧ rtc (edge_hop g) (Node name) t.
Proof.
  unfold route. intros Hr.
  destruct (assoc name (graph_edges g)) as [e|] eqn:Hedge; simpl in Hr; [|done].
  destruct e as [t0 | router path_map | router targets].
  - injection Hr as <- <- <-. split; [by intros x ?%elem_of_nil|].
    apply rtc_once. eapply edge_hop_edge; [done|]. set_solver.
  - destruct (router s) as [label|]; simpl in Hr; [|done].
    destruct (assoc label path_map) as [t'|] eqn:Ht; simpl in Hr; [|done].
    injection Hr as <- <- <-. split; [by intros x ?%elem_of_nil|].
    apply rtc_once. eapply edge_hop_edge; [done|]. by eapply assoc_elem_of.
  - destruct (forallb _ _) eqn:Hin; [|done].
    destruct (fan_out g s s _) as [[evs0 s0]|] eqn:Hfan; simpl in Hr; [|done].
    destruct (join_of g _) as [t'|] eqn:Hjoin; simpl in Hr; [|done].
    injection Hr as <- <- <-.
    assert (∀ b, b ∈ router s → edge_hop g (Node name) (Node (send_node b)))
      as Hbranch.
    { intros b Hb. eapply edge_hop_edge; [done|]. simpl.
      apply list_elem_of_fmap. exists (send_node b). split; [done|].
      rewrite forallb_forall in Hin. apply list_elem_of_In, Hin in Hb.
      by apply bool_decide_eq_true in Hb. }
    split.
    + intros x Hx. rewrite (fan_out_names _ _ _ _ _ _ Hfan) in Hx.
      apply list_elem_of_fmap in Hx as (b & -> & Hb). by apply rtc_once, Hbranch.
    + unfold join_of in Hjoin. destruct (router s) as [|b sends]; [done|].
      destruct (assoc (send_node b) (graph_edges g)) as [[t0| |]|] eqn:Hb; try done.
      destruct (forallb _ sends); [|done]. injection Hjoin as ->.
      apply (rtc_l _ _ (Node (send_node b))); [apply Hbranch; constructor|].
      apply rtc_once. eapply edge_hop_edge; [done|]. set_solver.
Qed.

Lemma step_hops (g : StateGraph) name (s : State) :
  match step g name s with
  | Next evs t s' =>
      (∀ x, x ∈ evs.*1 → rtc (edge_hop g) (Node name) (Node x))
      ∧ rtc (edge_hop g) (Node name) t
  | Stop evs o => ∀ x, x ∈ evs.*1 → rtc (edge_hop g) (Node name) (Node x)
  end.
Proof.
  unfold step, unroutable.
  destruct (assoc name (graph_nodes g)) as [f|].
  - destruct (route g name _) as [[[evs t] s2]|] eqn:Hr.
    + destruct (route_hops _ _ _ _ _ _ Hr) as [Hevs Ht]. split; [|done].
      intros x [-> | Hx]%elem_of_cons; [done|by apply Hevs].
    + destruct (error_route g) as [handler|] eqn:Herr.
      * split; [by intros x ->%list_elem_of_singleton|].
        by apply rtc_once, edge_hop_error.
      * by intros x ->%list_elem_of_singleton.
  - destruct (error_route g) as [handler|] eqn:Herr.
    + split; [by intros x ?%elem_of_nil|]. by apply rtc_once, edge_hop_error.
    + by intros x ?%elem_of_nil.
Qed.

Lemma run_out (g : StateGraph) name (s : State) :
  run g 0 (Node name) s = limit_exceeded g s.
Proof. done. Qed.

(** A run visits only what the hops of the graph reach from where it
    starts. *)
Lemma visited_hops (g : StateGraph) (limit : nat) (current : target) (s : State)
    (x : string) :
  x ∈ visited (run g limit current s) → rtc (edge_hop g) current (Node x).
Proof.
  unfold visited. revert current s.
  induction limit as [|limit IH]; intros current s.
  - destruct current as [name|]; [|rewrite run_end; by intros ?%elem_of_nil].
    rewrite run_out. unfold limit_exceeded.
    destruct (error_route g) as [handler|] eqn:Herr; [|by intros ?%elem_of_nil].
    destruct (assoc handler _); simpl; [|by intros ?%elem_of_nil].
    intros ->%list_elem_of_singleton. by apply rtc_once, edge_hop_error.
  - destruct current as [name|]; [|rewrite run_end; by intros ?%elem_of_nil].
    rewrite run_node.
    pose proof (step_hops g name s) as Hstep.
    destruct (step g name s) as [evs t s'|evs o].
    + destruct Hstep as [Hevs Ht]. specialize (IH t s').
      destruct (run g limit t s') as [evs' o]. simpl in *.
      rewrite fmap_app. intros [Hx | Hx]%elem_of_app; [by apply Hevs|].
      etrans; [exact Ht|by apply IH].
    + simpl. apply Hstep.
Qed.

Lemma hops_closed (g : StateGraph) (inside : list target) (current x : target) :
  current ∈ inside →
  (∀ a b, edge_hop g a b → b ∈ inside) →
  rtc (edge_hop g) current x → x ∈ inside.
Proof.
  intros Hin Hclosed Hrtc. induction Hrtc as [|a b c Hab _ IH]; [done|].
  apply IH. by eapply Hclosed.
Qed.

Lemma run_step (g : StateGraph) (limit : nat) name (s : State) evs t s' :
  step g name s = Next evs t s' →
  run g (S limit) (Node name) s
  = (evs ++ (run g limit t s').1, (run g limit t s').2).
Proof.
  intros Hstep. rewrite run_node, Hstep. by destruct (run g limit t s').
Qed.

Section Shape.
Context `{Imports}.

(** X11: the standard graph registers error_handler and gives it an edge to
    END, but no edge, label or error route leads to it: no run of the
    standard graph, from any state and under any iteration ceiling, invokes
    _handle_errors. *)
Theorem error_handler_is_unreachable :
  registered planner_builder "error_handler" = true
  ∧ assoc "error_handler" (graph_edges planner_builder) = Some (Edge END)
  ∧ (∀ source e,
       (source, e) ∈ graph_edges planner_builder →
       Node "error_handler" ∉ edge_targets e)
  ∧ (∀ limit s, "error_handler" ∉ visited (invoke planner_builder limit s)).
Proof.
  split_and!; [done|done|..].
  - intros source e Hin.
    repeat (apply elem_of_cons in Hin as [[= -> ->] | Hin]; [simpl; set_solver|]).
    by apply elem_of_nil in Hin.
  - intros limit s Hv. apply visited_hops in Hv.
    apply (hops_closed planner_builder
             [ Node "analyze_goal"; Node "breakdown_tasks"; Node "evaluate_tasks";
               Node "create_plan"; Node "get_feedback"; Node "refine_plan";
               Node "finalize"; END ]) in Hv; [set_solver|simpl; set_solver|].
    intros a b [name e t He Ht | name handler Herr]; [|done].
    assoc_cases He; injection He as <-; simpl in Ht; set_solver.
Qed.

(** X12: none of the three builders of graph.py has a structural defect, a
    node registered twice, an unregistered entry or target, or two outgoing
    definitions from one node, whatever the imported node functions and
    routers are; so each of the three create functions returns its graph. *)
Theorem builders_have_no_defect (p : problem) :
  ¬ defect planner_builder p
  ∧ ¬ defect simple_planner_builder p
  ∧ ¬ defect advanced_planner_builder p
  ∧ create_planner_graph = inr planner_builder
  ∧ create_simple_planner_graph = inr simple_planner_builder
  ∧ create_advanced_planner_graph = inr advanced_planner_builder.
Proof.
  split_and!; try (by apply compile_accepts);
    intros Hd%validate_spec; by apply elem_of_nil in Hd.
Qed.

Lemma restart_cycle_runs (limit : nat) :
  Forall keeps_restarting [ breakdown_tasks; evaluate_tasks; create_plan; get_feedback ] →
  ∀ s name,
    restarting s →
    name ∈ [ "get_feedback"; "breakdown_tasks"; "evaluate_tasks"; "create_plan" ] →
    (run advanced_planner_builder limit (Node name) s).2 = Failed IterationLimitExceeded
    ∧ visited (run advanced_planner_builder limit (Node name) s)
      ⊆ [ "get_feedback"; "breakdown_tasks"; "evaluate_tasks"; "create_plan" ].
Proof.
  intros Hnodes.
  repeat (apply Forall_cons_1 in Hnodes as [? Hnodes]).
  induction limit as [|limit IH]; intros s name Hs Hname.
  - split; [done|]. rewrite run_out. unfold visited, limit_exceeded. simpl. set_solver.
  - repeat (apply elem_of_cons in Hname as [-> | Hname]);
      [| | | |by apply elem_of_nil in Hname].
    + assert (restarting (merge s (call_node get_feedback "get_feedback" s)))
        as (Hr & Hp & Hf) by auto.
      erewrite run_step;
        [|eapply step_conditional; [reflexivity|reflexivity|exact Hr|reflexivity]].
      destruct (IH (merge s (call_node get_feedback "get_feedback" s))
                  "breakdown_tasks") as [Ho Hv]; [done|set_solver|].
      split; [done|]. unfold visited in *. simpl in *. set_solver.
    + assert (restarting (merge s (call_node breakdown_tasks "breakdown_tasks" s)))
        as (Hr & Hp & Hf) by auto.
      erewrite run_step;
        [|eapply step_conditional; [reflexivity|reflexivity|exact Hp|reflexivity]].
      destruct (IH (merge s (call_node breakdown_tasks "breakdown_tasks" s))
                  "evaluate_tasks") as [Ho Hv]; [done|set_solver|].
      split; [done|]. unfold visited in *. simpl in *. set_solver.
    + assert (restarting (merge s (call_node evaluate_tasks "evaluate_tasks" s)))
        as Hs' by auto.
      erewrite run_step; [|by eapply step_edge].
      destruct (IH (merge s (call_node evaluate_tasks "evaluate_tasks" s))
                  "create_plan") as [Ho Hv]; [done|set_solver|].
      split; [done|]. unfold visited in *. simpl in *. set_solver.
    + assert (restarting (merge s (call_node create_plan "create_plan" s)))
        as (Hr & Hp & Hf) by auto.
      erewrite run_step;
        [|eapply step_conditional; [reflexivity|reflexivity|exact Hf|reflexivity]].
      destruct (IH (merge s (call_node create_plan "create_plan" s))
                  "get_feedback") as [Ho Hv]; [done|set_solver|].
      split; [done|]. unfold visited in *. simpl in *. set_solver.
Qed.

(** X13: the restart cycle of the advanced graph, from get_feedback back to
    breakdown_tasks and on through evaluate_tasks and create_plan, does not
    pass state_monitor, the one node followed by _check_iteration_limit.
    While the four nodes on it keep the routers' answers as they are, a run
    that enters it never reaches END and never invokes state_monitor,
    whatever the iteration count and the configured max_iterations are: it
    ends with the executor's own iteration limit. *)
Theorem restart_cycle_is_not_monitored (limit : nat) (s : State) :
  Forall keeps_restarting [ breakdown_tasks; evaluate_tasks; create_plan; get_feedback ] →
  restarting s →
  (run advanced_planner_builder limit (Node "get_feedback") s).2
  = Failed IterationLimitExceeded
  ∧ "state_monitor" ∉ visited (run advanced_planner_builder limit (Node "get_feedback") s)
  ∧ "finalize" ∉ visited (run advanced_planner_builder limit (Node "get_feedback") s).
Proof.
  intros Hnodes Hs.
  destruct (restart_cycle_runs limit Hnodes s "get_feedback" Hs) as [Ho Hv];
    [set_solver|].
  split_and!; [done|..]; intros Hin%Hv; set_solver.
Qed.

End Shape.

(** * Passes through the simple and the advanced graph *)

Section Passes.
Context `{Imports}.

Lemma monitor_state_update (s : State) :
  well_typed s = true →
  ∃ notes, _monitor_state s
           = Some (<[ "processing_notes" := notes ]> (update_state_metadata s "monitored")).
Proof.
  intros Hwt. unfold _monitor_state.
  destruct (wt_iteration_count _ Hwt) as [n ->].
  destruct (wt_config _ Hwt) as [c ->].
  destruct (wt_processing_notes _ Hwt) as [notes ->]. simpl. by eexists.
Qed.

(** X21: a run of the simple graph under an executor limit of at least five
    invokes the five nodes once each, in the order analyze_goal,
    breakdown_tasks, evaluate_tasks, create_plan, finalize, whatever the
    node functions do, and returns; the state returned is approved, or else
    records the fault of _finalize_plan among its errors. *)
Theorem simple_planner_visits_every_node (limit : nat) (s : State) :
  (5 ≤ limit)%nat →
  visited (invoke simple_planner_builder limit s)
  = [ "analyze_goal"; "breakdown_tasks"; "evaluate_tasks"; "create_plan"; "finalize" ]
  ∧ ∃ sf,
      (invoke simple_planner_builder limit s).2 = Returned Terminated_success sf
      ∧ (sf !! "is_plan_approved" = Some (VBool true)
         ∨ VStr "node fault: finalize" ∈ errors_of sf).
Proof.
  intros Hlimit. do 5 (destruct limit as [|limit]; [lia|]).
  unfold invoke, visited. simpl graph_entry.
  do 5 (erewrite run_step; [|by eapply step_edge]).
  rewrite run_end. split; [done|].
  eexists. split; [done|].
  match goal with
  | |- context [call_node _finalize_plan "finalize" ?before] =>
      generalize before; intros s4
  end.
  unfold call_node. destruct (_finalize_plan s4) as [partial|] eqn:Hfinal.
  - left. destruct (finalize_plan_inv _ _ Hfinal) as (notes & final & _ & _ & ->).
    apply merge_lookup_partial. by rewrite lookup_insert_eq.
  - right. rewrite errors_of_error_update. set_solver.
Qed.

(** X22: in the advanced graph a pass through state_monitor enforces the
    ceiling.  On a well-typed state, when update_state_metadata leaves
    errors, iteration_count and config alone, the pass invokes
    _monitor_state once and goes on to error_handler when errors are
    recorded, to finalize when there are none and the count has reached the
    configured max_iterations, and back to get_feedback only while the
    count is below it. *)
Theorem state_monitor_enforces_the_ceiling (s : State) :
  well_typed s = true →
  (∀ phase key,
     key ∈ [ "errors"; "iteration_count"; "config" ] →
     update_state_metadata s phase !! key = None) →
  ∃ s1 t,
    step advanced_planner_builder "state_monitor" s = Next [ ("state_monitor", s1) ] t s1
    ∧ (errors_of s ≠ [] → t = Node "error_handler")
    ∧ (errors_of s = [] → max_iterations_of s ≤ iteration_count_of s →
       t = Node "finalize")
    ∧ (errors_of s = [] → iteration_count_of s < max_iterations_of s →
       t = Node "get_feedback").
Proof.
  intros Hwt Hframe.
  destruct (monitor_state_update s Hwt) as [notes Hmonitor].
  assert (_check_iteration_limit (merge s (call_node _monitor_state "state_monitor" s))
          = _check_iteration_limit s) as Hsame.
  { unfold call_node. rewrite Hmonitor.
    apply check_iteration_limit_reads; (rewrite merge_lookup_other; [done|]);
      (rewrite lookup_insert_ne; [|done]); apply Hframe; set_solver. }
  revert Hsame.
  unfold _check_iteration_limit at 2. unfold max_iterations_of, iteration_count_of, errors_of.
  destruct (wt_errors _ Hwt) as [errs ->].
  destruct (wt_iteration_count _ Hwt) as [n ->].
  destruct (wt_config _ Hwt) as [c ->]. simpl.
  destruct errs as [|e errs]; simpl;
    [destruct (Z.leb_spec (max_iterations c) n)|]; intros Hsame;
    eexists _, _;
    (split; [eapply step_conditional; [reflexivity|reflexivity|exact Hsame|reflexivity]|]);
    split_and!; try done; intros; lia.
Qed.

(** X23: when none of the four node functions raises, the state that
    step_by_step_example of examples/simple_demo.py builds by hand is the
    state the simple graph reaches after create_plan: run_simple_planner on
    the same goal goes through it as its fourth state, invokes finalize on
    it and returns the result. *)
Theorem step_by_step_example_follows_the_simple_graph (state : State) (limit : nat) :
  step_by_step_example = Some state →
  (5 ≤ limit)%nat →
  ∃ r,
    run_simple_planner limit "建立個人健身計劃" = Some r
    ∧ history r !! 3%nat = Some state
    ∧ r.2 = Returned Terminated_success
              (merge state (call_node _finalize_plan "finalize" state)).
Proof.
  intros Hexample Hlimit. do 5 (destruct limit as [|limit]; [lia|]).
  unfold step_by_step_example in Hexample.
  destruct (analyze_goal _) as [u1|] eqn:H1; simpl in Hexample; [|done].
  destruct (breakdown_tasks _) as [u2|] eqn:H2; simpl in Hexample; [|done].
  destruct (evaluate_tasks _) as [u3|] eqn:H3; simpl in Hexample; [|done].
  destruct (create_plan _) as [u4|] eqn:H4; simpl in Hexample; [|done].
  injection Hexample as <-.
  unfold run_simple_planner, create_simple_planner_graph.
  rewrite compile_accepts; [|done].
  eexists. split; [done|].
  unfold invoke, history. simpl graph_entry.
  do 5 (erewrite run_step; [|by eapply step_edge]).
  rewrite run_end. unfold call_node. rewrite H1, H2, H3, H4. done.
Qed.

End Passes.

(** * The description of a graph *)

(** Split the membership of a line in a literal list of lines into its
    cases, and close the ones where the two lines differ. *)
Ltac line_cases H :=
  repeat (apply elem_of_cons in H as [H | H]; [try discriminate H|]);
  try (by apply elem_of_nil in H).

Section VisualizeGraph.
Context `{Imports}.
Context (len_nodes len_edges : StateGraph → option Z).

Lemma graph_of_type_builder (graph_type : string) :
  graph_of_type graph_type
  = inr (if String.eqb graph_type "simple" then simple_planner_builder
         else if String.eqb graph_type "advanced" then advanced_planner_builder
         else planner_builder).
Proof.
  unfold graph_of_type.
  destruct (String.eqb graph_type "simple"); [by apply compile_accepts|].
  destruct (String.eqb graph_type "advanced"); by apply compile_accepts.
Qed.

(** X14: for every graph type visualize_graph builds a graph, the standard
    one for a type other than "simple" and "advanced", and then raises
    exactly when reading graph.nodes or graph.edges of the compiled graph
    raises; with a compiled graph that lacks one of the two attributes it
    returns no text for any graph type.  A text it returns gives the two
    lengths, reports parallel support exactly when the graph it describes
    has a fan-out edge, and reports complete error handling only for a
    graph that registers error_handler; for a graph type outside the three
    names it reports basic error handling although the graph described is
    the standard one, which registers error_handler. *)
Theorem visualize_graph_flags (graph_type : string) :
  ∃ graph,
    graph_of_type graph_type = inr graph
    ∧ (graph_type ∉ [ "simple"; "advanced" ] → graph = planner_builder)
    ∧ (visualize_graph len_nodes len_edges graph_type = None
       ↔ len_nodes graph = None ∨ len_edges graph = None)
    ∧ ∀ text,
        visualize_graph len_nodes len_edges graph_type = Some text →
        ∃ nodes edges,
          len_nodes graph = Some nodes
          ∧ len_edges graph = Some edges
          ∧ text = py_lines (visualize_lines graph_type nodes edges)
          ∧ ("- 節點數量: " +:+ pretty nodes) ∈ visualize_lines graph_type nodes edges
          ∧ ("- 邊數量: " +:+ pretty edges) ∈ visualize_lines graph_type nodes edges
          ∧ ("- 支持並行: 是" ∈ visualize_lines graph_type nodes edges
             ↔ ∃ source router targets,
                 assoc source (graph_edges graph) = Some (FanOutEdges router targets))
          ∧ ("- 錯誤處理: 完整" ∈ visualize_lines graph_type nodes edges →
             registered graph "error_handler" = true)
          ∧ (graph_type ∉ [ "simple"; "advanced"; "standard" ] →
             "- 錯誤處理: 基本" ∈ visualize_lines graph_type nodes edges
             ∧ registered graph "error_handler" = true).
Proof.
  eexists. split; [apply graph_of_type_builder|].
  unfold visualize_graph. rewrite graph_of_type_builder.
  split_and!.
  - intros Hnot.
    destruct (String.eqb_spec graph_type "simple") as [-> | _]; [set_solver|].
    destruct (String.eqb_spec graph_type "advanced") as [-> | _]; [set_solver|done].
  - destruct (len_nodes _) as [nodes|]; simpl; [|by split; [left|]].
    destruct (len_edges _) as [edges|]; simpl; [|by split; [right|]].
    split; [done|by intros [?|?]].
  - intros text.
    destruct (len_nodes _) as [nodes|]; simpl; [|done].
    destruct (len_edges _) as [edges|]; simpl; [|done].
    intros [= <-]. exists nodes, edges.
    split_and!; [done|done|done|unfold visualize_lines; set_solver
                |unfold visualize_lines; set_solver|..];
      unfold visualize_lines;
      (destruct (String.eqb_spec graph_type "simple") as [-> | Hsimple];
       [|destruct (String.eqb_spec graph_type "advanced") as [-> | Hadvanced]]).
    + split.
      * intros Hin. simpl in Hin. line_cases Hin.
      * intros (source & router & targets & He). assoc_cases He.
    + split; [|intros _; simpl; set_solver].
      intros _. by exists "parallel_analysis", _distribute_parallel_tasks,
                    [ "risk_assessment"; "resource_check" ].
    + split.
      * intros Hin. simpl in Hin. line_cases Hin.
      * intros (source & router & targets & He). assoc_cases He.
    + intros Hin. simpl in Hin. line_cases Hin.
    + done.
    + done.
    + intros Hnot. set_solver.
    + intros Hnot. set_solver.
    + intros Hnot. split; [|done].
      rewrite bool_decide_eq_false_2; [simpl; set_solver|set_solver].
Qed.

End VisualizeGraph.

(** * Printing the trace *)

Lemma mapM_py_str_strings (strs : list string) :
  mapM py_str (VStr <$> strs) = Some strs.
Proof. apply mapM_Some. induction strs; by constructor. Qed.

Lemma py_last_n_fmap {A B : Type} (f : A → B) (n : nat) (l : list A) :
  py_last_n n (f <$> l) = f <$> py_last_n n l.
Proof. unfold py_last_n. by rewrite fmap_drop, length_fmap. Qed.

Lemma py_last_n_suffix {A : Type} (n : nat) (l : list A) :
  py_last_n n l `suffix_of` l ∧ length (py_last_n n l) = (length l `min` n)%nat.
Proof.
  unfold py_last_n. split; [apply suffix_drop|]. rewrite length_drop. lia.
Qed.

(** X15: on a well-typed result print_execution_trace of main.py prints
    4 + n strings for n processing notes: the two of the section header,
    the current phase, every note of the result in stored order, each
    behind a dash, and the closing remark; no note is left out or
    reordered. *)
Theorem print_execution_trace_shows_every_note (result : State) :
  well_typed result = true →
  ∃ out notes phase,
    print_execution_trace result = Some out
    ∧ state_get result "processing_notes" (VList []) = VList (VStr <$> notes)
    ∧ state_get result "current_phase" (VStr "unknown") = VStr phase
    ∧ length out = (4 + length notes)%nat
    ∧ take 2 out = print_section_header "LangGraph執行軌跡"
    ∧ out !! 2%nat = Some ("   最終階段: " +:+ phase)
    ∧ (∀ i note, notes !! i = Some note →
         out !! (3 + i)%nat = Some ("   - " +:+ note)).
Proof.
  intros Hwt.
  destruct (wt_processing_notes _ Hwt) as [notes Hnotes].
  destruct (wt_current_phase _ Hwt) as [phase Hphase].
  eexists _, notes, phase. unfold print_execution_trace.
  rewrite (get_execution_trace_value result (VStr <$> notes) notes phase);
    [|by rewrite Hnotes|apply mapM_py_str_strings|by rewrite Hphase].
  csimpl. split_and!; [done|done|done|..].
  - rewrite !length_cons, length_app, !length_fmap. simpl. lia.
  - done.
  - done.
  - intros i note Hi. csimpl.
    rewrite lookup_app_l; [|rewrite !length_fmap; by eapply lookup_lt_Some].
    by rewrite <- list_fmap_compose, list_lookup_fmap, Hi.
Qed.

(** X16: on a well-typed result _show_execution_trace of
    examples/interactive_demo.py prints, in this order, the heading, the
    line of the current phase and one line per note, which are the trace,
    the current phase a second time and, when there are notes, a notes
    block: a heading and the last five notes, or all of them when there are
    fewer, in stored order.  With no notes the block is left out. *)
Theorem show_execution_trace_shows_last_notes (result : State) :
  well_typed result = true →
  ∃ out notes phase,
    _show_execution_trace result = Some out
    ∧ state_get result "processing_notes" (VList []) = VList (VStr <$> notes)
    ∧ state_get result "current_phase" (VStr "unknown") = VStr phase
    ∧ out = [ newline +:+ "🔍 LangGraph執行軌跡:"; "   最終階段: " +:+ phase ]
            ++ ((λ note, "   - " +:+ note) <$> notes)
            ++ [ newline +:+ "📍 最終階段: " +:+ phase ]
            ++ match notes with
               | [] => []
               | _ :: _ => (newline +:+ "📝 處理筆記:")
                           :: ((λ note, "   • " +:+ note) <$> py_last_n 5 notes)
               end
    ∧ py_last_n 5 notes `suffix_of` notes
    ∧ length (py_last_n 5 notes) = (length notes `min` 5)%nat.
Proof.
  intros Hwt.
  destruct (wt_processing_notes _ Hwt) as [notes Hnotes].
  destruct (wt_current_phase _ Hwt) as [phase Hphase].
  destruct (py_last_n_suffix 5 notes) as [Hsuffix Hlen].
  unfold _show_execution_trace.
  rewrite (get_execution_trace_value result (VStr <$> notes) notes phase);
    [|by rewrite Hnotes|apply mapM_py_str_strings|by rewrite Hphase].
  csimpl. rewrite Hphase, Hnotes. csimpl.
  destruct notes as [|note notes]; csimpl.
  { eexists _, [], phase. by split_and!. }
  change (VStr note :: (VStr <$> notes)) with (VStr <$> (note :: notes)).
  rewrite (py_last_n_fmap VStr 5 (note :: notes)), mapM_py_str_strings. csimpl.
  eexists _, (note :: notes), phase.
  split_and!; [done|done|done| |done|done].
  csimpl. do 2 f_equal. by rewrite <- list_fmap_compose.
Qed.

(** * The custom optimization node *)

Section SortByKey.
Context {A : Type} (key : A → Z).

Lemma insert_by_key_perm (x : A) (l : list A) : insert_by_key key x l ≡ₚ x :: l.
Proof.
  induction l as [|y l IH]; simpl; [done|].
  destruct (key y <? key x); [|done]. rewrite IH. apply Permutation_swap.
Qed.

Lemma sort_by_key_perm (l : list A) : sort_by_key key l ≡ₚ l.
Proof.
  induction l as [|x l IH]; simpl; [done|]. by rewrite insert_by_key_perm, IH.
Qed.

Lemma insert_by_key_sorted (x : A) (l : list A) :
  StronglySorted (λ a b, key a ≤ key b) l →
  StronglySorted (λ a b, key a ≤ key b) (insert_by_key key x l).
Proof.
  induction 1 as [|y l Hs IH Hy]; simpl; [by repeat constructor|].
  destruct (Z.ltb_spec (key y) (key x)).
  - constructor; [done|]. rewrite insert_by_key_perm. constructor; [lia|done].
  - constructor; [by constructor|]. constructor; [lia|].
    eapply Forall_impl; [exact Hy|]. intros z Hz. simpl in *. lia.
Qed.

Lemma sort_by_key_sorted (l : list A) :
  StronglySorted (λ a b, key a ≤ key b) (sort_by_key key l).
Proof.
  induction l as [|x l IH]; simpl; [constructor|]. by apply insert_by_key_sorted.
Qed.

(** The sort is stable: elements with the same key keep their order. *)
Lemma insert_by_key_stable (k : Z) (x : A) (l : list A) :
  filter (λ a, key a = k) (insert_by_key key x l) = filter (λ a, key a = k) (x :: l).
Proof.
  induction l as [|y l IH]; simpl; [done|].
  destruct (Z.ltb_spec (key y) (key x)); [|done].
  rewrite !filter_cons, IH, !filter_cons.
  repeat case_decide; try lia; done.
Qed.

Lemma sort_by_key_stable (k : Z) (l : list A) :
  filter (λ a, key a = k) (sort_by_key key l) = filter (λ a, key a = k) l.
Proof.
  induction l as [|x l IH]; simpl; [done|].
  by rewrite insert_by_key_stable, !filter_cons, IH.
Qed.

Context `{EqDecision A}.

Lemma py_remove_perm (x : A) (l k : list A) : py_remove x l = Some k → l ≡ₚ x :: k.
Proof.
  revert k. induction l as [|y l IH]; intros k; simpl; [done|].
  destruct (decide (y = x)) as [-> | Hne]; [by intros [= ->]|].
  destruct (py_remove x l) as [k'|]; simpl; [|done].
  intros [= <-]. rewrite (IH k' eq_refl). apply Permutation_swap.
Qed.

Lemma py_remove_elem (x : A) (l : list A) : x ∈ l → is_Some (py_remove x l).
Proof.
  induction l as [|y l IH]; simpl; [by intros ?%elem_of_nil|].
  intros Hin. destruct (decide (y = x)) as [-> | Hne]; [by eexists|].
  apply elem_of_cons in Hin as [-> | Hin]; [done|].
  destruct (IH Hin) as [k ->]. by eexists.
Qed.

Lemma py_remove_length (x : A) (l k : list A) :
  py_remove x l = Some k → length l = S (length k).
Proof. intros Hr%py_remove_perm. by rewrite Hr. Qed.

(** Taking the head of the sorted list out of the list leaves a list that
    sorts to the tail. *)
Lemma sort_by_key_head_remove (l : list A) (x : A) (rest k : list A) :
  sort_by_key key l = x :: rest →
  py_remove x l = Some k →
  sort_by_key key k = rest.
Proof.
  revert x rest k. induction l as [|a l IH]; intros x rest k; simpl; [done|].
  destruct (sort_by_key key l) as [|m r] eqn:Hsort; simpl.
  - intros [= <- <-]. rewrite decide_True; [|done]. intros [= <-].
    destruct l as [|b l]; [done|].
    pose proof (sort_by_key_perm (b :: l)) as Hp. rewrite Hsort in Hp.
    by apply Permutation_nil_cons in Hp.
  - destruct (Z.ltb_spec (key m) (key a)) as [Hlt | Hge].
    + intros [= <- <-]. rewrite decide_False; [|intros ->; lia].
      destruct (py_remove m l) as [k'|] eqn:Hk'; simpl; [|done].
      intros [= <-]. simpl. by rewrite (IH m r k' eq_refl Hk').
    + intros [= <- <-]. rewrite decide_True; [|done]. by intros [= <-].
Qed.

End SortByKey.

Section CustomNodeProperties.
Context {Task : Type} `{!TaskModel Task}.

Lemma optimize_loop_unfold (fuel : nat) (optimized_tasks : list Task) first rest :
  optimize_loop (S fuel) optimized_tasks (first :: rest)
  = match
      sort_by_key difficulty_key
        match List.filter (dependencies_met optimized_tasks) (first :: rest) with
        | [] => [first]
        | _ :: _ => List.filter (dependencies_met optimized_tasks) (first :: rest)
        end
    with
    | [] => None
    | next_task :: _ =>
        remaining_tasks ← py_remove next_task (first :: rest);
        optimize_loop fuel (optimized_tasks ++ [next_task]) remaining_tasks
    end.
Proof. reflexivity. Qed.

Lemma dependencies_met_spec (optimized_tasks : list Task) (task : Task) :
  dependencies_met optimized_tasks task = true
  ↔ ∀ dep_id, dep_id ∈ task_prerequisites task → dep_id ∈ task_id <$> optimized_tasks.
Proof.
  unfold dependencies_met. rewrite forallb_forall. split.
  - intros Hall dep_id Hin. apply list_elem_of_In, Hall in Hin.
    by apply bool_decide_eq_true in Hin.
  - intros Hall dep_id Hin. apply bool_decide_eq_true, Hall. by apply list_elem_of_In.
Qed.

(** Every pass of the loop finds a next task among the remaining ones; it
    is a ready one whenever some task is ready. *)
Lemma pick_next (optimized_tasks : list Task) first rest :
  ∃ next_task others remaining_tasks,
    sort_by_key difficulty_key
      match List.filter (dependencies_met optimized_tasks) (first :: rest) with
      | [] => [first]
      | _ :: _ => List.filter (dependencies_met optimized_tasks) (first :: rest)
      end
    = next_task :: others
    ∧ py_remove next_task (first :: rest) = Some remaining_tasks
    ∧ first :: rest ≡ₚ next_task :: remaining_tasks
    ∧ (List.filter (dependencies_met optimized_tasks) (first :: rest) ≠ [] →
       dependencies_met optimized_tasks next_task = true).
Proof.
  set (ready_tasks := List.filter (dependencies_met optimized_tasks) (first :: rest)).
  set (chosen := match ready_tasks with [] => [first] | _ :: _ => ready_tasks end).
  assert (∀ t, t ∈ chosen →
               t ∈ first :: rest
               ∧ (ready_tasks ≠ [] → dependencies_met optimized_tasks t = true))
    as Hchosen.
  { intros t Ht. subst chosen. destruct ready_tasks as [|r rs] eqn:Hready.
    - apply list_elem_of_singleton in Ht as ->. split; [set_solver|done].
    - rewrite <- Hready in Ht. subst ready_tasks.
      apply list_elem_of_In, filter_In in Ht as [Hin Hmet].
      split; [by apply list_elem_of_In|done]. }
  assert (chosen ≠ []) as Hne by (subst chosen; by destruct ready_tasks).
  pose proof (sort_by_key_perm difficulty_key chosen) as Hperm.
  destruct (sort_by_key difficulty_key chosen) as [|next_task others] eqn:Hsort.
  { by apply Permutation_nil in Hperm. }
  assert (next_task ∈ chosen) as Hin by (rewrite <- Hperm; set_solver).
  destruct (Hchosen _ Hin) as [Hrem Hmet].
  destruct (py_remove_elem next_task _ Hrem) as [remaining_tasks Hr].
  exists next_task, others, remaining_tasks.
  split_and!; [done|done|by apply py_remove_perm|done].
Qed.

Lemma optimize_loop_permutes (fuel : nat) (optimized_tasks remaining_tasks : list Task) :
  (length remaining_tasks ≤ fuel)%nat →
  ∃ out,
    optimize_loop fuel optimized_tasks remaining_tasks = Some out
    ∧ out ≡ₚ optimized_tasks ++ remaining_tasks.
Proof.
  revert optimized_tasks remaining_tasks.
  induction fuel as [|fuel IH]; intros optimized_tasks remaining_tasks Hlen.
  - destruct remaining_tasks; [|simpl in Hlen; lia].
    eexists. split; [done|]. by rewrite app_nil_r.
  - destruct remaining_tasks as [|first rest].
    { eexists. split; [done|]. by rewrite app_nil_r. }
    destruct (pick_next optimized_tasks first rest)
      as (next_task & others & remaining & Hsort & Hremove & Hperm & _).
    rewrite optimize_loop_unfold, Hsort, Hremove. simpl.
    destruct (IH (optimized_tasks ++ [next_task]) remaining) as (out & Hout & Hp).
    { apply Permutation_length in Hperm. simpl in *. lia. }
    exists out. split; [done|]. by rewrite Hp, Hperm, <- app_assoc.
Qed.

Lemma optimize_loop_fuel (fuel : nat) (optimized_tasks remaining_tasks : list Task) :
  (length remaining_tasks ≤ fuel)%nat →
  optimize_loop fuel optimized_tasks remaining_tasks
  = optimize_loop (length remaining_tasks) optimized_tasks remaining_tasks.
Proof.
  revert optimized_tasks remaining_tasks.
  induction fuel as [|fuel IH]; intros optimized_tasks remaining_tasks Hlen.
  - by destruct remaining_tasks; [|simpl in Hlen; lia].
  - destruct remaining_tasks as [|first rest]; [done|].
    destruct (pick_next optimized_tasks first rest)
      as (next_task & others & remaining & Hsort & Hremove & Hperm & _).
    change (length (first :: rest)) with (S (length rest)).
    rewrite !optimize_loop_unfold, Hsort, Hremove. simpl.
    apply Permutation_length in Hperm. simpl in Hperm.
    rewrite IH; [|simpl in Hlen; lia]. f_equal. lia.
Qed.

(** X17: custom_optimization_node returns on every list of subtasks,
    cyclic prerequisites included: the loop ends within as many passes as
    there are subtasks, and the optimized list is a rearrangement of the
    subtasks, none lost and none repeated; the notes are the state's notes
    followed by one. *)
Theorem custom_optimization_node_permutes (subtasks : list Task)
    (processing_notes : list string) :
  ∃ optimized_tasks,
    custom_optimization_node subtasks processing_notes
    = Some (optimized_tasks, processing_notes ++ [ "完成任務順序優化" ])
    ∧ optimized_tasks ≡ₚ subtasks
    ∧ ∀ fuel, (length subtasks ≤ fuel)%nat →
        optimize_loop fuel [] subtasks = Some optimized_tasks.
Proof.
  destruct (optimize_loop_permutes (length subtasks) [] subtasks) as (out & Hout & Hp);
    [done|].
  exists out. unfold custom_optimization_node. rewrite Hout. simpl.
  split_and!; [done|done|].
  intros fuel Hfuel. by rewrite optimize_loop_fuel.
Qed.

Lemma dependency_ordered_mono (placed placed' : list string) (l : list Task) :
  placed ⊆ placed' → dependency_ordered placed l → dependency_ordered placed' l.
Proof.
  revert placed placed'. induction l as [|t l IH]; intros placed placed' Hsub; simpl; [done|].
  intros [Ht Hl]. split; [set_solver|]. eapply IH; [|exact Hl]. set_solver.
Qed.

Lemma dependency_ordered_remove (placed : list string) (l1 : list Task) x l2 :
  dependency_ordered placed (l1 ++ x :: l2) →
  dependency_ordered (placed ++ [task_id x]) (l1 ++ l2).
Proof.
  revert placed. induction l1 as [|y l1 IH]; intros placed; simpl.
  - by intros [_ Hl2].
  - intros [Hy Hrest]. split; [set_solver|].
    eapply dependency_ordered_mono; [|apply IH, Hrest]. set_solver.
Qed.

Lemma dependency_ordered_snoc (placed : list string) (l : list Task) x :
  dependency_ordered placed l →
  (∀ dep_id, dep_id ∈ task_prerequisites x → dep_id ∈ placed ++ (task_id <$> l)) →
  dependency_ordered placed (l ++ [x]).
Proof.
  revert placed. induction l as [|t l IH]; intros placed; simpl.
  - intros _ Hx. split; [|done]. intros dep_id Hin. specialize (Hx _ Hin). set_solver.
  - intros [Ht Hl] Hx. split; [done|]. apply IH; [done|].
    intros dep_id Hin. specialize (Hx _ Hin). set_solver.
Qed.

Lemma optimize_loop_ordered (fuel : nat) (optimized_tasks remaining_tasks schedule : list Task) :
  (length remaining_tasks ≤ fuel)%nat →
  schedule ≡ₚ remaining_tasks →
  dependency_ordered (task_id <$> optimized_tasks) schedule →
  dependency_ordered [] optimized_tasks →
  ∃ out,
    optimize_loop fuel optimized_tasks remaining_tasks = Some out
    ∧ dependency_ordered [] out.
Proof.
  revert optimized_tasks remaining_tasks schedule.
  induction fuel as [|fuel IH];
    intros optimized_tasks remaining_tasks schedule Hlen Hperm Hsched Hopt.
  - destruct remaining_tasks; [|simpl in Hlen; lia]. by eexists.
  - destruct remaining_tasks as [|first rest]; [by eexists|].
    destruct (pick_next optimized_tasks first rest)
      as (next_task & others & remaining & Hsort & Hremove & Hrem & Hready).
    rewrite optimize_loop_unfold, Hsort, Hremove. simpl.
    destruct schedule as [|y schedule'];
      [by apply Permutation_nil_cons in Hperm|].
    assert (dependencies_met optimized_tasks next_task = true) as Hmet.
    { apply Hready. destruct Hsched as [Hy _].
      assert (In y (List.filter (dependencies_met optimized_tasks) (first :: rest)))
        as Hin.
      { apply filter_In. split.
        - apply list_elem_of_In. rewrite <- Hperm. set_solver.
        - by apply dependencies_met_spec. }
      intros Hnil. by rewrite Hnil in Hin. }
    assert (next_task ∈ y :: schedule') as Hin by (rewrite Hperm, Hrem; set_solver).
    apply list_elem_of_split in Hin as (l1 & l2 & Hsplit). rewrite Hsplit in *.
    apply (IH _ _ (l1 ++ l2)).
    + apply Permutation_length in Hrem. simpl in *. lia.
    + apply (Permutation_cons_inv (a := next_task)).
      by rewrite Permutation_middle, Hperm.
    + rewrite fmap_app. by apply dependency_ordered_remove.
    + apply dependency_ordered_snoc; [done|]. by apply dependencies_met_spec.
Qed.

(** X18: whenever the subtasks can be arranged so that every task comes
    after all the tasks named in its prerequisites, custom_optimization_node
    returns such an arrangement: in the optimized list every prerequisite of
    a task is the id of a task placed before it. *)
Theorem custom_optimization_node_respects_dependencies (subtasks schedule : list Task)
    (processing_notes : list string) :
  schedule ≡ₚ subtasks →
  dependency_ordered [] schedule →
  ∃ optimized_tasks,
    custom_optimization_node subtasks processing_notes
    = Some (optimized_tasks, processing_notes ++ [ "完成任務順序優化" ])
    ∧ dependency_ordered [] optimized_tasks.
Proof.
  intros Hperm Hsched.
  destruct (optimize_loop_ordered (length subtasks) [] subtasks schedule)
    as (out & Hout & Hord); [done|done|done|done|].
  exists out. unfold custom_optimization_node. by rewrite Hout.
Qed.

Lemma filter_all {A : Type} (f : A → bool) (l : list A) :
  Forall (λ a, f a = true) l → List.filter f l = l.
Proof. induction 1 as [|a l Ha _ IH]; simpl; [done|]. by rewrite Ha, IH. Qed.

Lemma filter_none {A : Type} (f : A → bool) (l : list A) :
  Forall (λ a, f a = false) l → List.filter f l = [].
Proof. induction 1 as [|a l Ha _ IH]; simpl; [done|]. by rewrite Ha. Qed.

Lemma optimize_loop_free (fuel : nat) (optimized_tasks remaining_tasks : list Task) :
  (length remaining_tasks ≤ fuel)%nat →
  Forall (λ t, task_prerequisites t = []) remaining_tasks →
  optimize_loop fuel optimized_tasks remaining_tasks
  = Some (optimized_tasks ++ sort_by_key difficulty_key remaining_tasks).
Proof.
  revert optimized_tasks remaining_tasks.
  induction fuel as [|fuel IH]; intros optimized_tasks remaining_tasks Hlen Hfree.
  - destruct remaining_tasks; [|simpl in Hlen; lia]. simpl. by rewrite app_nil_r.
  - destruct remaining_tasks as [|first rest]; [simpl; by rewrite app_nil_r|].
    destruct (pick_next optimized_tasks first rest)
      as (next_task & others & remaining & Hsort & Hremove & Hperm & _).
    rewrite optimize_loop_unfold, Hsort, Hremove. simpl.
    rewrite filter_all in Hsort.
    2:{ eapply Forall_impl; [exact Hfree|]. intros t Ht.
        apply dependencies_met_spec. rewrite Ht. by intros dep_id ?%elem_of_nil. }
    rewrite IH.
    + change (insert_by_key difficulty_key first (sort_by_key difficulty_key rest))
        with (sort_by_key difficulty_key (first :: rest)).
      by rewrite Hsort, (sort_by_key_head_remove _ _ _ _ _ Hsort Hremove), <- app_assoc.
    + apply Permutation_length in Hperm. simpl in *. lia.
    + rewrite Hperm in Hfree. by apply Forall_cons_1 in Hfree as [_ ?].
Qed.

(** X19: when no subtask has a prerequisite, custom_optimization_node
    returns the subtasks sorted by difficulty, easy first, as Python's
    stable sort would leave them: the difficulty never decreases along the
    optimized list, and tasks of the same difficulty keep the order they had
    among the subtasks. *)
Theorem custom_optimization_node_sorts_free_tasks (subtasks : list Task)
    (processing_notes : list string) :
  Forall (λ t, task_prerequisites t = []) subtasks →
  ∃ optimized_tasks,
    custom_optimization_node subtasks processing_notes
    = Some (optimized_tasks, processing_notes ++ [ "完成任務順序優化" ])
    ∧ optimized_tasks = sort_by_key difficulty_key subtasks
    ∧ StronglySorted (λ a b, difficulty_key a ≤ difficulty_key b) optimized_tasks
    ∧ ∀ k, filter (λ t, difficulty_key t = k) optimized_tasks
           = filter (λ t, difficulty_key t = k) subtasks.
Proof.
  intros Hfree. eexists. unfold custom_optimization_node.
  rewrite optimize_loop_free; [|done|done]. simpl.
  split_and!; [done|done|apply sort_by_key_sorted|].
  intros k. apply sort_by_key_stable.
Qed.

Lemma optimize_loop_blocked (fuel : nat) (optimized_tasks remaining_tasks : list Task)
    (ids : list string) :
  (length remaining_tasks ≤ fuel)%nat →
  task_id <$> optimized_tasks ⊆ ids →
  task_id <$> remaining_tasks ⊆ ids →
  Forall (λ t, ∃ dep_id, dep_id ∈ task_prerequisites t ∧ dep_id ∉ ids) remaining_tasks →
  optimize_loop fuel optimized_tasks remaining_tasks
  = Some (optimized_tasks ++ remaining_tasks).
Proof.
  revert optimized_tasks remaining_tasks.
  induction fuel as [|fuel IH];
    intros optimized_tasks remaining_tasks Hlen Hopt Hrem Hblocked.
  - destruct remaining_tasks; [|simpl in Hlen; lia]. simpl. by rewrite app_nil_r.
  - destruct remaining_tasks as [|first rest]; [simpl; by rewrite app_nil_r|].
    rewrite optimize_loop_unfold, filter_none.
    2:{ eapply Forall_impl; [exact Hblocked|]. intros t (dep_id & Hdep & Hout).
        apply not_true_is_false. intros Hmet.
        apply Hout, Hopt. by eapply dependencies_met_spec. }
    simpl. rewrite decide_True; [|done]. simpl.
    rewrite IH.
    + by rewrite <- app_assoc.
    + simpl in Hlen. lia.
    + rewrite fmap_app. simpl. set_solver.
    + set_solver.
    + by apply Forall_cons_1 in Hblocked as [_ ?].
Qed.

(** X20: a prerequisite that names no subtask is never met, and the node
    treats a task blocked by one like a task in a cycle: when every subtask
    has such a prerequisite, no task is ever ready, the fallback takes the
    first remaining task on each pass, and the subtasks come back in the
    order they had, whatever their difficulties. *)
Theorem custom_optimization_node_keeps_blocked_order (subtasks : list Task)
    (processing_notes : list string) :
  Forall (λ t, ∃ dep_id, dep_id ∈ task_prerequisites t
                         ∧ dep_id ∉ task_id <$> subtasks) subtasks →
  custom_optimization_node subtasks processing_notes
  = Some (subtasks, processing_notes ++ [ "完成任務順序優化" ]).
Proof.
  intros Hblocked. unfold custom_optimization_node.
  rewrite (optimize_loop_blocked _ _ _ (task_id <$> subtasks));
    [done|done|set_solver|done|done].
Qed.

End CustomNodeProperties.

(** * Fan-out branches in any order of completion *)

Section SortedLists.
Context {A : Type} (key : A → Z).

Lemma insert_by_key_fmap {B : Type} (h : B → A) (x : B) (l : list B) :
  insert_by_key key (h x) (h <$> l) = h <$> insert_by_key (key ∘ h) x l.
Proof.
  induction l as [|y l IH]; csimpl; [done|].
  destruct (key (h y) <? key (h x)); csimpl; [by rewrite IH|done].
Qed.

Lemma sort_by_key_fmap {B : Type} (h : B → A) (l : list B) :
  sort_by_key key (h <$> l) = h <$> sort_by_key (key ∘ h) l.
Proof.
  induction l as [|x l IH]; csimpl; [done|].
  by rewrite IH, insert_by_key_fmap.
Qed.

(** Two sorted lists with the same elements are the same list, when no two
    elements share a key. *)
Lemma sorted_by_key_unique (l1 l2 : list A) :
  (∀ a b, key a = key b → a = b) →
  StronglySorted (λ a b, key a ≤ key b) l1 →
  StronglySorted (λ a b, key a ≤ key b) l2 →
  l1 ≡ₚ l2 → l1 = l2.
Proof.
  intros Hinj Hs1. revert l2.
  induction Hs1 as [|x l1 Hs1 IH Hx]; intros l2 Hs2 Hp.
  { by apply Permutation_nil in Hp. }
  destruct Hs2 as [|y l2 Hs2 Hy].
  { symmetry in Hp. by apply Permutation_nil_cons in Hp. }
  assert (x = y) as ->.
  { apply Hinj.
    assert (y ∈ x :: l1) as Hin1 by (rewrite Hp; set_solver).
    assert (x ∈ y :: l2) as Hin2 by (rewrite <- Hp; set_solver).
    rewrite Forall_forall in Hx, Hy.
    apply elem_of_cons in Hin1 as [-> | Hin1]; [done|].
    apply elem_of_cons in Hin2 as [-> | Hin2]; [done|].
    specialize (Hx _ Hin1). specialize (Hy _ Hin2). simpl in *. lia. }
  f_equal. apply IH; [done|]. by eapply Permutation_cons_inv.
Qed.

End SortedLists.

Lemma seq_sorted (start n : nat) :
  StronglySorted (λ a b, Z.of_nat a ≤ Z.of_nat b) (seq start n).
Proof.
  revert start. induction n as [|n IH]; intros start; simpl; constructor; [done|].
  apply Forall_forall. intros i Hi%elem_of_seq. lia.
Qed.

(** Sorting the positions of a list gives them in order, whatever order
    they came in. *)
Lemma sort_by_key_positions (finished : list nat) (n : nat) :
  finished ≡ₚ seq 0 n → sort_by_key Z.of_nat finished = seq 0 n.
Proof.
  intros Hp. apply (sorted_by_key_unique Z.of_nat).
  - intros a b. lia.
  - apply sort_by_key_sorted.
  - apply seq_sorted.
  - by rewrite sort_by_key_perm.
Qed.

Section FanOutParallel.
Context (g : StateGraph) (s : State).

Lemma merge_outputs_fan_out (sends : list Send) (acc : State)
    (outputs : list (string * State)) :
  Forall2 (λ b o, ∃ partial,
             run_branch g s b = Some partial ∧ o = (send_node b, partial))
    sends outputs →
  fan_out g s acc sends = Some (merge_outputs acc outputs).
Proof.
  intros Hall. revert acc.
  induction Hall as [|b o sends outputs (partial & Hb & ->) Hall IH]; intros acc; [done|].
  simpl. rewrite Hb. simpl. rewrite IH.
  by destruct (merge_outputs _ outputs).
Qed.

Lemma fan_out_faults (sends : list Send) (acc : State) :
  Exists (λ b, run_branch g s b = None) sends → fan_out g s acc sends = None.
Proof.
  intros Hex. revert acc. induction Hex as [b sends Hb|b sends Hex IH]; intros acc; simpl.
  - by rewrite Hb.
  - destruct (run_branch g s b); simpl; [|done]. by rewrite IH.
Qed.

(** With the outputs merged in router-list order, the fan-out gives the
    events and the merged state of [fan_out] whatever the order in which
    the branches complete. *)
Lemma fan_out_parallel_any_order (sends : list Send) (finished : list nat) :
  finished ≡ₚ seq 0 (length sends) →
  fan_out_parallel g s sends finished = fan_out g s s sends.
Proof.
  intros Hp. unfold fan_out_parallel.
  destruct (mapM (branch_output g s sends) finished) as [outputs|] eqn:Hout; simpl.
  - apply mapM_Some in Hout.
    set (h := λ i : nat, (i, default ("", ∅) (snd <$> branch_output g s sends i))).
    assert (outputs = h <$> finished) as ->.
    { clear Hp. induction Hout as [|i o finished outputs Hi Hout IH]; [done|].
      csimpl. rewrite <- IH. f_equal. unfold h. rewrite Hi. simpl.
      unfold branch_output in Hi. by simplify_option_eq. }
    rewrite sort_by_key_fmap.
    change ((λ o : nat * (string * State), Z.of_nat o.1) ∘ h) with Z.of_nat.
    rewrite (sort_by_key_positions finished (length sends) Hp).
    symmetry. apply merge_outputs_fan_out.
    apply Forall2_same_length_lookup_2; [by rewrite !length_fmap, length_seq|].
    intros i b o Hb Ho.
    rewrite !list_lookup_fmap in Ho.
    destruct (seq 0 (length sends) !! i) as [j|] eqn:Hj; [|done].
    apply lookup_seq in Hj as [-> _]. simpl in Ho. injection Ho as <-.
    assert (i ∈ finished) as Hi.
    { rewrite Hp. apply elem_of_seq. apply lookup_lt_Some in Hb. lia. }
    apply list_elem_of_lookup in Hi as [k Hk].
    destruct (Forall2_lookup_l _ _ _ _ _ Hout Hk) as (o & _ & Ho).
    unfold branch_output in *. rewrite Hb in *. simpl in *.
    destruct (run_branch g s b) as [partial|]; [|done]. by exists partial.
  - symmetry. apply fan_out_faults.
    apply mapM_None, Exists_exists in Hout as (i & Hi & Hnone).
    rewrite Hp in Hi. apply elem_of_seq in Hi.
    destruct (lookup_lt_is_Some_2 sends i) as [b Hb]; [lia|].
    apply Exists_exists. exists b. split; [by eapply list_elem_of_lookup_2|].
    unfold branch_output in Hnone. rewrite Hb in Hnone. simpl in Hnone.
    by destruct (run_branch g s b).
Qed.

End FanOutParallel.

Section FanOutOfTheAdvancedGraph.
Context `{Imports}.


End FanOutOfTheAdvancedGraph.

(** Merged as they complete, the two branches would leave the notes of
    whichever finished last: both updates carry the processing_notes of
    add_processing_note. *)
Example first_to_finish_depends_on_the_order :
  let g := @advanced_planner_builder (stand_in (always "finalize") (always "finalize")) in
  let s := stand_in_initial_state "學習Python編程" None in
  ∃ evs merged evs' merged',
    fan_out_first_to_finish g s (_distribute_parallel_tasks s) [0; 1]%nat
    = Some (evs, merged)
    ∧ fan_out_first_to_finish g s (_distribute_parallel_tasks s) [1; 0]%nat
      = Some (evs', merged')
    ∧ merged !! "processing_notes" = Some (VList [ VStr "完成資源檢查，評估 3 類資源" ])
    ∧ merged' !! "processing_notes" = Some (VList [ VStr "完成風險評估，識別 3 類風險" ])
    ∧ fan_out_parallel g s (_distribute_parallel_tasks s) [1; 0]%nat
      = fan_out_parallel g s (_distribute_parallel_tasks s) [0; 1]%nat.
Proof.
  eexists _, _, _, _. split_and!; [reflexivity|reflexivity|reflexivity|reflexivity|].
  rewrite !fan_out_parallel_any_order; [done|done|apply Permutation_swap].
Qed.

(** * Further passes and paths *)

Section FurtherPasses.
Context `{Imports}.

(** X24: the trace of a state that went through finalize.  On a well-typed
    state, when update_state_metadata answers the phase "completed" with a
    string under current_phase, _finalize_plan returns an update, and
    get_execution_trace of the merged state is the line of that phase, then
    one line per note the state had, then one line per final note: three
    of them, the first announcing the finalization, or four when an
    execution plan is present. *)
Theorem trace_after_finalize (s : State) (phase : string) :
  well_typed s = true →
  update_state_metadata s "completed" !! "current_phase" = Some (VStr phase) →
  ∃ partial notes final_notes,
    _finalize_plan s = Some partial
    ∧ state_get s "processing_notes" (VList []) = VList (VStr <$> notes)
    ∧ get_execution_trace (merge s partial)
      = Some (("最終階段: " +:+ phase)
              :: ((λ n, "- " +:+ n) <$> (notes ++ final_notes)),
              merge s partial)
    ∧ head final_notes = Some "計劃最終化完成"
    ∧ (state_get_none s "execution_plan" = VNone → length final_notes = 3%nat)
    ∧ (state_get_none s "execution_plan" ≠ VNone → length final_notes = 4%nat).
Proof.
  intros Hwt Hphase.
  assert (∀ final_notes notes,
            get_execution_trace
              (merge s (<[ "is_plan_approved" := VBool true ]>
                          (<[ "processing_notes" :=
                                VList ((VStr <$> notes) ++ (VStr <$> final_notes)) ]>
                             (update_state_metadata s "completed"))))
            = Some (("最終階段: " +:+ phase)
                    :: ((λ n, "- " +:+ n) <$> (notes ++ final_notes)),
                    merge s (<[ "is_plan_approved" := VBool true ]>
                               (<[ "processing_notes" :=
                                     VList ((VStr <$> notes) ++ (VStr <$> final_notes)) ]>
                                  (update_state_metadata s "completed")))))
    as Htrace.
  { intros final_notes notes.
    apply (get_execution_trace_value _ (VStr <$> (notes ++ final_notes))).
    - unfold state_get.
      erewrite merge_lookup_partial;
        [|rewrite lookup_insert_ne; [|done]; by rewrite lookup_insert_eq].
      simpl. by rewrite fmap_app.
    - apply mapM_py_str_strings.
    - unfold state_get.
      erewrite merge_lookup_partial; [|rewrite !lookup_insert_ne; [exact Hphase|done..]].
      done. }
  unfold _finalize_plan.
  destruct (wt_iteration_count _ Hwt) as [n ->].
  destruct (wt_subtasks _ Hwt) as [tasks ->].
  destruct (wt_processing_notes _ Hwt) as [notes ->]. simpl.
  destruct (wt_execution_plan _ Hwt) as [Hplan | [p Hplan]]; rewrite Hplan; simpl.
  - eexists _, notes, [_; _; _].
    split_and!; [done|done|apply (Htrace [_; _; _])|done|done|done].
  - eexists _, notes, [_; _; _; _].
    split_and!; [done|done|apply (Htrace [_; _; _; _])|done|done|done].
Qed.

(** X25: parallel_analysis is entered from breakdown_tasks only with more
    than five subtasks.  When a pass through breakdown_tasks in the advanced
    graph goes on to parallel_analysis, the state it hands over holds more
    than five subtasks, and _parallel_analysis on that state returns the
    update of add_processing_note for a note naming their number, with
    current_phase set to "parallel_analysis" over whatever the helper wrote
    there. *)
Theorem parallel_analysis_sees_many_tasks (s s1 : State) (evs : list event) :
  step advanced_planner_builder "breakdown_tasks" s
  = Next evs (Node "parallel_analysis") s1 →
  ∃ tasks,
    state_get s1 "subtasks" (VList []) = VList tasks
    ∧ (5 < length tasks)%nat
    ∧ _parallel_analysis s1
      = Some (<[ "current_phase" := VStr "parallel_analysis" ]>
                (add_processing_note s1
                   ("準備對 " +:+ pretty (Z.of_nat (length tasks))
                    +:+ " 個任務進行並行分析")))
    ∧ ∀ partial, _parallel_analysis s1 = Some partial →
        merge s1 partial !! "current_phase" = Some (VStr "parallel_analysis").
Proof.
  unfold step, route. simpl.
  unfold _should_do_parallel_analysis, _parallel_analysis.
  destruct (state_get _ "subtasks" (VList [])) as [| | | |tasks| | | | |] eqn:Htasks;
    simpl; try done.
  destruct (Z.ltb_spec 5 (Z.of_nat (length tasks))); simpl; [|done].
  intros [= <- <-]. exists tasks. rewrite Htasks. simpl.
  split_and!; [done|lia|done|].
  intros partial [= <-]. apply merge_lookup_partial. by rewrite lookup_insert_eq.
Qed.

End FurtherPasses.

(** Follow the edge out of a node of a literal graph. *)
Ltac hop_to t :=
  apply (rtc_l _ _ t); [eapply edge_hop_edge; [reflexivity|simpl; set_solver]|].

Section Paths.
Context `{Imports}.

(** X26: no node of the three graphs is a dead end, and the simple and the
    advanced graph have no dead node: from every registered node the edges
    and path maps lead on to END, and every registered node of the simple
    and of the advanced graph lies on a path from the entry. *)
Theorem every_node_leads_to_the_end (name : string) :
  (registered planner_builder name = true →
   rtc (edge_hop planner_builder) (Node name) END)
  ∧ (registered simple_planner_builder name = true →
     rtc (edge_hop simple_planner_builder) (graph_entry simple_planner_builder) (Node name)
     ∧ rtc (edge_hop simple_planner_builder) (Node name) END)
  ∧ (registered advanced_planner_builder name = true →
     rtc (edge_hop advanced_planner_builder) (graph_entry advanced_planner_builder)
       (Node name)
     ∧ rtc (edge_hop advanced_planner_builder) (Node name) END).
Proof.
  assert (rtc (edge_hop planner_builder) (Node "create_plan") END) as Hplan.
  { hop_to (Node "finalize"). hop_to END. done. }
  assert (rtc (edge_hop simple_planner_builder) (Node "create_plan") END) as Hsimple.
  { hop_to (Node "finalize"). hop_to END. done. }
  assert (rtc (edge_hop advanced_planner_builder) (Node "create_plan") END) as Hadvanced.
  { hop_to (Node "finalize"). hop_to END. done. }
  assert (rtc (edge_hop advanced_planner_builder) (Node "analyze_goal")
            (Node "create_plan")) as Hcreate.
  { hop_to (Node "breakdown_tasks"). hop_to (Node "evaluate_tasks").
    hop_to (Node "create_plan"). done. }
  assert (rtc (edge_hop advanced_planner_builder) (Node "analyze_goal")
            (Node "parallel_analysis")) as Hparallel.
  { hop_to (Node "breakdown_tasks"). hop_to (Node "parallel_analysis"). done. }
  assert (rtc (edge_hop advanced_planner_builder) (Node "analyze_goal")
            (Node "refine_plan")) as Hrefine.
  { etrans; [exact Hcreate|]. hop_to (Node "refine_plan"). done. }
  split_and!; intros Hreg; apply bool_decide_eq_true in Hreg; simpl in Hreg;
    repeat (apply elem_of_cons in Hreg as [-> | Hreg]);
    try (by apply elem_of_nil in Hreg); simpl.
  - hop_to (Node "breakdown_tasks"). hop_to (Node "evaluate_tasks").
    by hop_to (Node "create_plan").
  - hop_to (Node "evaluate_tasks"). by hop_to (Node "create_plan").
  - by hop_to (Node "create_plan").
  - done.
  - hop_to (Node "finalize"). hop_to END. done.
  - hop_to (Node "finalize"). hop_to END. done.
  - hop_to END. done.
  - hop_to END. done.
  - split; [done|]. hop_to (Node "breakdown_tasks"). hop_to (Node "evaluate_tasks").
    by hop_to (Node "create_plan").
  - split; [hop_to (Node "breakdown_tasks"); done|].
    hop_to (Node "evaluate_tasks"). by hop_to (Node "create_plan").
  - split; [hop_to (Node "breakdown_tasks"); hop_to (Node "evaluate_tasks"); done|].
    by hop_to (Node "create_plan").
  - split; [|done]. hop_to (Node "breakdown_tasks"). hop_to (Node "evaluate_tasks").
    hop_to (Node "create_plan"). done.
  - split; [|hop_to END; done]. hop_to (Node "breakdown_tasks").
    hop_to (Node "evaluate_tasks"). hop_to (Node "create_plan").
    hop_to (Node "finalize"). done.
  - split; [done|]. etrans; [exact Hcreate|done].
  - split; [hop_to (Node "breakdown_tasks"); done|].
    hop_to (Node "evaluate_tasks"). by hop_to (Node "create_plan").
  - split; [hop_to (Node "breakdown_tasks"); hop_to (Node "evaluate_tasks"); done|].
    by hop_to (Node "create_plan").
  - split; [done|done].
  - split; [etrans; [exact Hcreate|]; hop_to (Node "get_feedback"); done|].
    hop_to (Node "finalize"). hop_to END. done.
  - split; [done|]. hop_to (Node "state_monitor"). hop_to (Node "finalize").
    hop_to END. done.
  - split; [etrans; [exact Hcreate|]; hop_to (Node "finalize"); done|].
    hop_to END. done.
  - split; [|hop_to END; done]. etrans; [exact Hrefine|].
    hop_to (Node "state_monitor"). hop_to (Node "error_handler"). done.
  - split; [etrans; [exact Hrefine|]; hop_to (Node "state_monitor"); done|].
    hop_to (Node "finalize"). hop_to END. done.
  - split; [done|]. hop_to (Node "risk_assessment"). hop_to (Node "evaluate_tasks").
    by hop_to (Node "create_plan").
  - split; [etrans; [exact Hparallel|]; hop_to (Node "risk_assessment"); done|].
    hop_to (Node "evaluate_tasks"). by hop_to (Node "create_plan").
  - split; [etrans; [exact Hparallel|]; hop_to (Node "resource_check"); done|].
    hop_to (Node "evaluate_tasks"). by hop_to (Node "create_plan").
Qed.

End Paths.

(** * The refinement loop of the advanced graph *)

Lemma field_has_merge (ok : value → bool) (s p : State) (key : string) :
  field_has ok s key = true → field_has ok p key = true →
  field_has ok (merge s p) key = true.
Proof.
  unfold field_has, merge. rewrite lookup_union.
  by destruct (p !! key), (s !! key).
Qed.

Lemma well_typed_merge (s p : State) :
  well_typed s = true → well_typed p = true → well_typed (merge s p) = true.
Proof.
  unfold well_typed. rewrite !andb_true_iff.
  intros Hs Hp. repeat split; apply field_has_merge; tauto.
Qed.

Lemma well_typed_notes (p : State) (strs : list string) :
  well_typed p = true →
  well_typed (<[ "processing_notes" := VList (VStr <$> strs) ]> p) = true.
Proof.
  unfold well_typed, field_has. rewrite !andb_true_iff.
  rewrite lookup_insert_eq, !lookup_insert_ne by done.
  intros Hp. repeat split; try tauto.
  simpl. clear. induction strs; simpl; done.
Qed.

Lemma well_typed_error_update (s : State) (what : string) :
  well_typed (error_update s what) = true.
Proof.
  unfold well_typed, field_has, error_update.
  rewrite lookup_singleton_eq, !lookup_singleton_ne by done. done.
Qed.

Lemma advanced_refinement_logic_labels (s : State) :
  well_typed s = true →
  _advanced_refinement_logic s = Some "refine"
  ∨ _advanced_refinement_logic s = Some "finalize"
  ∨ _advanced_refinement_logic s = Some "restart".
Proof.
  intros Hwt. unfold _advanced_refinement_logic.
  destruct (wt_feedback _ Hwt) as [-> | [f ->]]; simpl; [tauto|].
  destruct (py_in _ _ || _); [tauto|]. destruct (approval_status f); tauto.
Qed.

Lemma check_iteration_limit_no_errors (s : State) :
  well_typed s = true →
  errors_of s = [] →
  _check_iteration_limit s
  = Some (if max_iterations_of s <=? iteration_count_of s
          then "force_finalize" else "continue").
Proof.
  intros Hwt.
  unfold _check_iteration_limit, max_iterations_of, iteration_count_of, errors_of.
  destruct (wt_errors _ Hwt) as [errs ->].
  destruct (wt_iteration_count _ Hwt) as [n ->].
  destruct (wt_config _ Hwt) as [c ->]. simpl. intros ->. simpl.
  by destruct (_ <=? _).
Qed.

Section RefinementLoop.
Context `{Imports}.
Hypothesis metadata_typed :
  ∀ s phase, well_typed (update_state_metadata s phase) = true.
Hypothesis metadata_frame :
  ∀ s phase key,
    key ∈ [ "errors"; "iteration_count"; "config" ] →
    update_state_metadata s phase !! key = None.
Hypothesis feedback_steady : keeps_typed_state 0 get_feedback.
Hypothesis refine_counts : keeps_typed_state 1 refine_plan.
Hypothesis no_restart :
  ∀ s, well_typed s = true →
       _advanced_refinement_logic (merge s (call_node get_feedback "get_feedback" s))
       ≠ Some "restart".

Lemma monitor_state_steady : keeps_typed_state 0 _monitor_state.
Proof.
  intros name s Hwt. unfold call_node, _monitor_state.
  destruct (wt_iteration_count _ Hwt) as [n ->].
  destruct (wt_config _ Hwt) as [c ->].
  destruct (wt_processing_notes _ Hwt) as [notes ->]. simpl.
  rewrite <- fmap_app.
  assert (∀ key, key ∈ [ "errors"; "iteration_count"; "config" ] →
            (<[ "processing_notes" :=
                  VList (VStr <$> notes ++
                           (if max_iterations c <=? n
                            then [ "狀態監控：第 " +:+ pretty n +:+ " 次迭代";
                                   "最大允許迭代：" +:+ pretty (max_iterations c) ]
                                 ++ [ "達到最大迭代次數，準備強制結束" ]
                            else [ "狀態監控：第 " +:+ pretty n +:+ " 次迭代";
                                   "最大允許迭代：" +:+ pretty (max_iterations c) ])) ]>
               (update_state_metadata s "monitored")) !! key = None) as Hframe.
  { intros key Hkey. rewrite lookup_insert_ne; [by apply metadata_frame|].
    intros <-. set_solver. }
  split_and!.
  - apply well_typed_merge; [done|]. by apply well_typed_notes.
  - rewrite iteration_count_of_merge; [lia|]. apply Hframe. set_solver.
  - apply max_iterations_of_merge, Hframe. set_solver.
  - apply errors_of_merge, Hframe. set_solver.
Qed.

Lemma run_advanced_finalize (limit : nat) (s : State) :
  (1 ≤ limit)%nat →
  ∃ sf, (run advanced_planner_builder limit (Node "finalize") s).2
        = Returned Terminated_success sf
        ∧ iteration_count_of sf = iteration_count_of s.
Proof.
  intros Hlimit. destruct limit as [|limit]; [lia|].
  erewrite run_next; [|by eapply step_edge]. rewrite run_end.
  eexists. split; [done|].
  apply iteration_count_of_merge, call_node_frame; [done|].
  intros partial. apply finalize_plan_frame; [|done|done].
  intros s' phase. apply metadata_frame. set_solver.
Qed.

Ltac follow_label Hl :=
  erewrite run_next;
  [|eapply step_conditional; [reflexivity|reflexivity|exact Hl|reflexivity]].

Lemma run_refinement_loop (d : nat) :
  ∀ (limit : nat) (s : State),
    well_typed s = true →
    errors_of s = [] →
    (Z.to_nat (max_iterations_of s - iteration_count_of s) ≤ d)%nat →
    (3 * d + 4 ≤ limit)%nat →
    ∃ sf, (run advanced_planner_builder limit (Node "get_feedback") s).2
          = Returned Terminated_success sf
          ∧ iteration_count_of sf
            ≤ Z.max (iteration_count_of s + 1) (max_iterations_of s).
Proof.
  induction d as [|d IH]; intros limit s Hwt Herrors Hd Hlimit;
    destruct (feedback_steady "get_feedback" s Hwt) as (Hwt1 & Hic1 & Hmax1 & Herr1);
    set (s1 := merge s (call_node get_feedback "get_feedback" s)) in *;
    destruct (refine_counts "refine_plan" s1 Hwt1) as (Hwt2 & Hic2 & Hmax2 & Herr2);
    set (s2 := merge s1 (call_node refine_plan "refine_plan" s1)) in *;
    destruct (monitor_state_steady "state_monitor" s2 Hwt2)
      as (Hwt3 & Hic3 & Hmax3 & Herr3);
    set (s3 := merge s2 (call_node _monitor_state "state_monitor" s2)) in *;
    pose proof (check_iteration_limit_no_errors s3 Hwt3) as Hcheck;
    do 4 (destruct limit as [|limit]; [lia|]);
    (destruct (advanced_refinement_logic_labels s1 Hwt1) as [Hl | [Hl | Hl]];
     [|follow_label Hl;
       destruct (run_advanced_finalize (S (S (S limit))) s1) as (sf & Hsf & Hicf);
       [lia|]; exists sf; (split; [done|lia])
      |by apply no_restart in Hl]);
    follow_label Hl; (erewrite run_next; [|by eapply step_edge]).
  - assert (_check_iteration_limit s3 = Some "force_finalize") as Hforce.
    { rewrite Hcheck by congruence.
      destruct (Z.leb_spec (max_iterations_of s3) (iteration_count_of s3)); [done|lia]. }
    follow_label Hforce.
    destruct (run_advanced_finalize (S limit) s3) as (sf & Hsf & Hicf); [lia|].
    exists sf. split; [done|]. lia.
  - destruct (Z.leb_spec (max_iterations_of s3) (iteration_count_of s3)) as [Hle | Hlt].
    + assert (_check_iteration_limit s3 = Some "force_finalize") as Hforce.
      { rewrite Hcheck by congruence.
        destruct (Z.leb_spec (max_iterations_of s3) (iteration_count_of s3)); [done|lia]. }
      follow_label Hforce.
      destruct (run_advanced_finalize (S limit) s3) as (sf & Hsf & Hicf); [lia|].
      exists sf. split; [done|]. lia.
    + assert (_check_iteration_limit s3 = Some "continue") as Hcontinue.
      { rewrite Hcheck by congruence.
        destruct (Z.leb_spec (max_iterations_of s3) (iteration_count_of s3)); [lia|done]. }
      follow_label Hcontinue.
      destruct (IH (S limit) s3) as (sf & Hsf & Hicf); [done|congruence|lia|lia|].
      exists sf. split; [done|]. lia.
Qed.

(** X27: the refinement loop of the advanced graph is bounded by the code's
    own router.  When get_feedback and refine_plan succeed on well-typed
    states, refine_plan counting one iteration per pass and neither touching
    the ceiling or the errors, update_state_metadata writes well-typed
    values and none of errors, iteration_count and config, and the feedback
    never asks for a restart, a run that enters get_feedback on a
    well-typed state without errors reaches END within
    4 + 3 * (max_iterations - iteration_count) passes.  The ceiling is
    checked after refine_plan, so one refinement is made even when the
    count had already reached it: the count of the state returned is at
    most the larger of max_iterations and the initial count plus one. *)
Theorem advanced_refinement_loop_is_bounded (limit : nat) (s0 : State) :
  well_typed s0 = true →
  errors_of s0 = [] →
  (4 + 3 * Z.to_nat (max_iterations_of s0 - iteration_count_of s0) ≤ limit)%nat →
  ∃ sf,
    (run advanced_planner_builder limit (Node "get_feedback") s0).2
    = Returned Terminated_success sf
    ∧ iteration_count_of sf
      ≤ Z.max (iteration_count_of s0 + 1) (max_iterations_of s0).
Proof.
  intros Hwt Herrors Hlimit.
  apply (run_refinement_loop
           (Z.to_nat (max_iterations_of s0 - iteration_count_of s0)));
    [done|done|lia|lia].
Qed.

End RefinementLoop.

(** * The further theorems at concrete inputs *)

Lemma member_cases_frame (keys : list string) (s : State) :
  Forall (λ key, key ≠ "current_phase" ∧ key ≠ "last_updated") keys →
  ∀ phase key, key ∈ keys → stand_in_metadata s phase !! key = None.
Proof.
  intros Hkeys phase key Hin. rewrite Forall_forall in Hkeys.
  destruct (Hkeys key Hin). by apply stand_in_metadata_frame.
Qed.

Lemma frame_keeps_restarting (f : State → option State) :
  (∀ key s partial, key ≠ "current_phase" → key ≠ "last_updated" →
     f s = Some partial → partial !! key = None) →
  keeps_restarting f.
Proof.
  intros Hf name s (Hr & Hp & Hfb).
  assert (∀ key, key ≠ "current_phase" → key ≠ "last_updated" → key ≠ "errors" →
            merge s (call_node f name s) !! key = s !! key) as Hsame.
  { intros key H1 H2 H3. apply merge_lookup_other, call_node_frame; [done|].
    intros partial. by apply Hf. }
  split_and!.
  - rewrite <- Hr. apply advanced_refinement_logic_reads. by apply Hsame.
  - rewrite <- Hp. apply should_do_parallel_analysis_reads. by apply Hsame.
  - rewrite <- Hfb. apply advanced_feedback_logic_reads; by apply Hsame.
Qed.

Lemma stand_in_keeps_restarting :
  Forall keeps_restarting
    [ stand_in_node "task_breakdown_complete";
      stand_in_node "task_evaluation_complete";
      stand_in_node "plan_creation_complete";
      stand_in_node "feedback_collected" ].
Proof.
  each_element; apply frame_keeps_restarting; intros key s partial ??;
    by apply stand_in_node_frame.
Qed.

Lemma should_do_parallel_analysis_threshold_witness :
  state_get six_subtasks_state "subtasks" (VList []) = VList (replicate 6 (VObj "Task"))
  ∧ _should_do_parallel_analysis six_subtasks_state = Some "parallel".
Proof.
  split; [reflexivity|].
  destruct (@should_do_parallel_analysis_threshold
              (stand_in (always "finalize") (always "finalize"))
              six_subtasks_state (replicate 6 (VObj "Task")) eq_refl)
    as (Hparallel & _ & _).
  apply Hparallel. simpl. lia.
Defined.

Lemma advanced_refinement_logic_decision_witness :
  well_typed low_rating_state = true
  ∧ _advanced_refinement_logic low_rating_state = Some "restart".
Proof.
  split; [reflexivity|].
  destruct (@advanced_refinement_logic_decision
              (stand_in (always "finalize") (always "finalize"))
              low_rating_state eq_refl)
    as (_ & _ & Hfeedback).
  destruct (Hfeedback {| rating := 1; comments := "可以"; approval_status := true |}
              eq_refl) as (Hrestart & _ & _).
  apply Hrestart. right. simpl. lia.
Defined.

Lemma advanced_refinement_logic_reads_feedback_only_witness :
  restart_state !! "feedback" = low_rating_state !! "feedback"
  ∧ _advanced_refinement_logic restart_state
    = _advanced_refinement_logic low_rating_state.
Proof.
  split; [reflexivity|].
  destruct (advanced_refinement_logic_reads_feedback_only
              restart_state low_rating_state eq_refl) as [Hsame _].
  exact Hsame.
Defined.

Lemma error_recovery_logic_decision_witness :
  well_typed (stand_in_initial_state "學習Python編程" None) = true
  ∧ errors_of (stand_in_initial_state "學習Python編程" None) = []
  ∧ _error_recovery_logic (stand_in_initial_state "學習Python編程" None) = Some "retry".
Proof.
  split_and!; [reflexivity|reflexivity|].
  destruct (error_recovery_logic_decision
              (stand_in_initial_state "學習Python編程" None) eq_refl)
    as (Hretry & _ & _).
  apply Hretry. split; [vm_compute; lia|]. vm_compute. reflexivity.
Defined.

Lemma advanced_feedback_logic_decision_witness :
  well_typed complex_plan_state = true
  ∧ config_value complex_plan_state = VConfig PlannerConfig_default
  ∧ _advanced_feedback_logic complex_plan_state = Some "need_revision".
Proof.
  split_and!; [reflexivity|reflexivity|].
  destruct (advanced_feedback_logic_decision complex_plan_state PlannerConfig_default
              eq_refl eq_refl) as [_ Hanalysis].
  destruct (Hanalysis {| total_tasks := 3;
                         complexity_score := 9.0%float;
                         feasibility_score := 5.0%float |} eq_refl)
    as (_ & Hrevision & _).
  apply Hrevision. split; [|reflexivity]. intros [_ Hlow]. discriminate Hlow.
Defined.

Lemma advanced_feedback_logic_ignores_threshold_witness :
  auto_approve_simple_plans PlannerConfig_default = auto_approve_simple_plans strict_config
  ∧ _advanced_feedback_logic (<[ "config" := VConfig PlannerConfig_default ]> complex_plan_state)
    = _advanced_feedback_logic (<[ "config" := VConfig strict_config ]> complex_plan_state).
Proof.
  split; [reflexivity|].
  apply (advanced_feedback_logic_ignores_threshold complex_plan_state
           PlannerConfig_default strict_config).
  reflexivity.
Defined.

Lemma handle_errors_keeps_the_errors_witness :
  well_typed error_state = true
  ∧ (∀ phase key,
       key ∈ [ "errors"; "iteration_count"; "execution_plan"; "config" ] →
       stand_in_metadata error_state phase !! key = None)
  ∧ ∃ partial,
      @_handle_errors (stand_in (always "finalize") (always "finalize")) error_state
      = Some partial
      ∧ errors_of (merge error_state partial) = errors_of error_state
      ∧ _check_iteration_limit (merge error_state partial) = Some "error".
Proof.
  assert (∀ phase key,
            key ∈ [ "errors"; "iteration_count"; "execution_plan"; "config" ] →
            stand_in_metadata error_state phase !! key = None) as Hframe.
  { apply member_cases_frame. by each_element. }
  split_and!; [reflexivity|exact Hframe|].
  destruct (@handle_errors_keeps_the_errors
              (stand_in (always "finalize") (always "finalize"))
              error_state eq_refl Hframe)
    as (partial & notes & Hpartial & _ & _ & Herrors & Hcheck & _).
  exists partial. split_and!; [exact Hpartial|exact Herrors|].
  rewrite Hcheck. reflexivity.
Defined.


Lemma branch_results_both_survive_witness :
  (∀ s note key,
     key ∈ [ "identified_risks"; "available_resources" ] →
     stand_in_note s note !! key = None)
  ∧ ∃ risk resource,
      @_assess_risks (stand_in (always "finalize") (always "finalize"))
        (stand_in_initial_state "學習Python編程" None) = Some risk
      ∧ @_check_resources (stand_in (always "finalize") (always "finalize"))
          (stand_in_initial_state "學習Python編程" None) = Some resource
      ∧ merge (merge ∅ risk) resource !! "identified_risks"
        = Some (VList [ VStr "時間風險"; VStr "技能風險"; VStr "資源風險" ]).
Proof.
  assert (∀ s note key,
            key ∈ [ "identified_risks"; "available_resources" ] →
            stand_in_note s note !! key = None) as Hframe.
  { intros s note key Hin. apply stand_in_note_frame. intros ->.
    repeat (apply elem_of_cons in Hin as [Hin | Hin]; [discriminate Hin|]).
    by apply elem_of_nil in Hin. }
  split; [exact Hframe|].
  destruct (@branch_results_both_survive
              (stand_in (always "finalize") (always "finalize"))
              (stand_in_initial_state "學習Python編程" None)
              (stand_in_initial_state "學習Python編程" None) ∅ Hframe)
    as (risk & resource & Hrisk & Hresource & Hboth).
  exists risk, resource. split_and!; [exact Hrisk|exact Hresource|].
  by apply (Hboth _ (or_introl eq_refl)).
Defined.

Lemma restart_cycle_is_not_monitored_witness :
  Forall keeps_restarting
    [ stand_in_node "task_breakdown_complete";
      stand_in_node "task_evaluation_complete";
      stand_in_node "plan_creation_complete";
      stand_in_node "feedback_collected" ]
  ∧ restarting restart_state
  ∧ max_iterations_of restart_state ≤ iteration_count_of restart_state
  ∧ ∀ limit,
      (run (@advanced_planner_builder (stand_in (always "finalize") (always "finalize")))
         limit (Node "get_feedback") restart_state).2
      = Failed IterationLimitExceeded.
Proof.
  assert (restarting restart_state) as Hrestart by (split_and!; reflexivity).
  split_and!; [exact stand_in_keeps_restarting|exact Hrestart| |].
  - vm_compute. discriminate.
  - intros limit.
    apply (@restart_cycle_is_not_monitored
             (stand_in (always "finalize") (always "finalize"))
             limit restart_state stand_in_keeps_restarting Hrestart).
Defined.

Lemma print_execution_trace_shows_every_note_witness :
  well_typed two_notes_result = true
  ∧ ∃ out, print_execution_trace two_notes_result = Some out
           ∧ length out = 6%nat.
Proof.
  split; [reflexivity|].
  destruct (print_execution_trace_shows_every_note two_notes_result eq_refl)
    as (out & notes & phase & Hout & Hnotes & _ & Hlen & _).
  exists out. split; [exact Hout|].
  rewrite Hlen. assert (length notes = 2%nat) as ->; [|reflexivity].
  apply (f_equal (λ v, default 0%nat (length <$> as_list v))) in Hnotes.
  simpl in Hnotes. by rewrite length_fmap in Hnotes.
Defined.

Lemma show_execution_trace_shows_last_notes_witness :
  well_typed two_notes_result = true
  ∧ _show_execution_trace two_notes_result
    = Some [ newline +:+ "🔍 LangGraph執行軌跡:";
             "   最終階段: completed";
             "   - 成功分析目標";
             "   - 計劃最終化完成";
             newline +:+ "📍 最終階段: completed";
             newline +:+ "📝 處理筆記:";
             "   • 成功分析目標";
             "   • 計劃最終化完成" ].
Proof.
  split; [reflexivity|].
  destruct (show_execution_trace_shows_last_notes two_notes_result eq_refl)
    as (out & notes & phase & Hout & Hnotes & Hphase & -> & _).
  rewrite Hout. injection Hphase as <-.
  assert (notes = [ "成功分析目標"; "計劃最終化完成" ]) as ->; [|reflexivity].
  injection Hnotes as Hnotes.
  destruct notes as [|a [|b [|c notes]]]; try done.
  by injection Hnotes as <- <-.
Defined.

Lemma simple_planner_visits_every_node_witness :
  (5 ≤ 5)%nat
  ∧ visited (invoke (@simple_planner_builder
                       (stand_in (always "finalize") (always "finalize")))
               5 (stand_in_initial_state "學習Python編程" None))
    = [ "analyze_goal"; "breakdown_tasks"; "evaluate_tasks"; "create_plan"; "finalize" ].
Proof.
  split; [lia|].
  apply (@simple_planner_visits_every_node
           (stand_in (always "finalize") (always "finalize"))
           5 (stand_in_initial_state "學習Python編程" None)).
  lia.
Defined.

Lemma state_monitor_enforces_the_ceiling_witness :
  well_typed ceiling_state = true
  ∧ (∀ phase key,
       key ∈ [ "errors"; "iteration_count"; "config" ] →
       stand_in_metadata ceiling_state phase !! key = None)
  ∧ ∃ s1,
      step (@advanced_planner_builder (stand_in (always "finalize") (always "finalize")))
        "state_monitor" ceiling_state
      = Next [ ("state_monitor", s1) ] (Node "finalize") s1.
Proof.
  assert (∀ phase key,
            key ∈ [ "errors"; "iteration_count"; "config" ] →
            stand_in_metadata ceiling_state phase !! key = None) as Hframe.
  { apply member_cases_frame. by each_element. }
  split_and!; [reflexivity|exact Hframe|].
  destruct (@state_monitor_enforces_the_ceiling
              (stand_in (always "finalize") (always "finalize"))
              ceiling_state eq_refl Hframe)
    as (s1 & t & Hstep & _ & Hfinal & _).
  exists s1. rewrite Hstep, Hfinal; [reflexivity|reflexivity|].
  vm_compute. discriminate.
Defined.

Lemma custom_optimization_node_respects_dependencies_witness :
  reverse demo_tasks ≡ₚ demo_tasks
  ∧ dependency_ordered [] (reverse demo_tasks)
  ∧ ∃ optimized_tasks,
      custom_optimization_node demo_tasks [] = Some (optimized_tasks, [ "完成任務順序優化" ])
      ∧ dependency_ordered [] optimized_tasks.
Proof.
  assert (dependency_ordered [] (reverse demo_tasks)) as Hordered.
  { simpl. split_and!; [set_solver..|done]. }
  split_and!; [apply reverse_Permutation|exact Hordered|].
  apply (custom_optimization_node_respects_dependencies demo_tasks (reverse demo_tasks) []);
    [apply reverse_Permutation|exact Hordered].
Defined.

Lemma custom_optimization_node_sorts_free_tasks_witness :
  Forall (λ t, task_prerequisites t = []) demo_free_tasks
  ∧ custom_optimization_node demo_free_tasks []
    = Some ([ ("task_a", EASY, []); ("task_d", MEDIUM, []);
              ("task_b", HARD, []); ("task_c", HARD, []) ],
            [ "完成任務順序優化" ]).
Proof.
  assert (Forall (λ t : demo_task, task_prerequisites t = []) demo_free_tasks) as Hfree.
  { by each_element. }
  split; [exact Hfree|].
  destruct (custom_optimization_node_sorts_free_tasks demo_free_tasks [] Hfree)
    as (optimized_tasks & Hnode & -> & _).
  exact Hnode.
Defined.

Lemma custom_optimization_node_keeps_blocked_order_witness :
  Forall (λ t, ∃ dep_id, dep_id ∈ task_prerequisites t
                         ∧ dep_id ∉ task_id <$> demo_blocked_tasks) demo_blocked_tasks
  ∧ custom_optimization_node demo_blocked_tasks []
    = Some (demo_blocked_tasks, [ "完成任務順序優化" ]).
Proof.
  assert (Forall (λ t : demo_task,
                    ∃ dep_id, dep_id ∈ task_prerequisites t
                              ∧ dep_id ∉ task_id <$> demo_blocked_tasks)
            demo_blocked_tasks) as Hblocked.
  { each_element; exists "task_0"; (split; [set_solver|]); simpl; intros Hin;
      repeat (apply elem_of_cons in Hin as [Hin | Hin]; [discriminate Hin|]);
      by apply elem_of_nil in Hin. }
  split; [exact Hblocked|].
  apply (custom_optimization_node_keeps_blocked_order demo_blocked_tasks [] Hblocked).
Defined.

Lemma check_iteration_limit_decision_witness :
  well_typed error_state = true
  ∧ max_iterations_of ceiling_state ≤ iteration_count_of ceiling_state
  ∧ _check_iteration_limit error_state = Some "error"
  ∧ _check_iteration_limit ceiling_state = Some "force_finalize".
Proof.
  split_and!; [reflexivity|vm_compute; discriminate|..].
  - destruct (check_iteration_limit_decision error_state) as [Hfirst _].
    apply (Hfirst (VStr "測試錯誤1") [ VStr "測試錯誤2" ]). reflexivity.
  - destruct (check_iteration_limit_decision ceiling_state) as [_ Htyped].
    destruct (Htyped eq_refl) as (_ & Hforce & _).
    apply Hforce. split; [reflexivity|]. vm_compute. discriminate.
Defined.

Lemma step_by_step_example_follows_the_simple_graph_witness :
  ∃ state,
    @step_by_step_example (stand_in (always "finalize") (always "finalize")) = Some state
    ∧ ∃ r,
        @run_simple_planner (stand_in (always "finalize") (always "finalize"))
          5 "建立個人健身計劃" = Some r
        ∧ history r !! 3%nat = Some state.
Proof.
  eexists. split; [reflexivity|].
  destruct (@step_by_step_example_follows_the_simple_graph
              (stand_in (always "finalize") (always "finalize")) _ 5 eq_refl)
    as (r & Hrun & Hhistory & _); [lia|].
  exists r. split; [exact Hrun|exact Hhistory].
Defined.

Lemma trace_after_finalize_witness :
  well_typed two_notes_result = true
  ∧ stand_in_metadata two_notes_result "completed" !! "current_phase"
    = Some (VStr "completed")
  ∧ ∃ partial trace,
      @_finalize_plan (stand_in (always "finalize") (always "finalize")) two_notes_result
      = Some partial
      ∧ get_execution_trace (merge two_notes_result partial)
        = Some (trace, merge two_notes_result partial)
      ∧ head trace = Some "最終階段: completed".
Proof.
  split_and!; [reflexivity|reflexivity|].
  destruct (@trace_after_finalize
              (stand_in (always "finalize") (always "finalize"))
              two_notes_result "completed" eq_refl eq_refl)
    as (partial & notes & final_notes & Hpartial & _ & Htrace & _).
  exists partial, ("最終階段: completed" :: ((λ n, "- " +:+ n) <$> (notes ++ final_notes))).
  split_and!; [exact Hpartial|exact Htrace|reflexivity].
Defined.

Lemma parallel_analysis_sees_many_tasks_witness :
  step (@advanced_planner_builder (stand_in (always "finalize") (always "finalize")))
    "breakdown_tasks" six_subtasks_state
  = Next [ ("breakdown_tasks",
            merge six_subtasks_state
              (stand_in_metadata six_subtasks_state "task_breakdown_complete")) ]
      (Node "parallel_analysis")
      (merge six_subtasks_state
         (stand_in_metadata six_subtasks_state "task_breakdown_complete"))
  ∧ ∃ tasks,
      state_get (merge six_subtasks_state
                   (stand_in_metadata six_subtasks_state "task_breakdown_complete"))
        "subtasks" (VList []) = VList tasks
      ∧ (5 < length tasks)%nat.
Proof.
  assert (step (@advanced_planner_builder
                  (stand_in (always "finalize") (always "finalize")))
            "breakdown_tasks" six_subtasks_state
          = Next [ ("breakdown_tasks",
                    merge six_subtasks_state
                      (stand_in_metadata six_subtasks_state "task_breakdown_complete")) ]
              (Node "parallel_analysis")
              (merge six_subtasks_state
                 (stand_in_metadata six_subtasks_state "task_breakdown_complete")))
    as Hstep by reflexivity.
  split; [exact Hstep|].
  destruct (@parallel_analysis_sees_many_tasks
              (stand_in (always "finalize") (always "finalize")) _ _ _ Hstep)
    as (tasks & Htasks & Hmany & _).
  exists tasks. split; [exact Htasks|exact Hmany].
Defined.

Lemma stand_in_metadata_typed (s : State) (phase : string) :
  well_typed (stand_in_metadata s phase) = true.
Proof. reflexivity. Qed.

Lemma stand_in_get_feedback_steady : keeps_typed_state 0 stand_in_get_feedback.
Proof.
  intros name s Hwt. unfold call_node, stand_in_get_feedback. split_and!.
  - by apply well_typed_merge.
  - rewrite iteration_count_of_merge; [lia|done].
  - by apply max_iterations_of_merge.
  - by apply errors_of_merge.
Qed.

Lemma stand_in_refine_plan_counts : keeps_typed_state 1 stand_in_refine_plan.
Proof.
  intros name s Hwt.
  destruct (stand_in_refine_counts name s) as [Hcount Hmax].
  split_and!; [|done|done|].
  - unfold call_node, stand_in_refine_plan. by apply well_typed_merge.
  - unfold call_node, stand_in_refine_plan. by apply errors_of_merge.
Qed.

Lemma advanced_refinement_loop_is_bounded_witness :
  (∀ s phase, well_typed (stand_in_metadata s phase) = true)
  ∧ (∀ s phase key,
       key ∈ [ "errors"; "iteration_count"; "config" ] →
       stand_in_metadata s phase !! key = None)
  ∧ keeps_typed_state 0 stand_in_get_feedback
  ∧ keeps_typed_state 1 stand_in_refine_plan
  ∧ (∀ s, well_typed s = true →
          _advanced_refinement_logic
            (merge s (call_node stand_in_get_feedback "get_feedback" s))
          ≠ Some "restart")
  ∧ ∃ sf,
      (run (@advanced_planner_builder reviewing_stand_in) 13 (Node "get_feedback")
         (stand_in_initial_state "學習Python編程" None)).2
      = Returned Terminated_success sf
      ∧ iteration_count_of sf ≤ 3.
Proof.
  assert (∀ s phase key,
            key ∈ [ "errors"; "iteration_count"; "config" ] →
            stand_in_metadata s phase !! key = None) as Hframe.
  { intros s. apply member_cases_frame. by each_element. }
  assert (∀ s, well_typed s = true →
               _advanced_refinement_logic
                 (merge s (call_node stand_in_get_feedback "get_feedback" s))
               ≠ Some "restart") as Hcalm.
  { intros s _. unfold _advanced_refinement_logic, state_get_none, state_get.
    erewrite merge_lookup_partial; [|apply lookup_insert_eq]. done. }
  split_and!;
    [exact stand_in_metadata_typed|exact Hframe|exact stand_in_get_feedback_steady
    |exact stand_in_refine_plan_counts|exact Hcalm|].
  destruct (@advanced_refinement_loop_is_bounded reviewing_stand_in
              stand_in_metadata_typed Hframe stand_in_get_feedback_steady
              stand_in_refine_plan_counts Hcalm 13
              (stand_in_initial_state "學習Python編程" None) eq_refl eq_refl)
    as (sf & Hsf & Hcount); [vm_compute; lia|].
  exists sf. split; [exact Hsf|]. exact Hcount.
Defined.

(** ** The refinement loop on the stand-in *)

Example refinement_loop_visits :
  visited (run (@advanced_planner_builder reviewing_stand_in) 13 (Node "get_feedback")
             (stand_in_initial_state "學習Python編程" None))
  = [ "get_feedback"; "refine_plan"; "state_monitor";
      "get_feedback"; "refine_plan"; "state_monitor";
      "get_feedback"; "refine_plan"; "state_monitor";
      "finalize" ].
Proof. vm_compute. reflexivity. Qed.


(** ** The custom node on the three tasks *)

Example custom_optimization_node_schedules :
  custom_optimization_node demo_tasks []
  = Some ([ ("task_001", EASY, []);
            ("task_002", MEDIUM, [ "task_001" ]);
            ("task_003", HARD, [ "task_002" ]) ],
          [ "完成任務順序優化" ]).
Proof. vm_compute. reflexivity. Qed.
